(** * ol/format/GMLBase and ol/Sphere.getLength: a shallow embedding

    The GML feature decoder of [ol/format/GMLBase] is embedded as a family of
    functions over an explicit DOM tree.  The object stack of the source is
    threaded explicitly: its bottom frame (the parse context) is the state of
    a small state-and-exception monad, and the frame a parser works on is
    passed to it and returned by it.  A JavaScript [TypeError] is a value of
    the exception side of that monad. *)

From Stdlib Require Import List String Ascii Bool Arith Lia.
From Stdlib Require Import DecimalString DecimalNat.
From Stdlib Require Import Sorting.Sorted.
From Stdlib Require Import Reals Lra.
Import ListNotations.

Set Implicit Arguments.
Set Warnings "-register-all".

(** ** JavaScript values that may be absent *)

(** A slot that holds [undefined], [null] or a proper value. *)
Inductive JsOpt (A : Type) : Type :=
| Undefined
| Null
| Defined (a : A).

Arguments Undefined {A}.
Arguments Null {A}.
Arguments Defined {A} a.

(** Truthiness of a slot whose proper values are objects or arrays: every
    object is truthy, also the empty array. *)
Definition truthy {A : Type} (v : JsOpt A) : bool :=
  match v with
  | Defined _ => true
  | _ => false
  end.

(** [value !== undefined] *)
Definition notUndefined {A : Type} (v : JsOpt A) : bool :=
  match v with
  | Undefined => false
  | _ => true
  end.

(** ** Strings *)

Module JsString.

Local Open Scope string_scope.

Definition colon : ascii := ":"%char.

(** [s.split(sep)] for a one-character separator: never empty. *)
Fixpoint split (sep : ascii) (s : string) : list string :=
  match s with
  | EmptyString => [EmptyString]
  | String c rest =>
      if Ascii.eqb c sep then EmptyString :: split sep rest
      else match split sep rest with
           | [] => [String c EmptyString]
           | seg :: segs => String c seg :: segs
           end
  end.

(** [array.pop()] read as a value: the last element. *)
Definition pop (segments : list string) : string := last segments EmptyString.

(** [array[0]] of a split. *)
Definition first (segments : list string) : string := hd EmptyString segments.

(** [s.indexOf(c) !== -1] *)
Fixpoint contains (c : ascii) (s : string) : bool :=
  match s with
  | EmptyString => false
  | String d rest => Ascii.eqb d c || contains c rest
  end.

(** [array.indexOf(x) !== -1] on an array of strings. *)
Definition includes (x : string) (array : list string) : bool :=
  existsb (String.eqb x) array.

(** Number-to-string conversion of a non-negative integer. *)
Definition ofNat (n : nat) : string :=
  NilEmpty.string_of_uint (Nat.to_uint n).

(** The characters matched by [\s\xa0] among the code units below 256. *)
Definition isWhitespace (c : ascii) : bool :=
  let n := nat_of_ascii c in
  Nat.eqb n 9 || Nat.eqb n 10 || Nat.eqb n 11 || Nat.eqb n 12
  || Nat.eqb n 13 || Nat.eqb n 32 || Nat.eqb n 160.

Fixpoint forallb (p : ascii -> bool) (s : string) : bool :=
  match s with
  | EmptyString => true
  | String c rest => p c && forallb p rest
  end.

(** A string is falsy exactly when it is empty. *)
Definition nonEmpty (s : string) : bool :=
  match s with
  | EmptyString => false
  | _ => true
  end.

End JsString.

(** ** Plain objects used as ordered maps

    Property enumeration follows insertion order, and an assignment to an
    existing key keeps the key's position. *)

Module JsObject.

Section Ops.
Variable V : Type.

Definition t := list (string * V).

Fixpoint get (o : t) (key : string) : option V :=
  match o with
  | [] => None
  | (k, v) :: rest => if String.eqb k key then Some v else get rest key
  end.

Fixpoint set (o : t) (key : string) (v : V) : t :=
  match o with
  | [] => [(key, v)]
  | (k, w) :: rest =>
      if String.eqb k key then (k, v) :: rest else (k, w) :: set rest key v
  end.

Definition keys (o : t) : list string := map fst o.
End Ops.

End JsObject.

(** ** The DOM tree *)

Record Attr : Type := mkAttr {
  attrNamespaceURI : option string;
  attrName : string;        (* qualified name *)
  attrLocalName : string;
  attrValue : string
}.

Inductive Node : Type :=
| Element (nodeName : string) (localName : string)
          (namespaceURI : option string)
          (attributes : list Attr) (childNodes : list Node)
| Text (data : string)              (* nodeType 3 *)
| CDATASection (data : string)      (* nodeType 4 *)
| Comment (data : string).          (* nodeType 8 *)

Definition nodeType (n : Node) : nat :=
  match n with
  | Element _ _ _ _ _ => 1
  | Text _ => 3
  | CDATASection _ => 4
  | Comment _ => 8
  end.

Definition isElement (n : Node) : bool := nodeType n =? 1.

Definition childNodes (n : Node) : list Node :=
  match n with
  | Element _ _ _ _ cs => cs
  | _ => []
  end.

Definition localName (n : Node) : string :=
  match n with
  | Element _ l _ _ _ => l
  | _ => EmptyString
  end.

Definition nodeName (n : Node) : string :=
  match n with
  | Element q _ _ _ _ => q
  | _ => EmptyString
  end.

Definition namespaceURI (n : Node) : option string :=
  match n with
  | Element _ _ u _ _ => u
  | _ => None
  end.

Definition attributes (n : Node) : list Attr :=
  match n with
  | Element _ _ _ a _ => a
  | _ => []
  end.

(** The element children, in document order: the nodes visited by
    [for (n = node.firstElementChild; n; n = n.nextElementSibling)]. *)
Definition elementChildren (n : Node) : list Node :=
  filter isElement (childNodes n).

Definition firstElementChild (n : Node) : option Node :=
  hd_error (elementChildren n).

Definition firstChild (n : Node) : option Node := hd_error (childNodes n).

(** [node.getAttribute(name)]: [null] when there is no such attribute. *)
Definition getAttribute (n : Node) (name : string) : option string :=
  option_map attrValue
    (find (fun a => String.eqb (attrName a) name) (attributes n)).

Definition optStringEqb (a b : option string) : bool :=
  match a, b with
  | Some x, Some y => String.eqb x y
  | None, None => true
  | _, _ => false
  end.

(** Modelled from the spec: [getAttributeNS] of ol/xml.js, which is not among
    the sources; the identifier "is read from an fid attribute, falling back
    to a namespaced id attribute", and an absent attribute reads as the empty
    string. *)
Definition getAttributeNS (n : Node) (ns : string) (name : string) : string :=
  match find (fun a => optStringEqb (attrNamespaceURI a) (Some ns)
                       && String.eqb (attrLocalName a) name) (attributes n) with
  | Some a => attrValue a
  | None => EmptyString
  end.

(** Modelled from the spec: [getAllTextContent(node, false)] of ol/xml.js,
    which is not among the sources: the text content of the node, the data of
    its text and CDATA descendants in document order, whitespace kept. *)
Fixpoint getAllTextContent (n : Node) : string :=
  match n with
  | Element _ _ _ _ cs =>
      (fix concat (l : list Node) : string :=
         match l with
         | [] => EmptyString
         | c :: rest => (getAllTextContent c ++ concat rest)%string
         end) cs
  | Text d => d
  | CDATASection d => d
  | Comment _ => EmptyString
  end.

(** ** The parse context *)

(** [context['featureType']]: a string, an array of strings, or undefined. *)
Inductive FeatureType : Type :=
| FTUndefined
| FTString (s : string)
| FTArray (l : list string).

(** [context['featureNS']]: a string, an object from prefix to URI, or
    undefined. *)
Inductive FeatureNS : Type :=
| NSUndefined
| NSString (s : string)
| NSObject (o : JsObject.t (option string)).

(** The bottom frame of the object stack. *)
Record Context : Type := mkContext {
  featureType : FeatureType;
  featureNS : FeatureNS;
  srsName : option string;
  srsDimension : option string
}.

Definition setFeatureTypes (c : Context) (ft : FeatureType) (ns : FeatureNS)
  : Context :=
  mkContext ft ns (srsName c) (srsDimension c).

Definition setSrs (c : Context) (name dimension : option string) : Context :=
  mkContext (featureType c) (featureNS c) name dimension.

(** ** Exceptions and state *)

(** What is thrown: the TypeError of reading a property of [null], or what
    a parser of a versioned format throws. *)
Inductive JsError : Type :=
| TypeError
| Thrown (what : string).

Inductive Result (A : Type) : Type :=
| Ok (a : A) (c : Context)
| Throw (e : JsError).

Arguments Ok {A} a c.
Arguments Throw {A} e.

(** A computation reads and writes the parse context and may throw. *)
Definition M (A : Type) : Type := Context -> Result A.

Definition ret {A : Type} (a : A) : M A := fun c => Ok a c.

Definition bind {A B : Type} (m : M A) (f : A -> M B) : M B :=
  fun c => match m c with
           | Ok a c' => f a c'
           | Throw e => Throw e
           end.

Definition throw {A : Type} (e : JsError) : M A := fun _ => Throw e.

Definition getContext : M Context := fun c => Ok c c.

Definition putContext (c : Context) : M unit := fun _ => Ok tt c.

Declare Scope gml_scope.
Delimit Scope gml_scope with gml.
Notation "x <- m ;; k" := (bind m (fun x => k))
  (at level 61, m at next level, right associativity) : gml_scope.
Notation "m ;;; k" := (bind m (fun _ => k))
  (at level 61, right associativity) : gml_scope.

(** ** Geometries and features *)

Inductive GeometryLayout : Type := XY | XYZ | XYM | XYZM.

Section DataModel.

(** The type of coordinate components.  The decoder stores them and never
    computes with them. *)
Variable number : Type.

(** What the decoders hand to the geometry constructors and setters of
    ol/geom.  An envelope is kept among the geometries, as the source's
    GEOMETRY_PARSERS_ do. *)
Inductive Geometry : Type :=
| Point (layout : GeometryLayout) (flatCoordinates : list number)
| LineString (layout : GeometryLayout) (flatCoordinates : list number)
| LinearRing (layout : GeometryLayout) (flatCoordinates : list number)
| Polygon (layout : GeometryLayout) (flatCoordinates : list number)
          (ends : list nat)
| MultiPoint (coordinates : list (JsOpt (list number)))
| MultiLineString (lineStrings : list Geometry)
| MultiPolygon (polygons : list Geometry)
| Envelope (extent : list number).

(** The value of a feature property: text, a decoded geometry, or
    [undefined]. *)
Inductive PropertyValue : Type :=
| PUndefined
| PText (s : string)
| PGeometry (g : Geometry).

(** Modelled from the spec: ol/Feature is not among the sources: "a set of
    named property values plus an optional designated geometry property and
    an optional identifier string".  [featureGeometryName] and [featureId]
    record the calls of [setGeometryName] and [setId]. *)
Record Feature : Type := mkFeature {
  featureValues : JsObject.t PropertyValue;
  featureGeometryName : option string;
  featureId : option string
}.

(** What [readFeaturesInternal] can return besides [undefined] and [null]:
    an array of features, or the single feature a replacer left on the
    stack. *)
Inductive Features : Type :=
| FeatureArray (l : list Feature)
| SingleFeature (f : Feature).

End DataModel.

Arguments PUndefined {number}.
Arguments PText {number} s.

(** ** The parsing combinators of ol/xml *)

Module Xml.

Local Open Scope gml_scope.

(** [parsersNS[n.namespaceURI]]: a property key is a string, and [null] is
    looked up as the key [null]. *)
Definition keyOf (uri : option string) : string :=
  match uri with
  | Some u => u
  | None => "null"%string
  end.

Section Combinators.

(** The type of the frame on top of the object stack. *)
Variable T : Type.

(** A parser works on an element and on the top frame, which it returns. *)
Definition Parser : Type := Node -> T -> M T.

Definition ParsersNS : Type := JsObject.t (JsObject.t Parser).

(** A value reader is called with the element and the object stack: it
    returns a value and may have worked on the top frame. *)
Definition ValueReader (V : Type) : Type := Node -> T -> M (T * V).

(** A reader that leaves the frames it finds alone. *)
Definition stackless {V : Type} (reader : Node -> M V) : ValueReader V :=
  fun node top => v <- reader node ;; ret (top, v).

(** The parsers are keyed by namespace, then by local name; an element that
    matches no pair is skipped. *)
Definition applyParser (parsersNS : ParsersNS) (n : Node) (top : T) : M T :=
  match JsObject.get parsersNS (keyOf (namespaceURI n)) with
  | Some parsers =>
      match JsObject.get parsers (localName n) with
      | Some parser => parser n top
      | None => ret top
      end
  | None => ret top
  end.

Fixpoint parseChildren (parsersNS : ParsersNS) (children : list Node)
  (top : T) : M T :=
  match children with
  | [] => ret top
  | n :: rest =>
      top' <- applyParser parsersNS n top ;;
      parseChildren parsersNS rest top'
  end.

(** Modelled from the spec: [parseNode] of ol/xml.js, which is not among the
    sources: "dispatch at every level is namespace-then-local-name keyed;
    elements outside any recognized namespace/name pair are silently
    skipped".  The element children are visited in document order. *)
Definition parseNode (parsersNS : ParsersNS) (node : Node) (top : T) : M T :=
  parseChildren parsersNS (elementChildren node) top.

(** Modelled from the spec: [pushParseAndPop] of ol/xml.js, which is not
    among the sources: "each compound element pushes one frame visible to its
    descendants and pops on return"; the popped frame is the result. *)
Definition pushParseAndPop (object : T) (parsersNS : ParsersNS) (node : Node)
  : M T :=
  parseNode parsersNS node object.

End Combinators.

(** Modelled from the spec: [makeArrayPusher] of ol/xml.js, which is not
    among the sources: the value read is appended to the array on top of the
    stack; "the parent aggregator treats undefined as absence and continues".
    [None] is [undefined]. *)
Definition makeArrayPusher {E : Type}
  (valueReader : ValueReader (list E) (option E)) : Parser (list E) :=
  fun node array =>
    r <- valueReader node array ;;
    match snd r with
    | Some value => ret (fst r ++ [value])
    | None => ret (fst r)
    end.

(** Modelled from the spec: [makeReplacer] of ol/xml.js, which is not among
    the sources: the value read replaces the top of the stack, and
    [undefined] is absence. *)
Definition makeReplacer {A : Type}
  (valueReader : ValueReader (JsOpt A) (JsOpt A)) : Parser (JsOpt A) :=
  fun node top =>
    r <- valueReader node top ;;
    if notUndefined (snd r) then ret (snd r) else ret (fst r).

End Xml.

(** [X | undefined] as a stack value. *)
Definition ofOption {A : Type} (o : option A) : JsOpt A :=
  match o with
  | Some a => Defined a
  | None => Undefined
  end.

(** Modelled from the spec: [extend(arr, data)] of ol/array.js, which is not
    among the sources, for an array [data]: "concatenate all rings' flat
    coordinates in order"; the elements of [data] are appended to [arr] one
    by one. *)
Definition extend {A : Type} (arr data : list A) : list A :=
  fold_left (fun a x => a ++ [x]) data arr.

(** ** ol/format/GMLBase *)

Module GMLBase.

Import Xml.
Local Open Scope gml_scope.
Local Open Scope string_scope.

Definition GMLNS : string := "http://www.opengis.net/gml".

(** [/^[\s\xa0]*$/.test(value)] *)
Definition ONLY_WHITESPACE_RE_test (value : string) : bool :=
  JsString.forallb JsString.isWhitespace value.

(** *** Auto-discovery of feature types (the loop of lines 131-153) *)

(** [for (var candidate in featureNS)]: the first key whose value is [uri],
    or the empty key and the number of keys passed. *)
Fixpoint findCandidate (featureNS : JsObject.t (option string))
  (uri : option string) (count : nat) : string * nat :=
  match featureNS with
  | [] => (EmptyString, count)
  | (candidate, v) :: rest =>
      if optStringEqb v uri then (candidate, count)
      else findCandidate rest uri (S count)
  end.

Definition discoverChild
  (acc : list string * JsObject.t (option string)) (child : Node)
  : list string * JsObject.t (option string) :=
  let '(featureType, featureNS) := acc in
  if Nat.eqb (nodeType child) 1 then
    let ft := JsString.pop (JsString.split JsString.colon (nodeName child)) in
    if negb (JsString.includes ft featureType) then
      let uri := namespaceURI child in
      let '(key, count) := findCandidate featureNS uri 0 in
      let '(key, featureNS) :=
        if negb (JsString.nonEmpty key) then
          let key := "p" ++ JsString.ofNat count in
          (key, JsObject.set featureNS key uri)
        else (key, featureNS) in
      (List.app featureType [key ++ ":" ++ ft], featureNS)
    else acc
  else acc.

Definition discover (children : list Node)
  : list string * JsObject.t (option string) :=
  fold_left discoverChild children ([], []).

(** [!featureType] *)
Definition featureTypeFalsy (ft : FeatureType) : bool :=
  match ft with
  | FTUndefined => true
  | FTString s => negb (JsString.nonEmpty s)
  | FTArray _ => false
  end.

(** Lines 125-159: the feature types and namespaces that the rest of
    [readFeaturesInternal] works with, and the update of the context.
    [node.childNodes] is an object for every node, so [!featureType] decides
    alone. *)
Definition resolveFeatureTypes (node : Node) : M (FeatureType * FeatureNS) :=
  context <- getContext ;;
  let featureType := featureType context in
  let featureNS := featureNS context in
  if featureTypeFalsy featureType then
    let '(types, namespaces) := discover (childNodes node) in
    let featureType := FTArray types in
    let featureNS := NSObject namespaces in
    if negb (localName node =? "featureMember") then
      (* recheck featureType for each featureMember *)
      putContext (setFeatureTypes context featureType featureNS) ;;;
      ret (featureType, featureNS)
    else ret (featureType, featureNS)
  else ret (featureType, featureNS).

(** Lines 160-164 and 167: the object whose keys [for (var p in featureNS)]
    enumerates. *)
Definition namespaceObject (featureNS : FeatureNS)
  : JsObject.t (option string) :=
  match featureNS with
  | NSString ns => [("p0", Some ns)]
  | NSObject o => o
  | NSUndefined => []
  end.

(** Line 166.  An undefined feature type does not reach this line: the
    discovery has replaced it. *)
Definition featureTypesArray (featureType : FeatureType) : list string :=
  match featureType with
  | FTArray l => l
  | FTString s => [s]
  | FTUndefined => []
  end.

Section ParsersNS.

Variable T : Type.
Variable parser : Parser T.

(** Lines 168-178: the parsers of prefix [p]. *)
Definition parsersFor (p : string) (featureTypes : list string)
  : JsObject.t (Parser T) :=
  fold_left
    (fun parsers ft =>
       let featurePrefix :=
         if negb (JsString.contains JsString.colon ft) then "p0"
         else JsString.first (JsString.split JsString.colon ft) in
       if featurePrefix =? p then
         JsObject.set parsers
           (JsString.pop (JsString.split JsString.colon ft)) parser
       else parsers)
    featureTypes [].

(** Lines 165-180. *)
Definition buildParsersNS (featureNS : JsObject.t (option string))
  (featureTypes : list string) : ParsersNS T :=
  fold_left
    (fun parsersNS entry =>
       JsObject.set parsersNS (keyOf (snd entry))
         (parsersFor (fst entry) featureTypes))
    featureNS [].

End ParsersNS.

(** *** The decoders *)

Section Decoders.

Variable number : Type.

(** The frame [readPolygon] pushes: an array seeded with [null] in slot 0,
    the exterior ring's slot; the later slots hold the interior rings.  The
    source types it [Array.<Array.<number>>], so slot 0 is the only slot that
    can hold [null]. *)
Record FlatLinearRings : Type := mkFlatLinearRings {
  slot0 : JsOpt (list number);
  slotsFrom1 : list (list number)
}.

(** The tables and collaborators that the versioned subclasses and
    ol/format/Feature supply; none of them is among the sources. *)
Variable GEOMETRY_PARSERS_ : ParsersNS (JsOpt (Geometry number)).
Variable GEOMETRY_FLAT_COORDINATES_PARSERS_ : ParsersNS (JsOpt (list number)).
Variable FLAT_LINEAR_RINGS_PARSERS_ : ParsersNS FlatLinearRings.
Variable transformWithOptions :
  Geometry number -> Context -> Geometry number.

Definition readFlatCoordinatesFromNode_ (node : Node)
  : M (JsOpt (list number)) :=
  pushParseAndPop Null GEOMETRY_FLAT_COORDINATES_PARSERS_ node.

Definition readPoint (node : Node) : M (option (Geometry number)) :=
  flatCoordinates <- readFlatCoordinatesFromNode_ node ;;
  match flatCoordinates with
  | Defined flatCoordinates => ret (Some (Point XYZ flatCoordinates))
  | _ => ret None
  end.

Definition readLineString (node : Node) : M (option (Geometry number)) :=
  flatCoordinates <- readFlatCoordinatesFromNode_ node ;;
  match flatCoordinates with
  | Defined flatCoordinates => ret (Some (LineString XYZ flatCoordinates))
  | _ => ret None
  end.

Definition readFlatLinearRing_ (node : Node) : M (option (list number)) :=
  ring <- pushParseAndPop Null GEOMETRY_FLAT_COORDINATES_PARSERS_ node ;;
  match ring with
  | Defined ring => ret (Some ring)
  | _ => ret None
  end.

Definition readLinearRing (node : Node) : M (option (Geometry number)) :=
  flatCoordinates <- readFlatCoordinatesFromNode_ node ;;
  match flatCoordinates with
  | Defined flatCoordinates => ret (Some (LinearRing XYZ flatCoordinates))
  | _ => ret None
  end.

(** Lines 430-433: one turn of the loop per slot from 1 on. *)
Fixpoint extendRings (flatCoordinates : list number) (ends : list nat)
  (rings : list (list number)) : list number * list nat :=
  match rings with
  | [] => (flatCoordinates, ends)
  | ring :: rest =>
      let flatCoordinates := extend flatCoordinates ring in
      extendRings flatCoordinates (List.app ends [List.length flatCoordinates])
        rest
  end.

(** Lines 425-439, from the popped frame on. *)
Definition polygonOfRings (flatLinearRings : FlatLinearRings)
  : option (Geometry number) :=
  match slot0 flatLinearRings with
  | Defined flatCoordinates =>
      let ends := [List.length flatCoordinates] in
      let '(flatCoordinates, ends) :=
        extendRings flatCoordinates ends (slotsFrom1 flatLinearRings) in
      Some (Polygon XYZ flatCoordinates ends)
  | _ => None
  end.

Definition readPolygon (node : Node) : M (option (Geometry number)) :=
  flatLinearRings <-
    pushParseAndPop (mkFlatLinearRings Null []) FLAT_LINEAR_RINGS_PARSERS_
      node ;;
  ret (polygonOfRings flatLinearRings).

Definition gmlParsers {T : Type} (parsers : JsObject.t (Parser T))
  : ParsersNS T :=
  [(GMLNS, parsers)].

(** [value !== undefined] decides what an array pusher appends: [null] is
    appended. *)
Definition pushable {A : Type} (v : JsOpt A) : option (JsOpt A) :=
  if notUndefined v then Some v else None.

Definition POINTMEMBER_PARSERS_ : ParsersNS (list (JsOpt (list number))) :=
  gmlParsers
    [("Point",
      makeArrayPusher
        (stackless (fun node =>
           v <- readFlatCoordinatesFromNode_ node ;; ret (pushable v))))].

Definition LINESTRINGMEMBER_PARSERS_ : ParsersNS (list (Geometry number)) :=
  gmlParsers [("LineString", makeArrayPusher (stackless readLineString))].

Definition POLYGONMEMBER_PARSERS_ : ParsersNS (list (Geometry number)) :=
  gmlParsers [("Polygon", makeArrayPusher (stackless readPolygon))].

(** The member parsers return nothing: they parse into the frame they find
    on top of the stack. *)
Definition pointMemberParser_
  : ValueReader (list (JsOpt (list number))) (option (JsOpt (list number))) :=
  fun node top =>
    top' <- parseNode POINTMEMBER_PARSERS_ node top ;; ret (top', None).

Definition lineStringMemberParser_
  : ValueReader (list (Geometry number)) (option (Geometry number)) :=
  fun node top =>
    top' <- parseNode LINESTRINGMEMBER_PARSERS_ node top ;; ret (top', None).

Definition polygonMemberParser_
  : ValueReader (list (Geometry number)) (option (Geometry number)) :=
  fun node top =>
    top' <- parseNode POLYGONMEMBER_PARSERS_ node top ;; ret (top', None).

Definition MULTIPOINT_PARSERS_ : ParsersNS (list (JsOpt (list number))) :=
  gmlParsers
    [("pointMember", makeArrayPusher pointMemberParser_);
     ("pointMembers", makeArrayPusher pointMemberParser_)].

Definition MULTILINESTRING_PARSERS_ : ParsersNS (list (Geometry number)) :=
  gmlParsers
    [("lineStringMember", makeArrayPusher lineStringMemberParser_);
     ("lineStringMembers", makeArrayPusher lineStringMemberParser_)].

Definition MULTIPOLYGON_PARSERS_ : ParsersNS (list (Geometry number)) :=
  gmlParsers
    [("polygonMember", makeArrayPusher polygonMemberParser_);
     ("polygonMembers", makeArrayPusher polygonMemberParser_)].

Definition RING_PARSERS : ParsersNS (JsOpt (list number)) :=
  gmlParsers
    [("LinearRing",
      makeReplacer
        (stackless (fun node =>
           ring <- readFlatLinearRing_ node ;; ret (ofOption ring))))].

(** An array is truthy, so the [else] branches of the three readers below
    are never taken. *)
Definition readMultiPoint (node : Node) : M (option (Geometry number)) :=
  coordinates <- pushParseAndPop [] MULTIPOINT_PARSERS_ node ;;
  ret (Some (MultiPoint coordinates)).

Definition readMultiLineString (node : Node) : M (option (Geometry number)) :=
  lineStrings <- pushParseAndPop [] MULTILINESTRING_PARSERS_ node ;;
  ret (Some (MultiLineString lineStrings)).

Definition readMultiPolygon (node : Node) : M (option (Geometry number)) :=
  polygons <- pushParseAndPop [] MULTIPOLYGON_PARSERS_ node ;;
  ret (Some (MultiPolygon polygons)).

(** Lines 199-213.  [node.firstElementChild] is [null] for a node without
    element children, and reading a property of [null] throws. *)
Definition readGeometryElement (node : Node) : M (option (Geometry number)) :=
  match firstElementChild node with
  | None => throw TypeError
  | Some first =>
      context <- getContext ;;
      putContext (setSrs context (getAttribute first "srsName")
                    (getAttribute first "srsDimension")) ;;;
      geometry <- pushParseAndPop Null GEOMETRY_PARSERS_ node ;;
      match geometry with
      | Defined geometry =>
          context <- getContext ;;
          ret (Some (transformWithOptions geometry context))
      | _ => ret None
      end
  end.

(** The test of lines 231-233: no child node, or one child node that is a
    text or CDATA node. *)
Definition isAttributeElement (n : Node) : bool :=
  match childNodes n with
  | [] => true
  | [c] => Nat.eqb (nodeType c) 3 || Nat.eqb (nodeType c) 4
  | _ => false
  end.

Definition ofGeometry (g : option (Geometry number)) : PropertyValue number :=
  match g with
  | Some g => PGeometry g
  | None => PUndefined
  end.

(** Lines 226-246: the loop over the element children. *)
Fixpoint readFeatureChildren (children : list Node)
  (values : JsObject.t (PropertyValue number)) (geometryName : option string)
  : M (JsObject.t (PropertyValue number) * option string) :=
  match children with
  | [] => ret (values, geometryName)
  | n :: rest =>
      let localName := localName n in
      if isAttributeElement n then
        let value := getAllTextContent n in
        let value :=
          if ONLY_WHITESPACE_RE_test value then PUndefined else PText value in
        readFeatureChildren rest (JsObject.set values localName value)
          geometryName
      else
        (* boundedBy is an extent and must not be considered as a geometry *)
        let geometryName :=
          if negb (localName =? "boundedBy") then Some localName
          else geometryName in
        geometry <- readGeometryElement n ;;
        readFeatureChildren rest
          (JsObject.set values localName (ofGeometry geometry)) geometryName
  end.

(** [x || y] and [if (x)] on strings: the empty string is falsy. *)
Definition truthyString (s : option string) : option string :=
  match s with
  | Some s => if JsString.nonEmpty s then Some s else None
  | None => None
  end.

Definition readFeatureElement (node : Node) : M (Feature number) :=
  let fid :=
    match truthyString (getAttribute node "fid") with
    | Some fid => fid
    | None => getAttributeNS node GMLNS "id"
    end in
  r <- readFeatureChildren (elementChildren node) [] None ;;
  let '(values, geometryName) := r in
  ret (mkFeature values (truthyString geometryName) (truthyString (Some fid))).

(** [if (features === null) features = []] *)
Definition nullToEmpty (features : JsOpt (Features number))
  : JsOpt (Features number) :=
  match features with
  | Null => Defined (FeatureArray [])
  | _ => features
  end.

(** Lines 124-186: the branch of a 'featureMembers' or 'featureMember'
    element.  The parsers are array pushers and the frame is an empty array
    for 'featureMembers'; they are replacers and the frame is [undefined]
    for 'featureMember'. *)
Definition readMembers (node : Node) : M (JsOpt (Features number)) :=
  r <- resolveFeatureTypes node ;;
  let '(featureType, featureNS) := r in
  let featureNS := namespaceObject featureNS in
  let featureTypes := featureTypesArray featureType in
  if localName node =? "featureMember" then
    let parsersNS :=
      buildParsersNS
        (makeReplacer
           (stackless (fun n => f <- readFeatureElement n ;; ret (Defined f))))
        featureNS featureTypes in
    features <- pushParseAndPop Undefined parsersNS node ;;
    match features with
    | Defined f => ret (Defined (SingleFeature f))
    | Null => ret Null
    | Undefined => ret Undefined
    end
  else
    let parsersNS :=
      buildParsersNS
        (makeArrayPusher
           (stackless (fun n => f <- readFeatureElement n ;; ret (Some f))))
        featureNS featureTypes in
    features <- pushParseAndPop [] parsersNS node ;;
    ret (Defined (FeatureArray features)).

(** Lines 111-191, over the table the 'FeatureCollection' branch parses
    with. *)
Definition readFeaturesInternalWith
  (FEATURE_COLLECTION_PARSERS : ParsersNS (JsOpt (Features number)))
  (node : Node) : M (JsOpt (Features number)) :=
  let localName := localName node in
  features <-
    (if localName =? "FeatureCollection" then
       if optStringEqb (namespaceURI node) (Some "http://www.opengis.net/wfs")
       then pushParseAndPop (Defined (FeatureArray []))
              FEATURE_COLLECTION_PARSERS node
       else pushParseAndPop Null FEATURE_COLLECTION_PARSERS node
     else if (localName =? "featureMembers") || (localName =? "featureMember")
     then readMembers node
     else ret Null) ;;
  ret (nullToEmpty features).

(** The source function calls itself through FEATURE_COLLECTION_PARSERS, on
    a child element named 'featureMember' or 'featureMembers'.  Such a call
    does not take the 'FeatureCollection' branch, so it never reads the
    table. *)
Definition readFeaturesInternalOfMember (node : Node)
  : M (JsOpt (Features number)) :=
  readFeaturesInternalWith [] node.

(** Lines 70-76. *)
Definition FEATURE_COLLECTION_PARSERS : ParsersNS (JsOpt (Features number)) :=
  gmlParsers
    [("featureMember", makeReplacer (stackless readFeaturesInternalOfMember));
     ("featureMembers", makeReplacer (stackless readFeaturesInternalOfMember))].

Definition readFeaturesInternal (node : Node) : M (JsOpt (Features number)) :=
  readFeaturesInternalWith FEATURE_COLLECTION_PARSERS node.

(** The object stack of the public entry points starts with a context that
    holds the format's options only.  The read options that
    [getReadOptions] adds are the projections, which only the reprojection
    collaborator reads. *)
Definition initialContext (featureType : FeatureType) (featureNS : FeatureNS)
  : Context :=
  mkContext featureType featureNS None None.

(** Lines 556-560: [geometry ? geometry : null]. *)
Definition readGeometryFromNode (node : Node)
  : Result (JsOpt (Geometry number)) :=
  match readGeometryElement node (initialContext FTUndefined NSUndefined) with
  | Ok (Some geometry) c => Ok (Defined geometry) c
  | Ok None c => Ok Null c
  | Throw e => Throw e
  end.

(** Lines 578-588: [features || []], for a format constructed with the
    options [featureType] and [featureNS]. *)
Definition readFeaturesFromNode (featureType : FeatureType)
  (featureNS : FeatureNS) (node : Node) : Result (Features number) :=
  match readFeaturesInternal node (initialContext featureType featureNS) with
  | Ok (Defined features) c => Ok features c
  | Ok _ c => Ok (FeatureArray []) c
  | Throw e => Throw e
  end.

End Decoders.

End GMLBase.

(** ** A versioned format for the examples

    The tables a versioned subclass adds to the base class, in a small
    version: coordinates are unsigned decimal integers separated by other
    characters, rings are read through RING_PARSERS, and the reprojection
    collaborator is the identity. *)

Module Example.

Import Xml GMLBase.
Local Open Scope gml_scope.
Local Open Scope string_scope.

Definition digit (c : ascii) : option nat :=
  let n := nat_of_ascii c in
  if Nat.leb 48 n && Nat.leb n 57 then Some (n - 48) else None.

Fixpoint parseNumbers (s : string) (current : option nat) : list nat :=
  match s with
  | EmptyString =>
      match current with
      | Some n => [n]
      | None => []
      end
  | String c rest =>
      match digit c, current with
      | Some d, Some n => parseNumbers rest (Some (10 * n + d))
      | Some d, None => parseNumbers rest (Some d)
      | None, Some n => n :: parseNumbers rest None
      | None, None => parseNumbers rest None
      end
  end.

Definition readFlatPosList (node : Node) : M (JsOpt (list nat)) :=
  ret (Defined (parseNumbers (getAllTextContent node) None)).

Definition GEOMETRY_FLAT_COORDINATES_PARSERS_ : ParsersNS (JsOpt (list nat)) :=
  gmlParsers
    [("pos", makeReplacer (stackless readFlatPosList));
     ("posList", makeReplacer (stackless readFlatPosList))].

Definition readRing (node : Node) : M (JsOpt (list nat)) :=
  pushParseAndPop Undefined (RING_PARSERS GEOMETRY_FLAT_COORDINATES_PARSERS_)
    node.

Definition exteriorParser_ : Parser (FlatLinearRings nat) :=
  fun node flatLinearRings =>
    flatLinearRing <- readRing node ;;
    match flatLinearRing with
    | Defined ring =>
        ret (mkFlatLinearRings (Defined ring) (slotsFrom1 flatLinearRings))
    | _ => ret flatLinearRings
    end.

Definition interiorParser_ : Parser (FlatLinearRings nat) :=
  fun node flatLinearRings =>
    flatLinearRing <- readRing node ;;
    match flatLinearRing with
    | Defined ring =>
        ret (mkFlatLinearRings (slot0 flatLinearRings)
               (List.app (slotsFrom1 flatLinearRings) [ring]))
    | _ => ret flatLinearRings
    end.

Definition FLAT_LINEAR_RINGS_PARSERS_ : ParsersNS (FlatLinearRings nat) :=
  gmlParsers [("exterior", exteriorParser_); ("interior", interiorParser_)].

Definition geometryReplacer (read : Node -> M (option (Geometry nat)))
  : Parser (JsOpt (Geometry nat)) :=
  makeReplacer (stackless (fun node => g <- read node ;; ret (ofOption g))).

Definition GEOMETRY_PARSERS_ : ParsersNS (JsOpt (Geometry nat)) :=
  gmlParsers
    [("Point", geometryReplacer (readPoint GEOMETRY_FLAT_COORDINATES_PARSERS_));
     ("LineString",
      geometryReplacer (readLineString GEOMETRY_FLAT_COORDINATES_PARSERS_));
     ("LinearRing",
      geometryReplacer (readLinearRing GEOMETRY_FLAT_COORDINATES_PARSERS_));
     ("Polygon", geometryReplacer (readPolygon FLAT_LINEAR_RINGS_PARSERS_));
     ("MultiPoint",
      geometryReplacer (readMultiPoint GEOMETRY_FLAT_COORDINATES_PARSERS_))].

Definition transformWithOptions (g : Geometry nat) (_ : Context)
  : Geometry nat := g.

Definition gml (name : string) (attrs : list Attr) (children : list Node)
  : Node :=
  Element ("gml:" ++ name) name (Some GMLNS) attrs children.

Definition el (prefix name uri : string) (children : list Node) : Node :=
  Element (prefix ++ ":" ++ name) name (Some uri) [] children.

Definition ring (text : string) : Node :=
  gml "LinearRing" [] [gml "posList" [] [Text text]].

Definition noContext : Context := initialContext FTUndefined NSUndefined.

(** A polygon with an exterior and one interior ring. *)
Definition polygonWithHole : Node :=
  gml "Polygon" []
    [gml "exterior" [] [ring "0 0 9 0 9 9 0 9 0 0"];
     gml "interior" [] [ring "1 1 2 1 2 2 1 1"]].

(** A point of two dimensions. *)
Definition point2D : Node :=
  gml "Point" [mkAttr None "srsDimension" "srsDimension" "2"]
    [gml "pos" [] [Text "1 2"]].

(** A feature with a bounding box and two geometries. *)
Definition featureWithTwoGeometries : Node :=
  el "app" "road" "http://example.org/app"
    [el "app" "name" "http://example.org/app" [Text "A1"];
     gml "boundedBy" [] [gml "Point" [] [gml "pos" [] [Text "0 0"]]];
     el "app" "start" "http://example.org/app"
       [gml "Point" [] [gml "pos" [] [Text "1 2"]]];
     el "app" "end" "http://example.org/app"
       [gml "Point" [] [gml "pos" [] [Text "3 4"]]]].

(** A feature whose only complex child is boundedBy. *)
Definition featureWithBoundsOnly : Node :=
  el "app" "road" "http://example.org/app"
    [el "app" "name" "http://example.org/app" [Text "A1"];
     gml "boundedBy" [] [gml "Point" [] [gml "pos" [] [Text "0 0"]]]].

(** A feature with a property that holds a comment only. *)
Definition featureWithComment : Node :=
  el "app" "road" "http://example.org/app"
    [el "app" "name" "http://example.org/app" [Comment "unnamed"]].

(** Containers with two children of different namespaces. *)
Definition twoNamespaces (container : string) : Node :=
  gml container []
    [el "a" "road" "http://example.org/a" [];
     el "b" "river" "http://example.org/b" []].

(** A singular container with one child. *)
Definition oneMember : Node :=
  gml "featureMember" [] [el "app" "road" "http://example.org/app" []].

(** The decoders of the example format. *)
Definition decodeFeatureElement :=
  GMLBase.readFeatureElement GEOMETRY_PARSERS_ transformWithOptions.

Definition decodeFeaturesInternal :=
  GMLBase.readFeaturesInternal GEOMETRY_PARSERS_ transformWithOptions.

End Example.

(** ** The coordinate parsers of the versioned formats

    The base class reads coordinates through the parsers that a versioned
    subclass puts in GEOMETRY_FLAT_COORDINATES_PARSERS_.  No subclass is
    among the sources. *)

Module Coordinates.

Import Xml GMLBase.
Local Open Scope gml_scope.

(** The maximal runs of characters that are no whitespace, in order;
    [current] is the run being read. *)
Fixpoint tokensFrom (current : string) (s : string) : list string :=
  match s with
  | EmptyString => if JsString.nonEmpty current then [current] else []
  | String c rest =>
      if JsString.isWhitespace c then
        if JsString.nonEmpty current
        then current :: tokensFrom EmptyString rest
        else tokensFrom EmptyString rest
      else tokensFrom (String.append current (String c EmptyString)) rest
  end.

Definition tokens (s : string) : list string := tokensFrom EmptyString s.

Section Parsers.

Variable number : Type.

(** The number that a token stands for. *)
Variable parseFloat : string -> number.

(** The local names of the elements that hold coordinates. *)
Variable names : list string.

(** Modelled from the spec: the coordinate parsers of the versioned
    subclasses, which are not among the sources: they "parse
    whitespace-delimited coordinate tuples from text content into a flat
    coordinate sequence". *)
Definition readFlatCoordinates (node : Node) : M (JsOpt (list number)) :=
  ret (Defined (map parseFloat (tokens (getAllTextContent node)))).

(** Modelled from the spec: GEOMETRY_FLAT_COORDINATES_PARSERS_ of the
    versioned subclasses, which is not among the sources: the elements of
    the GML namespace that hold coordinates replace the value on the
    stack by their coordinates. *)
Definition GEOMETRY_FLAT_COORDINATES_PARSERS_
  : ParsersNS (JsOpt (list number)) :=
  gmlParsers
    (map (fun name => (name, makeReplacer (stackless readFlatCoordinates)))
       names).

End Parsers.

End Coordinates.

(** ** ol/Sphere: lengths on a sphere

    ol/Sphere.js is not among the sources; only its tests are.  The numbers
    are real numbers here: the rounding of the floating-point operations is
    outside this model. *)

Module Sphere.

Local Open Scope R_scope.

(** Longitude and latitude in degrees, and more components that the
    measures ignore. *)
Definition Coordinate : Type := list R.

Definition lon (c : Coordinate) : R := nth 0 c 0.
Definition lat (c : Coordinate) : R := nth 1 c 0.

Definition toRadians (angleInDegrees : R) : R := angleInDegrees * PI / 180.

(** The angle of the point [(x, y)], in the range from [-PI] to [PI]. *)
Definition atan2 (y x : R) : R :=
  if Rlt_dec 0 x then atan (y / x)
  else if Rlt_dec x 0 then
    (if Rle_dec 0 y then atan (y / x) + PI else atan (y / x) - PI)
  else if Rlt_dec 0 y then PI / 2
  else if Rlt_dec y 0 then - (PI / 2)
  else 0.

(** Modelled from the spec: [haversineDistance] of ol/Sphere.js, which is not
    among the sources: "great-circle distance between two degree-coordinates
    using the haversine formula: a = sin^2(dphi/2) + cos phi1 cos phi2
    sin^2(dlambda/2), d = 2 R atan2(sqrt a, sqrt (1-a))". *)
Definition haversineDistance (radius : R) (c1 c2 : Coordinate) : R :=
  let lat1 := toRadians (lat c1) in
  let lat2 := toRadians (lat c2) in
  let deltaLatBy2 := (lat2 - lat1) / 2 in
  let deltaLonBy2 := toRadians (lon c2 - lon c1) / 2 in
  let a := sin deltaLatBy2 * sin deltaLatBy2
           + sin deltaLonBy2 * sin deltaLonBy2 * cos lat1 * cos lat2 in
  2 * radius * atan2 (sqrt a) (sqrt (1 - a)).

(** The geometries that the description of [getLength] names, with their
    coordinates. *)
Inductive Geometry : Type :=
| Point (coordinates : Coordinate)
| MultiPoint (coordinates : list Coordinate)
| LineString (coordinates : list Coordinate)
| MultiLineString (coordinates : list (list Coordinate))
| GeometryCollection (geometries : list Geometry).

Section Length.

Variable radius : R.

(** The reprojection collaborator: from a projection's coordinates to
    geographic degrees. *)
Variable toGeographic : string -> Coordinate -> Coordinate.

(** The length of one line: the distances between consecutive vertices,
    added up from the first segment on. *)
Fixpoint lineLength (length : R) (coordinates : list Coordinate) : R :=
  match coordinates with
  | c1 :: ((c2 :: _) as rest) =>
      lineLength (length + haversineDistance radius c1 c2) rest
  | _ => length
  end.

(** The projection of the coordinates when the options name none.  The test
    of [getLength] measures a line given in Web-Mercator metres without
    options (lines 226-232) and finds the length of the same line given in
    degrees with the projection EPSG:4326 (lines 234-241): coordinates
    without a projection are Web-Mercator coordinates, not degrees. *)
Definition DEFAULT_PROJECTION : string := "EPSG:3857".

(** "[options.projection], if given and not already geographic, must be used
    to reproject coordinates to geographic degrees before measuring". *)
Definition reproject (projection : option string) (c : Coordinate)
  : Coordinate :=
  let projection :=
    match projection with
    | Some p => p
    | None => DEFAULT_PROJECTION
    end in
  if String.eqb projection "EPSG:4326" then c else toGeographic projection c.

(** Modelled from the spec: [getLength] of ol/Sphere.js, which is not among
    the sources: it "sums haversine distances between consecutive vertices
    of every line-like sub-geometry (LineString segments;
    MultiLineString/GeometryCollection recurse over members;
    Point/MultiPoint contribute 0)". *)
Fixpoint getLength (geometry : Geometry) (projection : option string) : R :=
  match geometry with
  | Point _ => 0
  | MultiPoint _ => 0
  | LineString coordinates =>
      lineLength 0 (map (reproject projection) coordinates)
  | MultiLineString lines =>
      fold_left
        (fun length coordinates =>
           length + lineLength 0 (map (reproject projection) coordinates))
        lines 0
  | GeometryCollection geometries =>
      fold_left
        (fun length member => length + getLength member projection)
        geometries 0
  end.

End Length.

(** The distances between consecutive vertices of a line. *)
Definition segmentLengths (radius : R) (coordinates : list Coordinate)
  : list R :=
  map (fun s => haversineDistance radius (fst s) (snd s))
    (combine coordinates (tl coordinates)).

Definition sum (l : list R) : R := fold_right Rplus 0 l.

End Sphere.

(** ** Notions the statements below are phrased with *)

Module Described.

Import GMLBase.
Local Open Scope string_scope.

(** The cumulative end offsets of rings laid out one after the other from
    [offset] on. *)
Fixpoint ringEnds (number : Type) (offset : nat) (rings : list (list number))
  : list nat :=
  match rings with
  | [] => []
  | ring :: rest =>
      (offset + List.length ring) :: ringEnds (offset + List.length ring) rest
  end.



(** The distinct elements of a list in order of first encounter. *)
Fixpoint firstEncounters (seen : list (option string))
  (uris : list (option string)) : list (option string) :=
  match uris with
  | [] => []
  | u :: rest =>
      if existsb (fun v => optStringEqb v u) seen then
        firstEncounters seen rest
      else u :: firstEncounters (u :: seen) rest
  end.

(** The synthetic prefixes [p0], [p1], ... *)
Definition syntheticPrefix (i : nat) : string := "p" ++ JsString.ofNat i.

Definition syntheticPrefixes (n : nat) : list string :=
  map syntheticPrefix (seq 0 n).

(** The feature type that the discovery records for a child: the prefix
    that [namespaces] gives to the child's namespace URI, a colon, and the
    part of the child's qualified name after its last colon. *)
Definition qualifiedName (prefix : string) (child : Node) : string :=
  prefix ++ ":"
  ++ JsString.pop (JsString.split JsString.colon (nodeName child)).

Definition qualifiedBy (namespaces : JsObject.t (option string))
  (child : Node) (recorded : string) : Prop :=
  exists prefix : string,
    In (prefix, namespaceURI child) namespaces
    /\ recorded = qualifiedName prefix child.

(** The state of the discovery loop: every recorded type is qualified, and
    the keys of the namespaces are the synthetic prefixes in order. *)
Definition qualified (types : list string) : Prop :=
  Forall (fun t => JsString.contains JsString.colon t = true) types.

Definition prefixed (ns : JsObject.t (option string)) : Prop :=
  JsObject.keys ns = syntheticPrefixes (List.length ns).

(** A complex child of a feature element: one that is not read as text. *)
Definition isComplex (n : Node) : bool := negb (isAttributeElement n).

(** The complex children that may name the feature's geometry. *)
Definition isCandidate (n : Node) : bool :=
  isComplex n && negb (localName n =? "boundedBy").

Definition candidateNames (children : list Node) : list (option string) :=
  map (fun n => Some (localName n)) (filter isCandidate children).

(** The description's reading: the first candidate names the geometry. *)
Definition firstCandidateName (node : Node) : option string :=
  hd None (candidateNames (elementChildren node)).

(** The source's reading: every candidate overwrites the name. *)
Definition lastCandidateName (node : Node) : option string :=
  last (candidateNames (elementChildren node)) None.

(** Every element of the tree has a name: the local name of an element of a
    well-formed document is not empty. *)
Definition namedChildren (node : Node) : Prop :=
  Forall (fun n => localName n <> EmptyString) (elementChildren node).

(** The layout that the description of the coordinate decoders asks for:
    "XY or XYZ based on dimensionality found". *)
Definition layoutForDimension (srsDimension : option string)
  : GeometryLayout :=
  match srsDimension with
  | Some d => if d =? "2" then XY else XYZ
  | None => XYZ
  end.

Definition layoutOf (number : Type) (g : Geometry number)
  : option GeometryLayout :=
  match g with
  | Point l _ | LineString l _ | LinearRing l _ | Polygon l _ _ => Some l
  | _ => None
  end.

End Described.

(** ** Notions for the dispatch and for the collections *)

Module Dispatch.

Import Xml GMLBase.
Local Open Scope gml_scope.
Local Open Scope string_scope.

(** The parser that the tables give to an element, if they give one. *)
Definition dispatched (T : Type) (parsersNS : ParsersNS T) (n : Node)
  : option (Parser T) :=
  match JsObject.get parsersNS (keyOf (namespaceURI n)) with
  | Some parsers => JsObject.get parsers (localName n)
  | None => None
  end.

(** No element child of the node is given a parser. *)
Definition unmatched (T : Type) (parsersNS : ParsersNS T) (node : Node)
  : Prop :=
  forall n, In n (elementChildren node) -> dispatched parsersNS n = None.

(** An element of the GML namespace with one of the given local names. *)
Definition isGmlElement (names : list string) (n : Node) : bool :=
  optStringEqb (namespaceURI n) (Some GMLNS)
  && JsString.includes (localName n) names.

(** The elements named [inner] inside the member elements of a collection,
    in document order. *)
Definition memberElements (members : list string) (inner : string)
  (node : Node) : list Node :=
  flat_map (fun member => filter (isGmlElement [inner]) (elementChildren member))
    (filter (isGmlElement members) (elementChildren node)).

(** The last element child of the GML namespace with one of the given local
    names, if there is one: the child whose value a table of replacers
    leaves on the stack. *)
Definition lastGmlElement (names : list string) (node : Node) : option Node :=
  fold_left (fun found n => if isGmlElement names n then Some n else found)
    (elementChildren node) None.

(** Reading the nodes one after the other and keeping what is read. *)
Fixpoint collect (E : Type) (read : Node -> M (option E)) (nodes : list Node)
  (array : list E) : M (list E) :=
  match nodes with
  | [] => ret array
  | n :: rest =>
      value <- read n ;;
      collect read rest
        (match value with
         | Some e => List.app array [e]
         | None => array
         end)
  end.

(** The rings that the ends cut out of the flat coordinates: ring [i] runs
    from the end of ring [i - 1] to its own end. *)
Fixpoint ringsOf (A : Type) (flatCoordinates : list A) (start : nat)
  (ends : list nat) : list (list A) :=
  match ends with
  | [] => []
  | e :: rest =>
      firstn (e - start) (skipn start flatCoordinates)
      :: ringsOf flatCoordinates e rest
  end.

(** The distinct names of a list in order of first encounter. *)
Fixpoint firstNames (seen : list string) (names : list string)
  : list string :=
  match names with
  | [] => []
  | k :: rest =>
      if JsString.includes k seen then firstNames seen rest
      else k :: firstNames (k :: seen) rest
  end.

(** The text value that [readFeatureElement] stores for an attribute
    element. *)
Definition textValue (number : Type) (n : Node) : PropertyValue number :=
  if ONLY_WHITESPACE_RE_test (getAllTextContent n) then PUndefined
  else PText (getAllTextContent n).

(** The prefix of a feature type: the part before its first colon, or the
    default prefix p0 when it has no colon. *)
Definition typePrefix (ft : string) : string :=
  if negb (JsString.contains JsString.colon ft) then "p0"
  else JsString.first (JsString.split JsString.colon ft).

(** The name of a feature type: the part after its last colon. *)
Definition typeName (ft : string) : string :=
  JsString.pop (JsString.split JsString.colon ft).

(** The feature types declare the name [k] under the prefix [p]. *)
Definition declares (types : list string) (p k : string) : bool :=
  existsb (fun ft => (typePrefix ft =? p) && (typeName ft =? k)) types.

(** The prefix whose parsers are found under [key]: the last prefix of the
    object whose URI is looked up as [key]. *)
Fixpoint prefixOfKey (featureNS : JsObject.t (option string)) (key : string)
  : option string :=
  match featureNS with
  | [] => None
  | (p, u) :: rest =>
      match prefixOfKey rest key with
      | Some q => Some q
      | None => if keyOf u =? key then Some p else None
      end
  end.

(** An element as a parser builds it: the local name is the part of the
    qualified name after the colon; and its namespace URI is not the string
    that [null] is looked up as. *)
Definition wellNamed (n : Node) : Prop :=
  localName n = typeName (nodeName n) /\ namespaceURI n <> Some "null".

(** A child of a feature element that is taken for a geometry and has no
    element child. *)
Definition lacksElement (n : Node) : Prop :=
  isAttributeElement n = false /\ firstElementChild n = None.

(** What the array pusher of POINTMEMBER_PARSERS_ reads for a Point. *)
Definition readPointCoordinates (number : Type)
  (GEOMETRY_FLAT_COORDINATES_PARSERS_ : ParsersNS (JsOpt (list number)))
  (p : Node) : M (option (JsOpt (list number))) :=
  v <- readFlatCoordinatesFromNode_ GEOMETRY_FLAT_COORDINATES_PARSERS_ p ;;
  ret (pushable v).

(** The feature types and namespaces of a parse context, and its reference
    system. *)
Definition typesOf (c : Context) : FeatureType * FeatureNS :=
  (featureType c, featureNS c).

Definition srsOf (c : Context) : option string * option string :=
  (srsName c, srsDimension c).

(** A computation that, when it returns, leaves a part of the parse context
    as it has found it. *)
Definition keeps (X : Type) (part : Context -> X) (A : Type) (m : M A)
  : Prop :=
  forall c a c', m c = Ok a c' -> part c' = part c.

(** No parser of the tables writes the part of the parse context. *)
Definition tablesKeep (X : Type) (part : Context -> X) (T : Type)
  (parsersNS : ParsersNS T) : Prop :=
  forall n parser top,
    dispatched parsersNS n = Some parser -> keeps part (parser n top).

(** A child of a container that the feature types declare: its namespace
    URI is the URI of a prefix of the namespaces, and the types hold its
    local name under that prefix. *)
Definition declared (featureNS : JsObject.t (option string))
  (types : list string) (n : Node) : bool :=
  match prefixOfKey featureNS (keyOf (namespaceURI n)) with
  | Some p => declares types p (localName n)
  | None => false
  end.

(** What a container gives when each of its element children is decoded as
    a feature: for 'featureMember' the feature of the last child, or
    [undefined] without element children; for 'featureMembers' an array
    with one feature per element child. *)
Definition oneFeaturePerChild (number : Type) (node : Node)
  (r : JsOpt (Features number)) : Prop :=
  if localName node =? "featureMember" then
    match elementChildren node with
    | [] => r = Undefined
    | _ :: _ => exists f, r = Defined (SingleFeature f)
    end
  else
    exists features,
      r = Defined (FeatureArray features)
      /\ List.length features = List.length (elementChildren node).

(** What a container gives when none of its element children is decoded. *)
Definition noFeature (number : Type) (node : Node) : JsOpt (Features number) :=
  if localName node =? "featureMember" then Undefined
  else Defined (FeatureArray []).

End Dispatch.

(** ** More elements for the examples *)

Module Sample.

Import GMLBase Example.
Local Open Scope string_scope.

(** A Point without content. *)
Definition emptyPoint : Node := gml "Point" [] [].

(** A versioned format whose coordinate parser leaves the flat coordinates
    [flat] for a pos element, whatever they are, and whose geometry parsers
    know the Point. *)
Definition coordinatesAre (flat : list nat) : Xml.ParsersNS (JsOpt (list nat)) :=
  gmlParsers
    [("pos",
      Xml.makeReplacer (Xml.stackless (fun _ => ret (Defined flat))))].

Definition pointParsers (flat : list nat)
  : Xml.ParsersNS (JsOpt (Geometry nat)) :=
  gmlParsers
    [("Point", Example.geometryReplacer (readPoint (coordinatesAre flat)))].

(** A MultiPoint with a point, a point without content under the plural
    spelling, and a child that is no member. *)
Definition multiPoint : Node :=
  gml "MultiPoint" []
    [gml "pointMember" [] [gml "Point" [] [gml "pos" [] [Text "1 2"]]];
     el "app" "note" "http://example.org/app" [Text "ignored"];
     gml "pointMembers" [] [emptyPoint; gml "Point" [] [gml "pos" [] [Text "3 4"]]]].

(** A MultiPoint whose points have no content. *)
Definition emptyMultiPoint : Node :=
  gml "MultiPoint" []
    [gml "pointMember" [] [emptyPoint];
     gml "pointMembers" [] [emptyPoint; emptyPoint]].

(** A MultiLineString with two lines and a line without content. *)
Definition multiLineString : Node :=
  gml "MultiLineString" []
    [gml "lineStringMember" []
       [gml "LineString" [] [gml "posList" [] [Text "0 0 1 1"]]];
     gml "lineStringMember" [] [gml "LineString" [] []];
     gml "lineStringMembers" []
       [gml "LineString" [] [gml "posList" [] [Text "2 2 3 3"]]]].

(** A MultiPolygon with one polygon. *)
Definition multiPolygon : Node :=
  gml "MultiPolygon" [] [gml "polygonMember" [] [polygonWithHole]].

(** A property whose content is an element that is no known geometry. *)
Definition unknownGeometry : Node :=
  el "app" "shape" "http://example.org/app"
    [Element "app:Circle" "Circle" (Some "http://example.org/app")
       [mkAttr None "srsName" "srsName" "EPSG:4326"] []].

(** A feature of text properties, one of them repeated and one of them
    blank, with an empty fid and an identifier of the GML namespace. *)
Definition featureOfText : Node :=
  Element "app:road" "road" (Some "http://example.org/app")
    [mkAttr None "fid" "fid" EmptyString;
     mkAttr (Some GMLNS) "gml:id" "id" "r1"]
    [el "app" "name" "http://example.org/app" [Text "A1"];
     el "app" "lanes" "http://example.org/app" [Text "2"];
     el "app" "note" "http://example.org/app" [Text "  "];
     el "app" "name" "http://example.org/app" [CDATASection "A1 north"]].

(** A collection with two containers. *)
Definition twoContainers : Node :=
  gml "FeatureCollection" []
    [gml "featureMembers" []
       [el "a" "road" "http://example.org/a" [];
        el "a" "road" "http://example.org/a" []];
     gml "featureMembers" [] [el "a" "road" "http://example.org/a" []]].

(** A collection whose last container is a 'featureMember' without
    children. *)
Definition emptyLastContainer : Node :=
  gml "FeatureCollection" []
    [gml "featureMembers" []
       [el "a" "road" "http://example.org/a" [];
        el "a" "road" "http://example.org/a" []];
     gml "featureMember" [] []].

(** A collection without containers. *)
Definition noContainers : Node :=
  gml "FeatureCollection" []
    [gml "boundedBy" [] []; el "a" "road" "http://example.org/a" []].

End Sample.

(** * Properties *)

(** ** The polygon decoder *)

Module PolygonFacts.

Import Xml GMLBase Described.

Section Rings.

Variable number : Type.

Lemma extend_app (arr data : list number) : extend arr data = arr ++ data.
Proof.
  unfold extend. revert arr.
  induction data as [|x data IH]; intros arr; simpl.
  - now rewrite app_nil_r.
  - rewrite IH, <- app_assoc. reflexivity.
Qed.

Lemma extendRings_eq (rings : list (list number)) :
  forall flatCoordinates ends,
    extendRings flatCoordinates ends rings
    = (flatCoordinates ++ List.concat rings,
       ends ++ ringEnds (List.length flatCoordinates) rings).
Proof.
  induction rings as [|ring rest IH]; intros fc ends; simpl.
  - now rewrite !app_nil_r.
  - rewrite IH, extend_app, length_app, <- !app_assoc. reflexivity.
Qed.

Lemma ringEnds_length (rings : list (list number)) :
  forall offset, List.length (ringEnds offset rings) = List.length rings.
Proof.
  induction rings as [|ring rest IH]; intros offset; simpl; auto.
Qed.

Lemma ringEnds_nth (rings : list (list number)) :
  forall offset i, i < List.length rings ->
    nth i (ringEnds offset rings) 0
    = offset + List.length (List.concat (firstn (S i) rings)).
Proof.
  induction rings as [|ring rest IH]; intros offset i Hi; simpl in Hi.
  - lia.
  - destruct i as [|i].
    + simpl. rewrite app_nil_r. reflexivity.
    + cbn [ringEnds nth]. rewrite IH by lia.
      change (firstn (S (S i)) (ring :: rest))
        with (ring :: firstn (S i) rest).
      cbn [List.concat]. rewrite length_app. lia.
Qed.







(** The polygon built from a popped frame whose slot 0 holds a ring. *)
Lemma polygonOfRings_defined (exterior : list number)
  (interiors : list (list number)) :
  polygonOfRings (mkFlatLinearRings (Defined exterior) interiors)
  = Some (Polygon XYZ (List.concat (exterior :: interiors))
            (ringEnds 0 (exterior :: interiors))).
Proof.
  unfold polygonOfRings. simpl. rewrite extendRings_eq. reflexivity.
Qed.

Lemma polygonOfRings_none (rings : FlatLinearRings number) :
  polygonOfRings rings = None <-> truthy (slot0 rings) = false.
Proof.
  unfold polygonOfRings. destruct (slot0 rings); simpl; try tauto.
  destruct (extendRings _ _ _). split; discriminate.
Qed.

End Rings.

Section ReadPolygon.

Variable number : Type.
Variable FLAT_LINEAR_RINGS_PARSERS_ : ParsersNS (FlatLinearRings number).

Lemma readPolygon_run (node : Node) (c : Context) :
  readPolygon FLAT_LINEAR_RINGS_PARSERS_ node c
  = match pushParseAndPop (mkFlatLinearRings Null [])
            FLAT_LINEAR_RINGS_PARSERS_ node c with
    | Ok rings c' => Ok (polygonOfRings rings) c'
    | Throw e => Throw e
    end.
Proof. reflexivity. Qed.

(** C5.  Whatever frame the ring parsers leave, [readPolygon] returns
    [undefined] exactly when slot 0 holds no exterior ring.  Otherwise it
    returns a polygon of layout XYZ whose flat coordinates are the rings'
    flat coordinates concatenated in order, the exterior ring first, and
    whose ends hold one cumulative end offset per ring; with one interior
    ring the ends are two, and the second is the number of flat
    coordinates. *)
Theorem readPolygon_concatenates_rings (node : Node) (c c' : Context)
  (rings : FlatLinearRings number) :
  pushParseAndPop (mkFlatLinearRings Null []) FLAT_LINEAR_RINGS_PARSERS_
    node c = Ok rings c' ->
  (readPolygon FLAT_LINEAR_RINGS_PARSERS_ node c = Ok None c'
   <-> truthy (slot0 rings) = false)
  /\ (forall exterior, slot0 rings = Defined exterior ->
      let all := exterior :: slotsFrom1 rings in
      exists ends,
        readPolygon FLAT_LINEAR_RINGS_PARSERS_ node c
        = Ok (Some (Polygon XYZ (List.concat all) ends)) c'
        /\ List.length ends = List.length all
        /\ (forall i, i < List.length all ->
              nth i ends 0 = List.length (List.concat (firstn (S i) all)))
        /\ (forall interior, slotsFrom1 rings = [interior] ->
              ends = [List.length exterior; List.length (List.concat all)])).
Proof.
  intros Hparse. rewrite readPolygon_run, Hparse. split.
  - rewrite <- polygonOfRings_none. split; [congruence | intros ->; auto].
  - intros exterior Hext all.
    destruct rings as [s0 interiors]. simpl in Hext, all. subst s0.
    exists (ringEnds 0 all). rewrite polygonOfRings_defined.
    repeat split.
    + apply ringEnds_length.
    + intros i Hi. now rewrite ringEnds_nth.
    + intros interior Hint. simpl in Hint. subst all interiors. simpl.
      rewrite app_nil_r, length_app. reflexivity.
Qed.


End ReadPolygon.

Lemma readPolygon_concatenates_rings_witness :
  readPolygon Example.FLAT_LINEAR_RINGS_PARSERS_ Example.polygonWithHole
    Example.noContext
  = Ok (Some (Polygon XYZ
                [0; 0; 9; 0; 9; 9; 0; 9; 0; 0; 1; 1; 2; 1; 2; 2; 1; 1]
                [10; 18]))
      Example.noContext.
Proof.
  assert (Hparse :
    pushParseAndPop (mkFlatLinearRings Null [])
      Example.FLAT_LINEAR_RINGS_PARSERS_ Example.polygonWithHole
      Example.noContext
    = Ok (mkFlatLinearRings (Defined [0; 0; 9; 0; 9; 9; 0; 9; 0; 0])
            [[1; 1; 2; 1; 2; 2; 1; 1]])
        Example.noContext) by (vm_compute; reflexivity).
  destruct (@readPolygon_concatenates_rings _ _ _ _ _ _ Hparse) as [_ H].
  destruct (H _ eq_refl) as (ends & Hread & _ & _ & Hends).
  rewrite (Hends _ eq_refl) in Hread. exact Hread.
Defined.


End PolygonFacts.

(** ** Objects used as maps *)

Module ObjectFacts.

Local Open Scope string_scope.

Section Objects.

Variable V : Type.

Lemma get_set_same (o : JsObject.t V) (k : string) (v : V) :
  JsObject.get (JsObject.set o k v) k = Some v.
Proof.
  induction o as [|[k0 w] o IH]; cbn.
  - now rewrite String.eqb_refl.
  - destruct (k0 =? k) eqn:E; cbn; rewrite E; [reflexivity | exact IH].
Qed.

Lemma get_set_other (o : JsObject.t V) (k k' : string) (v : V) :
  k' <> k -> JsObject.get (JsObject.set o k v) k' = JsObject.get o k'.
Proof.
  intros Hne. induction o as [|[k0 w] o IH]; cbn.
  - apply String.eqb_neq in Hne. rewrite String.eqb_sym. now rewrite Hne.
  - destruct (k0 =? k) eqn:E; cbn.
    + apply String.eqb_eq in E. subst k0.
      destruct (k =? k') eqn:E'; [|reflexivity].
      apply String.eqb_eq in E'. congruence.
    + destruct (k0 =? k'); [reflexivity | exact IH].
Qed.

Lemma keys_set (o : JsObject.t V) (k : string) (v : V) :
  JsObject.keys (JsObject.set o k v)
  = if JsString.includes k (JsObject.keys o) then JsObject.keys o
    else (JsObject.keys o ++ [k])%list.
Proof.
  unfold JsObject.keys, JsString.includes.
  induction o as [|[k0 w] o IH]; cbn; [reflexivity|].
  rewrite (String.eqb_sym k k0).
  destruct (k0 =? k); cbn; [reflexivity|].
  rewrite IH. destruct (existsb (String.eqb k) (map fst o)); reflexivity.
Qed.

Lemma get_in_keys (o : JsObject.t V) (k : string) :
  JsObject.get o k <> None <-> In k (JsObject.keys o).
Proof.
  unfold JsObject.keys. induction o as [|[k0 w] o IH]; cbn.
  - tauto.
  - destruct (k0 =? k) eqn:E.
    + apply String.eqb_eq in E. split; [auto | discriminate].
    + apply String.eqb_neq in E. rewrite IH. tauto.
Qed.

End Objects.

Lemma includes_In (k : string) (l : list string) :
  JsString.includes k l = true <-> In k l.
Proof.
  unfold JsString.includes. rewrite existsb_exists. split.
  - intros (x & Hx & E). apply String.eqb_eq in E. now subst.
  - intros H. exists k. split; [exact H | apply String.eqb_refl].
Qed.

End ObjectFacts.

(** ** The feature decoder *)

Module FeatureFacts.

Import Xml GMLBase Described.
Local Open Scope string_scope.

Lemma last_cons_default (A : Type) (l : list A) (x d : A) :
  last (x :: l) d = last l x.
Proof.
  revert x d. induction l as [|y l IH]; intros x d; [reflexivity|].
  change (last (x :: y :: l) d) with (last (y :: l) d).
  now rewrite (IH y d), (IH y x).
Qed.

Lemma filter_none (A : Type) (f : A -> bool) (l : list A) :
  (forall x, In x l -> f x = false) -> filter f l = [].
Proof.
  induction l as [|x l IH]; intros H; [reflexivity|].
  simpl. rewrite (H x (or_introl eq_refl)).
  apply IH. intros y Hy. apply H. now right.
Qed.

Lemma set_keeps_keys (V : Type) (o : JsObject.t V) (key k : string) (v : V) :
  In k (JsObject.keys o) -> In k (JsObject.keys (JsObject.set o key v)).
Proof.
  unfold JsObject.keys.
  induction o as [|[k0 w] o IH]; simpl; [tauto|].
  destruct (String.eqb k0 key); simpl; tauto.
Qed.

Lemma set_adds_key (V : Type) (o : JsObject.t V) (key : string) (v : V) :
  In key (JsObject.keys (JsObject.set o key v)).
Proof.
  unfold JsObject.keys.
  induction o as [|[k0 w] o IH]; simpl; [tauto|].
  destruct (String.eqb k0 key) eqn:E; simpl; [|tauto].
  left. now apply String.eqb_eq.
Qed.

Section ReadFeature.

Variable number : Type.
Variable GEOMETRY_PARSERS_ : ParsersNS (JsOpt (Geometry number)).
Variable transformWithOptions :
  Geometry number -> Context -> Geometry number.

Local Notation "'readChildren'" :=
  (readFeatureChildren GEOMETRY_PARSERS_ transformWithOptions).
Local Notation "'readGeometry'" :=
  (readGeometryElement GEOMETRY_PARSERS_ transformWithOptions).
Local Notation "'readFeature'" :=
  (readFeatureElement GEOMETRY_PARSERS_ transformWithOptions).

(** The loop leaves the name of the last candidate it has met. *)
Lemma readFeatureChildren_geometryName (children : list Node) :
  forall values name c values' name' c',
    readChildren children values name c = Ok (values', name') c' ->
    name' = last (candidateNames children) name.
Proof.
  induction children as [|n rest IH]; intros values name c values' name' c' H.
  - cbn in H. injection H as _ <- _. reflexivity.
  - cbn [readFeatureChildren] in H. unfold candidateNames, isCandidate.
    cbn [filter]. unfold isComplex.
    destruct (isAttributeElement n) eqn:Ha; cbn [negb andb].
    + exact (IH _ _ _ _ _ _ H).
    + unfold bind in H.
      destruct (readGeometry n c) as [g c1|e]; [|discriminate].
      apply IH in H. rewrite H.
      destruct (negb (localName n =? "boundedBy")); [|reflexivity].
      cbn [map]. fold (candidateNames rest).
      symmetry. apply last_cons_default.
Qed.

(** Every child leaves a property under its local name. *)
Lemma readFeatureChildren_keys (children : list Node) :
  forall values name c values' name' c',
    readChildren children values name c = Ok (values', name') c' ->
    (forall k, In k (JsObject.keys values) -> In k (JsObject.keys values'))
    /\ (forall n, In n children -> In (localName n) (JsObject.keys values')).
Proof.
  induction children as [|n rest IH]; intros values name c values' name' c' H.
  - cbn in H. injection H as <- _ _. split; [tauto | intros ? []].
  - cbn [readFeatureChildren] in H.
    destruct (isAttributeElement n).
    + apply IH in H. destruct H as [Hkeep Hnew]. split.
      * intros k Hk. apply Hkeep. now apply set_keeps_keys.
      * intros m [<-|Hm]; [apply Hkeep, set_adds_key | now apply Hnew].
    + unfold bind in H.
      destruct (readGeometry n c) as [g c1|e]; [|discriminate].
      apply IH in H. destruct H as [Hkeep Hnew]. split.
      * intros k Hk. apply Hkeep. now apply set_keeps_keys.
      * intros m [<-|Hm]; [apply Hkeep, set_adds_key | now apply Hnew].
Qed.

Lemma candidateNames_named (children : list Node) :
  Forall (fun n => localName n <> EmptyString) children ->
  forall d, truthyString d = d ->
    truthyString (last (candidateNames children) d)
    = last (candidateNames children) d.
Proof.
  intros Hnamed d Hd.
  assert (Hall : Forall (fun o => truthyString o = o)
                   (candidateNames children)).
  { unfold candidateNames. induction Hnamed as [|n rest Hn _ IH]; simpl.
    - constructor.
    - destruct (isCandidate n); [|exact IH]. constructor; [|exact IH].
      simpl. destruct (localName n); [congruence | reflexivity]. }
  revert d Hd. induction Hall as [|o l Ho _ IH]; intros d Hd; [exact Hd|].
  rewrite last_cons_default. now apply IH.
Qed.

Lemma candidateNames_not_boundedBy (children : list Node) :
  Forall (fun o => o <> Some "boundedBy") (candidateNames children).
Proof.
  unfold candidateNames, isCandidate.
  induction children as [|n rest IH]; simpl; [constructor|].
  destruct (isComplex n); simpl; [|exact IH].
  destruct (localName n =? "boundedBy") eqn:E; simpl; [exact IH|].
  constructor; [|exact IH].
  intros H. injection H as H. apply String.eqb_neq in E. contradiction.
Qed.

Lemma last_Forall (A : Type) (P : A -> Prop) (l : list A) :
  Forall P l -> forall d, P d -> P (last l d).
Proof.
  induction 1 as [|x l Hx _ IH]; intros d Hd; [exact Hd|].
  rewrite last_cons_default. now apply IH.
Qed.

Lemma readFeatureChildren_app (a b : list Node) :
  forall values name c,
    readChildren (a ++ b) values name c
    = match readChildren a values name c with
      | Ok (values', name') c' => readChildren b values' name' c'
      | Throw e => Throw e
      end.
Proof.
  induction a as [|n a IH]; intros values name c; [reflexivity|].
  cbn [app readFeatureChildren].
  destruct (isAttributeElement n); [apply IH|].
  unfold bind. destruct (readGeometry n c) as [g c1|e]; [apply IH|reflexivity].
Qed.

Lemma readFeatureChildren_get_other (children : list Node) (k : string) :
  Forall (fun m => localName m <> k) children ->
  forall values name c values' name' c',
    readChildren children values name c = Ok (values', name') c' ->
    JsObject.get values' k = JsObject.get values k.
Proof.
  induction 1 as [|n rest Hn _ IH]; intros values name c values' name' c' H.
  - cbn in H. now injection H as <- _ _.
  - cbn [readFeatureChildren] in H.
    destruct (isAttributeElement n).
    + apply IH in H. rewrite H. apply ObjectFacts.get_set_other. congruence.
    + unfold bind in H.
      destruct (readGeometry n c) as [g c1|e]; [|discriminate].
      apply IH in H. rewrite H. apply ObjectFacts.get_set_other. congruence.
Qed.

(** C4, amended.  The designated-geometry name of the feature that
    [readFeatureElement] returns is the local name of the last complex child
    whose local name is not boundedBy.  It is never boundedBy, although the
    content of such a child is decoded and stored as a property value like
    that of every complex child: the value found under the local name of a
    complex child is what [readGeometryElement] returns for it, in the
    context that the children before it have left, unless a later child of
    the same name overwrites it.  A feature whose only complex children are
    named boundedBy has no designated geometry. *)
Theorem readFeatureElement_geometryName (node : Node) (c c' : Context)
  (feature : Feature number) :
  readFeature node c = Ok feature c' ->
  namedChildren node ->
  featureGeometryName feature = lastCandidateName node
  /\ featureGeometryName feature <> Some "boundedBy"
  /\ (forall n, In n (elementChildren node) ->
        In (localName n) (JsObject.keys (featureValues feature)))
  /\ (forall before n after,
        elementChildren node = (before ++ n :: after)%list ->
        isComplex n = true ->
        Forall (fun m => localName m <> localName n) after ->
        exists values1 name1 c1 geometry c2,
          readChildren before [] None c = Ok (values1, name1) c1
          /\ readGeometry n c1 = Ok geometry c2
          /\ JsObject.get (featureValues feature) (localName n)
             = Some (ofGeometry geometry))
  /\ ((forall n, In n (elementChildren node) -> isComplex n = true ->
         localName n = "boundedBy") ->
      featureGeometryName feature = None).
Proof.
  unfold readFeatureElement, bind. intros H Hnamed.
  destruct (readChildren (elementChildren node) [] None c)
    as [[values name] c1|e] eqn:Hloop; [|discriminate].
  injection H as <- _.
  pose proof (readFeatureChildren_geometryName _ _ _ _ Hloop) as Hname.
  pose proof (readFeatureChildren_keys _ _ _ _ Hloop) as [_ Hkeys].
  subst name. cbn [featureGeometryName featureValues].
  rewrite (@candidateNames_named _ Hnamed None eq_refl).
  fold (lastCandidateName node).
  assert (Hnb : lastCandidateName node <> Some "boundedBy").
  { unfold lastCandidateName.
    apply (last_Forall (candidateNames_not_boundedBy _)). discriminate. }
  split; [reflexivity|]. split; [exact Hnb|]. split; [exact Hkeys|].
  split.
  - intros before n after Hsplit Hn Hafter.
    rewrite Hsplit, readFeatureChildren_app in Hloop.
    destruct (readChildren before [] None c) as [[values1 name1] c2|e]
      eqn:Hbefore; [|discriminate].
    cbn [readFeatureChildren] in Hloop. unfold isComplex in Hn.
    apply negb_true_iff in Hn. rewrite Hn in Hloop. unfold bind in Hloop.
    destruct (readGeometry n c2) as [geometry c3|e] eqn:Hg; [|discriminate].
    exists values1, name1, c2, geometry, c3.
    split; [reflexivity|]. split; [exact Hg|].
    rewrite (readFeatureChildren_get_other Hafter _ _ _ Hloop).
    apply ObjectFacts.get_set_same.
  - intros Honly. unfold lastCandidateName, candidateNames.
    replace (filter isCandidate (elementChildren node)) with (@nil Node);
      [reflexivity|].
    symmetry. apply filter_none. intros n Hn. unfold isCandidate.
    destruct (isComplex n) eqn:Hc; [|reflexivity].
    rewrite (Honly n Hn Hc). reflexivity.
Qed.

End ReadFeature.

Lemma readFeatureElement_geometryName_witness :
  exists feature : Feature nat,
    Example.decodeFeatureElement Example.featureWithTwoGeometries
      Example.noContext = Ok feature Example.noContext
    /\ featureGeometryName feature
       = lastCandidateName Example.featureWithTwoGeometries
    /\ lastCandidateName Example.featureWithTwoGeometries = Some "end"
    /\ JsObject.get (featureValues feature) "boundedBy"
       = Some (PGeometry (Point XYZ [0; 0]))
    /\ JsObject.get (featureValues feature) "end"
       = Some (PGeometry (Point XYZ [3; 4])).
Proof.
  destruct (Example.decodeFeatureElement Example.featureWithTwoGeometries
              Example.noContext) as [feature c'|e] eqn:Hread;
    [|vm_compute in Hread; discriminate].
  assert (Hc : c' = Example.noContext)
    by (vm_compute in Hread; now injection Hread).
  subst c'. exists feature. split; [reflexivity|].
  destruct (@readFeatureElement_geometryName nat
              Example.GEOMETRY_PARSERS_ Example.transformWithOptions
              Example.featureWithTwoGeometries Example.noContext
              Example.noContext feature Hread)
    as (Hname & _ & _ & Hvalue & _).
  { unfold namedChildren. simpl. repeat constructor; discriminate. }
  split; [exact Hname|]. split; [reflexivity|]. split.
  - destruct (Hvalue
                [Example.el "app" "name" "http://example.org/app"
                   [Text "A1"]]
                (Example.gml "boundedBy" []
                   [Example.gml "Point" []
                      [Example.gml "pos" [] [Text "0 0"]]])
                [Example.el "app" "start" "http://example.org/app"
                   [Example.gml "Point" []
                      [Example.gml "pos" [] [Text "1 2"]]];
                 Example.el "app" "end" "http://example.org/app"
                   [Example.gml "Point" []
                      [Example.gml "pos" [] [Text "3 4"]]]]
                eq_refl eq_refl)
      as (values1 & name1 & c1 & geometry & c2 & Hbefore & Hg & Hget).
    { repeat constructor; discriminate. }
    vm_compute in Hbefore. injection Hbefore as _ _ <-.
    vm_compute in Hg. injection Hg as <- _. exact Hget.
  - destruct (Hvalue
                [Example.el "app" "name" "http://example.org/app"
                   [Text "A1"];
                 Example.gml "boundedBy" []
                   [Example.gml "Point" []
                      [Example.gml "pos" [] [Text "0 0"]]];
                 Example.el "app" "start" "http://example.org/app"
                   [Example.gml "Point" []
                      [Example.gml "pos" [] [Text "1 2"]]]]
                (Example.el "app" "end" "http://example.org/app"
                   [Example.gml "Point" []
                      [Example.gml "pos" [] [Text "3 4"]]])
                [] eq_refl eq_refl (Forall_nil _))
      as (values1 & name1 & c1 & geometry & c2 & Hbefore & Hg & Hget).
    vm_compute in Hbefore. injection Hbefore as _ _ <-.
    vm_compute in Hg. injection Hg as <- _. exact Hget.
Defined.

(** C4 as stated fails on a feature with two geometries: the name is the
    one of the last complex child, not of the first. *)
Lemma geometryName_is_not_the_first :
  exists feature : Feature nat,
    Example.decodeFeatureElement Example.featureWithTwoGeometries
      Example.noContext = Ok feature Example.noContext
    /\ firstCandidateName Example.featureWithTwoGeometries = Some "start"
    /\ featureGeometryName feature = Some "end"
    /\ featureGeometryName feature
       <> firstCandidateName Example.featureWithTwoGeometries.
Proof.
  eexists. split; [vm_compute; reflexivity|].
  repeat split. discriminate.
Qed.

(** C1.  The decoders throw on well-formed input: a property element whose
    only child node is a comment is taken for a geometry, and
    [readGeometryElement] reads an attribute of its first element child,
    which is [null].  The exception aborts [readFeatureElement] and, for a
    document that holds such a feature, [readFeaturesFromNode], whatever
    the tables of the versioned format are. *)
Theorem readFeatureElement_throws_on_comment (number : Type)
  (GEOMETRY_PARSERS_ : ParsersNS (JsOpt (Geometry number)))
  (transformWithOptions : Geometry number -> Context -> Geometry number)
  (c : Context) :
  readFeatureElement GEOMETRY_PARSERS_ transformWithOptions
    Example.featureWithComment c = Throw TypeError
  /\ readFeaturesFromNode GEOMETRY_PARSERS_ transformWithOptions
       FTUndefined NSUndefined
       (Example.gml "featureMembers" [] [Example.featureWithComment])
     = Throw TypeError.
Proof.
  split; reflexivity.
Qed.

(** C10.  [readFeaturesFromNode] does not return an array for every node:
    for the singular container with a matching child, the replacer leaves
    the feature itself on the stack, [readFeaturesInternal] returns it, and
    [features || []] keeps it, also through a FeatureCollection. *)
Theorem readFeaturesFromNode_returns_a_feature (number : Type)
  (GEOMETRY_PARSERS_ : ParsersNS (JsOpt (Geometry number)))
  (transformWithOptions : Geometry number -> Context -> Geometry number) :
  readFeaturesFromNode GEOMETRY_PARSERS_ transformWithOptions
    FTUndefined NSUndefined Example.oneMember
  = Ok (SingleFeature (mkFeature [] None None))
      (initialContext FTUndefined NSUndefined)
  /\ readFeaturesFromNode GEOMETRY_PARSERS_ transformWithOptions
       FTUndefined NSUndefined
       (Example.gml "FeatureCollection" [] [Example.oneMember])
     = Ok (SingleFeature (mkFeature [] None None))
         (initialContext FTUndefined NSUndefined).
Proof.
  split; reflexivity.
Qed.

End FeatureFacts.

(** ** The auto-discovery of feature types *)

Module DiscoveryFacts.

Import Xml GMLBase Described.
Local Open Scope string_scope.

Lemma syntheticPrefix_inj (i j : nat) :
  syntheticPrefix i = syntheticPrefix j -> i = j.
Proof.
  unfold syntheticPrefix, JsString.ofNat. simpl. intros H. injection H as H.
  apply Unsigned.to_uint_inj.
  pose proof (NilEmpty.usu (Nat.to_uint i)) as Hi.
  rewrite H, NilEmpty.usu in Hi. now injection Hi.
Qed.

Lemma syntheticPrefixes_S (n : nat) :
  syntheticPrefixes (S n) = (syntheticPrefixes n ++ [syntheticPrefix n])%list.
Proof.
  unfold syntheticPrefixes. now rewrite seq_S, map_app.
Qed.

Lemma syntheticPrefix_fresh (n : nat) :
  ~ In (syntheticPrefix n) (syntheticPrefixes n).
Proof.
  unfold syntheticPrefixes. intros H. apply in_map_iff in H.
  destruct H as (j & Hj & Hin). apply syntheticPrefix_inj in Hj.
  apply in_seq in Hin. lia.
Qed.

Lemma split_no_separator (sep : ascii) (s : string) :
  Forall (fun seg => JsString.contains sep seg = false)
    (JsString.split sep s).
Proof.
  induction s as [|a s IH]; simpl.
  - constructor; [reflexivity | constructor].
  - destruct (Ascii.eqb a sep) eqn:E.
    + constructor; [reflexivity | exact IH].
    + destruct (JsString.split sep s) as [|seg segs].
      * constructor; [simpl; now rewrite E | constructor].
      * inversion IH as [|? ? Hseg Hsegs]; subst.
        constructor; [simpl; now rewrite E | exact Hsegs].
Qed.

Lemma pop_no_colon (s : string) :
  JsString.contains JsString.colon
    (JsString.pop (JsString.split JsString.colon s)) = false.
Proof.
  unfold JsString.pop.
  apply (FeatureFacts.last_Forall (split_no_separator _ s)). reflexivity.
Qed.

Lemma contains_append (c : ascii) (a b : string) :
  JsString.contains c (a ++ b)
  = JsString.contains c a || JsString.contains c b.
Proof.
  induction a as [|x a IH]; simpl; [reflexivity|].
  now rewrite IH, orb_assoc.
Qed.

Lemma qualified_has_colon (key ft : string) :
  JsString.contains JsString.colon (key ++ ":" ++ ft) = true.
Proof.
  rewrite contains_append. simpl. apply orb_true_r.
Qed.

Lemma includes_unqualified (ft : string) (types : list string) :
  JsString.contains JsString.colon ft = false ->
  Forall (fun t => JsString.contains JsString.colon t = true) types ->
  JsString.includes ft types = false.
Proof.
  intros Hft. unfold JsString.includes.
  induction 1 as [|t types Ht _ IH]; simpl; [reflexivity|].
  rewrite IH, orb_false_r. apply String.eqb_neq. intros ->. congruence.
Qed.

Lemma optStringEqb_eq (a b : option string) :
  optStringEqb a b = true -> a = b.
Proof.
  destruct a, b; simpl; try discriminate; auto.
  intros H. apply String.eqb_eq in H. now subst.
Qed.

Lemma findCandidate_missing (ns : JsObject.t (option string))
  (u : option string) :
  forall count,
    existsb (fun e => optStringEqb (snd e) u) ns = false ->
    findCandidate ns u count = (EmptyString, count + List.length ns).
Proof.
  induction ns as [|[k v] ns IH]; intros count H; simpl in *.
  - f_equal. lia.
  - apply orb_false_elim in H as [H1 H2]. rewrite H1, IH by exact H2.
    f_equal. lia.
Qed.

Lemma findCandidate_found (ns : JsObject.t (option string))
  (u : option string) :
  forall count,
    existsb (fun e => optStringEqb (snd e) u) ns = true ->
    In (fst (findCandidate ns u count), u) ns.
Proof.
  induction ns as [|[k v] ns IH]; intros count H; simpl in *.
  - discriminate.
  - destruct (optStringEqb v u) eqn:E.
    + left. simpl. apply optStringEqb_eq in E. now subst.
    + right. apply IH. exact H.
Qed.

Lemma set_fresh (V : Type) (o : JsObject.t V) (key : string) (v : V) :
  ~ In key (JsObject.keys o) -> JsObject.set o key v = (o ++ [(key, v)])%list.
Proof.
  unfold JsObject.keys.
  induction o as [|[k w] o IH]; simpl; intros H; [reflexivity|].
  destruct (String.eqb k key) eqn:E.
  - apply String.eqb_eq in E. tauto.
  - rewrite IH by tauto. reflexivity.
Qed.

Lemma discoverChild_other (types : list string)
  (ns : JsObject.t (option string)) (child : Node) :
  isElement child = false -> discoverChild (types, ns) child = (types, ns).
Proof.
  unfold discoverChild, isElement. now intros ->.
Qed.

Lemma discoverChild_known (types : list string)
  (ns : JsObject.t (option string)) (child : Node) :
  isElement child = true -> qualified types -> prefixed ns ->
  existsb (fun e => optStringEqb (snd e) (namespaceURI child)) ns = true ->
  exists key,
    In (key, namespaceURI child) ns
    /\ discoverChild (types, ns) child
       = (List.app types [qualifiedName key child], ns).
Proof.
  intros He Hq Hp Hex. unfold discoverChild, isElement in *. rewrite He.
  rewrite (@includes_unqualified _ _ (pop_no_colon _) Hq). cbn [negb].
  pose proof (@findCandidate_found ns _ 0 Hex) as Hin.
  destruct (findCandidate ns (namespaceURI child) 0) as [key count].
  cbn [fst] in Hin. exists key. split; [exact Hin|].
  assert (Hkey : JsString.nonEmpty key = true).
  { assert (Hk : In key (JsObject.keys ns))
      by (apply in_map_iff; now exists (key, namespaceURI child)).
    rewrite Hp in Hk. apply in_map_iff in Hk.
    destruct Hk as (j & <- & _). reflexivity. }
  rewrite Hkey. reflexivity.
Qed.

Lemma discoverChild_new (types : list string)
  (ns : JsObject.t (option string)) (child : Node) :
  isElement child = true -> qualified types -> prefixed ns ->
  existsb (fun e => optStringEqb (snd e) (namespaceURI child)) ns = false ->
  discoverChild (types, ns) child
  = (List.app types [qualifiedName (syntheticPrefix (List.length ns)) child],
     List.app ns [(syntheticPrefix (List.length ns), namespaceURI child)]).
Proof.
  intros He Hq Hp Hex. unfold discoverChild, isElement in *. rewrite He.
  rewrite (@includes_unqualified _ _ (pop_no_colon _) Hq). cbn [negb].
  rewrite (@findCandidate_missing ns _ 0 Hex). cbn [JsString.nonEmpty negb].
  change ("p" ++ JsString.ofNat (0 + List.length ns))
    with (syntheticPrefix (List.length ns)).
  rewrite set_fresh; [reflexivity|].
  rewrite Hp. apply syntheticPrefix_fresh.
Qed.

Lemma prefixed_snoc (ns : JsObject.t (option string)) (u : option string) :
  prefixed ns ->
  prefixed (ns ++ [(syntheticPrefix (List.length ns), u)])%list.
Proof.
  unfold prefixed, JsObject.keys. intros H.
  rewrite map_app, length_app, H. simpl.
  rewrite Nat.add_1_r, syntheticPrefixes_S. reflexivity.
Qed.

(** The loop over the child nodes, from any state it can be in. *)
Lemma discover_fold (children : list Node) :
  forall types ns seen,
    qualified types -> prefixed ns ->
    (forall u, existsb (fun v => optStringEqb v u) seen
               = existsb (fun e => optStringEqb (snd e) u) ns) ->
    let found :=
      firstEncounters seen (map namespaceURI (filter isElement children)) in
    let final :=
      (ns ++ combine (map syntheticPrefix
                        (seq (List.length ns) (List.length found)))
                found)%list in
    exists added,
      fold_left discoverChild children (types, ns)
      = ((types ++ added)%list, final)
      /\ Forall2 (qualifiedBy final) (filter isElement children) added.
Proof.
  induction children as [|child rest IH]; intros types ns seen Hq Hp Hseen.
  - simpl. exists []. rewrite !app_nil_r. split; [reflexivity | constructor].
  - cbn [fold_left filter].
    destruct (isElement child) eqn:He.
    + cbn [map firstEncounters]. rewrite Hseen.
      destruct (existsb (fun e => optStringEqb (snd e) (namespaceURI child))
                  ns) eqn:Hex.
      * destruct (@discoverChild_known types ns child He Hq Hp Hex)
          as (key & Hin & ->).
        destruct (IH (List.app types [qualifiedName key child]) ns seen)
          as (added & Hfold & Hall); auto.
        { apply Forall_app. split; [exact Hq|].
          constructor; [apply qualified_has_colon | constructor]. }
        rewrite <- app_assoc in Hfold.
        eexists (_ :: added). split; [exact Hfold|].
        constructor; [|exact Hall].
        exists key. split; [|reflexivity]. apply in_or_app. now left.
      * rewrite (@discoverChild_new types ns child He Hq Hp Hex).
        set (ns1 := (ns ++ [(syntheticPrefix (List.length ns),
                             namespaceURI child)])%list).
        destruct (IH (List.app types
                        [qualifiedName (syntheticPrefix (List.length ns))
                           child])
                    ns1 (namespaceURI child :: seen))
          as (added & Hfold & Hall).
        { apply Forall_app. split; [exact Hq|].
          constructor; [apply qualified_has_colon | constructor]. }
        { now apply prefixed_snoc. }
        { intros u. unfold ns1. rewrite existsb_app. cbn [existsb snd].
          rewrite <- Hseen, orb_false_r. apply orb_comm. }
        assert (Hfinal :
          (ns1 ++ combine
                    (map syntheticPrefix
                       (seq (List.length ns1)
                          (List.length
                             (firstEncounters (namespaceURI child :: seen)
                                (map namespaceURI (filter isElement rest))))))
                    (firstEncounters (namespaceURI child :: seen)
                       (map namespaceURI (filter isElement rest))))%list
          = (ns ++ combine
                     (map syntheticPrefix
                        (seq (List.length ns)
                           (List.length
                              (namespaceURI child
                               :: firstEncounters (namespaceURI child :: seen)
                                    (map namespaceURI
                                       (filter isElement rest))))))
                     (namespaceURI child
                      :: firstEncounters (namespaceURI child :: seen)
                           (map namespaceURI (filter isElement rest))))%list).
        { unfold ns1. rewrite length_app, <- app_assoc. cbn.
          now rewrite Nat.add_1_r. }
        rewrite Hfinal in Hfold, Hall. rewrite <- app_assoc in Hfold.
        eexists (_ :: added). split; [exact Hfold|].
        constructor; [|exact Hall].
        exists (syntheticPrefix (List.length ns)). split; [|reflexivity].
        apply in_or_app. right. now left.
    + rewrite (@discoverChild_other types ns child He). now apply IH.
Qed.

Lemma discover_spec (children : list Node) :
  let uris :=
    firstEncounters [] (map namespaceURI (filter isElement children)) in
  let namespaces := combine (syntheticPrefixes (List.length uris)) uris in
  exists types,
    discover children = (types, namespaces)
    /\ Forall2 (qualifiedBy namespaces) (filter isElement children) types.
Proof.
  destruct (@discover_fold children [] [] [])
    as (added & Hfold & Hall); try reflexivity; try constructor.
  exists added. split; [exact Hfold | exact Hall].
Qed.

Lemma optStringEqb_neq (a b : option string) :
  a <> b -> optStringEqb a b = false.
Proof.
  intros H. destruct (optStringEqb a b) eqn:E; [|reflexivity].
  apply optStringEqb_eq in E. contradiction.
Qed.

Lemma resolveFeatureTypes_falsy (node : Node) (c : Context) :
  featureTypeFalsy (featureType c) = true ->
  resolveFeatureTypes node c
  = Ok (FTArray (fst (discover (childNodes node))),
        NSObject (snd (discover (childNodes node))))
      (if localName node =? "featureMember" then c
       else setFeatureTypes c
              (FTArray (fst (discover (childNodes node))))
              (NSObject (snd (discover (childNodes node))))).
Proof.
  intros H. unfold resolveFeatureTypes, bind, getContext. rewrite H.
  destruct (discover (childNodes node)) as [types namespaces].
  destruct (localName node =? "featureMember"); reflexivity.
Qed.

End DiscoveryFacts.

(** ** Lengths on the sphere *)

Module SphereFacts.

Import Sphere.
Local Open Scope R_scope.

Section Length.

Variable radius : R.
Variable toGeographic : string -> Coordinate -> Coordinate.

Lemma lineLength_from (coordinates : list Coordinate) :
  forall length,
    lineLength radius length coordinates
    = length + lineLength radius 0 coordinates.
Proof.
  induction coordinates as [|c1 rest IH]; intros length; simpl; [lra|].
  destruct rest as [|c2 rest]; [lra|].
  rewrite (IH (length + _)), (IH (0 + _)). lra.
Qed.

Lemma lineLength_segments (coordinates : list Coordinate) :
  lineLength radius 0 coordinates = sum (segmentLengths radius coordinates).
Proof.
  induction coordinates as [|c1 rest IH]; [reflexivity|].
  destruct rest as [|c2 rest]; [reflexivity|].
  change (lineLength radius 0 (c1 :: c2 :: rest))
    with (lineLength radius (0 + haversineDistance radius c1 c2)
            (c2 :: rest)).
  rewrite lineLength_from, IH. unfold segmentLengths, sum. simpl. lra.
Qed.

Lemma fold_left_sum (A : Type) (f : A -> R) (l : list A) :
  forall start,
    fold_left (fun length x => length + f x) l start
    = start + sum (map f l).
Proof.
  induction l as [|x l IH]; intros start; simpl; [lra|].
  rewrite IH. unfold sum. lra.
Qed.

Lemma reproject_geographic (c : Coordinate) :
  reproject toGeographic (Some "EPSG:4326"%string) c = c.
Proof. reflexivity. Qed.

(** The angle of a point of the unit circle in the first quadrant. *)
Lemma atan2_sin_cos (x : R) :
  0 <= x <= PI / 2 -> atan2 (sin x) (cos x) = x.
Proof.
  intros [H0 H1]. pose proof PI_RGT_0 as Hpi. unfold atan2.
  destruct (Rlt_dec 0 (cos x)) as [Hc|Hc].
  - change (sin x / cos x) with (tan x). apply atan_tan.
    split; [lra|]. destruct (Rle_lt_or_eq_dec _ _ H1) as [Hlt|Heq];
      [exact Hlt|].
    rewrite Heq, cos_PI2 in Hc. lra.
  - assert (Hx : x = PI / 2).
    { destruct (Rlt_le_dec x (PI / 2)) as [Hlt|Hge]; [|lra].
      exfalso. apply Hc, cos_gt_0; lra. }
    rewrite Hx, cos_PI2, sin_PI2.
    destruct (Rlt_dec 0 0); [lra|].
    destruct (Rlt_dec 0 1); [reflexivity | lra].
Qed.

Lemma sqrt_sin_square (x : R) :
  0 <= x <= PI -> sqrt (sin x * sin x) = sin x.
Proof.
  intros [H0 H1]. apply sqrt_square. now apply sin_ge_0.
Qed.

Lemma sqrt_cos_square (x : R) :
  0 <= x <= PI / 2 -> sqrt (1 - sin x * sin x) = cos x.
Proof.
  intros [H0 H1]. pose proof PI_RGT_0 as Hpi.
  pose proof (sin2_cos2 x) as H. unfold Rsqr in H.
  replace (1 - sin x * sin x) with (cos x * cos x) by lra.
  apply sqrt_square, cos_ge_0; lra.
Qed.

(** Along a meridian the haversine distance is the arc between the two
    latitudes. *)
Lemma haversineDistance_meridian (longitude lat1 lat2 : R) :
  0 <= lat2 - lat1 <= 180 ->
  haversineDistance radius [longitude; lat1] [longitude; lat2]
  = radius * ((lat2 - lat1) * PI / 180).
Proof.
  intros [H0 H1]. pose proof PI_RGT_0 as Hpi.
  unfold haversineDistance, lat, lon, toRadians. cbn [nth].
  set (x := (lat2 * PI / 180 - lat1 * PI / 180) / 2).
  assert (Hx : 0 <= x <= PI / 2) by (unfold x; split; nra).
  replace ((longitude - longitude) * PI / 180 / 2) with 0 by lra.
  rewrite sin_0.
  replace (sin x * sin x + 0 * 0 * cos (lat1 * PI / 180)
           * cos (lat2 * PI / 180))
    with (sin x * sin x) by lra.
  rewrite sqrt_sin_square by lra.
  rewrite sqrt_cos_square by exact Hx.
  rewrite atan2_sin_cos by exact Hx.
  unfold x. lra.
Qed.

(** Between two points of one latitude on opposite meridians the haversine
    distance is the arc over the pole. *)
Lemma haversineDistance_over_the_pole (longitude latitude : R) :
  0 <= latitude <= 90 ->
  haversineDistance radius [longitude; latitude] [longitude + 180; latitude]
  = radius * ((180 - 2 * latitude) * PI / 180).
Proof.
  intros [H0 H1]. pose proof PI_RGT_0 as Hpi.
  unfold haversineDistance, lat, lon, toRadians. cbn [nth].
  set (phi := latitude * PI / 180).
  assert (Hphi : 0 <= phi <= PI / 2) by (unfold phi; split; nra).
  replace ((phi - phi) / 2) with 0 by lra.
  replace ((longitude + 180 - longitude) * PI / 180 / 2) with (PI / 2) by lra.
  rewrite sin_0, sin_PI2.
  replace (0 * 0 + 1 * 1 * cos phi * cos phi)
    with (sin (PI / 2 - phi) * sin (PI / 2 - phi))
    by (rewrite sin_shift; lra).
  rewrite sqrt_sin_square by lra.
  rewrite sqrt_cos_square by lra.
  rewrite atan2_sin_cos by lra.
  unfold phi. lra.
Qed.

(** Coordinates without a projection are read as Web-Mercator
    coordinates. *)
Lemma getLength_default (geometry : Geometry) :
  getLength radius toGeographic geometry None
  = getLength radius toGeographic geometry (Some DEFAULT_PROJECTION).
Proof.
  revert geometry. fix IH 1.
  intros [c|cs|cs|lines|members]; try reflexivity.
  cbn [getLength]. generalize 0.
  induction members as [|member rest IHrest]; intros start; [reflexivity|].
  cbn [fold_left]. rewrite (IH member). apply IHrest.
Qed.

(** C8.  [getLength] is 0 on a Point and on a MultiPoint; on a LineString it
    is the sum of the haversine distances between consecutive vertices, taken
    in degrees; on a MultiLineString and on a GeometryCollection it is the
    sum of the lengths of the members.  So two copies of a line, as a
    MultiLineString or as a GeometryCollection, have twice the length of the
    line.  The distances are great-circle arcs: a line along a meridian has
    the length of the arc between its latitudes, and a line between two
    points of one latitude on opposite meridians the length of the arc over
    the pole.  Coordinates without a projection are measured as Web-Mercator
    coordinates, brought to degrees first. *)
Theorem getLength_sums_segments (projection : option string) :
  (forall c, getLength radius toGeographic (Point c) projection = 0)
  /\ (forall cs, getLength radius toGeographic (MultiPoint cs) projection = 0)
  /\ (forall cs,
        getLength radius toGeographic (LineString cs) projection
        = sum (segmentLengths radius
                 (map (reproject toGeographic projection) cs)))
  /\ (forall lines,
        getLength radius toGeographic (MultiLineString lines) projection
        = sum (map (fun cs =>
                      getLength radius toGeographic (LineString cs)
                        projection)
                 lines))
  /\ (forall members,
        getLength radius toGeographic (GeometryCollection members) projection
        = sum (map (fun member =>
                      getLength radius toGeographic member projection)
                 members))
  /\ (forall cs,
        getLength radius toGeographic (MultiLineString [cs; cs]) projection
        = 2 * getLength radius toGeographic (LineString cs) projection)
  /\ (forall cs,
        getLength radius toGeographic
          (GeometryCollection [LineString cs; LineString cs]) projection
        = 2 * getLength radius toGeographic (LineString cs) projection)
  /\ (forall longitude lat1 lat2 lat3,
        0 <= lat2 - lat1 <= 180 -> 0 <= lat3 - lat2 <= 180 ->
        getLength radius toGeographic
          (LineString [[longitude; lat1]; [longitude; lat2]; [longitude; lat3]])
          (Some "EPSG:4326"%string)
        = radius * ((lat2 - lat1) * PI / 180)
          + radius * ((lat3 - lat2) * PI / 180))
  /\ (forall longitude latitude,
        0 <= latitude <= 90 ->
        getLength radius toGeographic
          (LineString [[longitude; latitude]; [longitude + 180; latitude]])
          (Some "EPSG:4326"%string)
        = radius * ((180 - 2 * latitude) * PI / 180))
  /\ (forall geometry,
        getLength radius toGeographic geometry None
        = getLength radius toGeographic geometry (Some "EPSG:3857"%string))
  /\ (forall metres degrees,
        map (toGeographic "EPSG:3857"%string) metres = degrees ->
        getLength radius toGeographic (LineString metres) None
        = getLength radius toGeographic (LineString degrees)
            (Some "EPSG:4326"%string)).
Proof.
  split; [reflexivity|]. split; [reflexivity|].
  split; [intros cs; simpl; apply lineLength_segments|].
  split; [intros lines; simpl; rewrite fold_left_sum; lra|].
  split; [intros members; simpl; rewrite fold_left_sum; lra|].
  split; [intros cs; simpl; lra|].
  split; [intros cs; simpl; lra|].
  split.
  { intros longitude lat1 lat2 lat3 H1 H2. cbn [getLength map lineLength].
    rewrite !reproject_geographic.
    rewrite !haversineDistance_meridian by assumption. lra. }
  split.
  { intros longitude latitude H. cbn [getLength map lineLength].
    rewrite !reproject_geographic.
    rewrite haversineDistance_over_the_pole by assumption. lra. }
  split; [exact getLength_default|].
  intros metres degrees <-. cbn [getLength]. f_equal.
  rewrite map_map. apply map_ext. intros c.
  now rewrite reproject_geographic.
Qed.

End Length.

(** A line from the equator to the pole along the Greenwich meridian, and a
    line over the pole, on a sphere of radius 6371. *)
Lemma getLength_sums_segments_witness :
  getLength 6371 (fun _ c => c)
    (LineString [[0; 0]; [0; 45]; [0; 90]]) (Some "EPSG:4326"%string)
  = 6371 * ((45 - 0) * PI / 180) + 6371 * ((90 - 45) * PI / 180)
  /\ getLength 6371 (fun _ c => c)
       (LineString [[0; 60]; [0 + 180; 60]]) (Some "EPSG:4326"%string)
     = 6371 * ((180 - 2 * 60) * PI / 180).
Proof.
  pose proof (@getLength_sums_segments 6371 (fun _ c => c)
                (Some "EPSG:4326"%string)) as H.
  destruct H as (_ & _ & _ & _ & _ & _ & _ & Hmeridian & Hpole & _).
  split.
  - apply Hmeridian; lra.
  - apply Hpole; lra.
Defined.

End SphereFacts.

(** ** The dispatch on namespace and local name *)

Module ParseFacts.

Import Xml GMLBase Dispatch.
Local Open Scope string_scope.

Section Tables.

Variable T : Type.
Variable parsersNS : ParsersNS T.

Lemma applyParser_dispatched (n : Node) (top : T) (c : Context) :
  applyParser parsersNS n top c
  = match dispatched parsersNS n with
    | Some parser => parser n top c
    | None => Ok top c
    end.
Proof.
  unfold applyParser, dispatched.
  destruct (JsObject.get parsersNS (keyOf (namespaceURI n))) as [parsers|];
    [|reflexivity].
  destruct (JsObject.get parsers (localName n)); reflexivity.
Qed.

Lemma parseChildren_unmatched (children : list Node) (top : T) (c : Context) :
  (forall n, In n children -> dispatched parsersNS n = None) ->
  parseChildren parsersNS children top c = Ok top c.
Proof.
  induction children as [|n rest IH]; intros H; [reflexivity|].
  cbn [parseChildren]. unfold bind.
  rewrite applyParser_dispatched, (H n (or_introl eq_refl)).
  apply IH. intros m Hm. apply H. now right.
Qed.

Lemma pushParseAndPop_unmatched (object : T) (node : Node) (c : Context) :
  unmatched parsersNS node ->
  pushParseAndPop object parsersNS node c = Ok object c.
Proof.
  intros H. unfold pushParseAndPop, parseNode.
  now apply parseChildren_unmatched.
Qed.

Lemma parseChildren_app (a b : list Node) (top : T) (c : Context) :
  parseChildren parsersNS (a ++ b) top c
  = match parseChildren parsersNS a top c with
    | Ok top' c' => parseChildren parsersNS b top' c'
    | Throw e => Throw e
    end.
Proof.
  revert top c. induction a as [|n a IH]; intros top c; [reflexivity|].
  cbn [app parseChildren]. unfold bind.
  destruct (applyParser parsersNS n top c) as [top' c'|e]; [|reflexivity].
  apply IH.
Qed.

End Tables.

Lemma optStringEqb_GMLNS (u : option string) :
  String.eqb GMLNS (keyOf u) = optStringEqb u (Some GMLNS).
Proof.
  destruct u as [s|]; [apply String.eqb_sym | reflexivity].
Qed.

Lemma dispatched_gml (T : Type) (parsers : JsObject.t (Parser T)) (n : Node) :
  dispatched (gmlParsers parsers) n
  = if optStringEqb (namespaceURI n) (Some GMLNS)
    then JsObject.get parsers (localName n)
    else None.
Proof.
  unfold dispatched, gmlParsers. cbn [JsObject.get].
  rewrite optStringEqb_GMLNS.
  destruct (optStringEqb (namespaceURI n) (Some GMLNS)); reflexivity.
Qed.

Section Collect.

Variable E : Type.
Variable read : Node -> M (option E).

Lemma collect_app (a b : list Node) (array : list E) (c : Context) :
  collect read (a ++ b) array c
  = match collect read a array c with
    | Ok array' c' => collect read b array' c'
    | Throw e => Throw e
    end.
Proof.
  revert array c. induction a as [|n a IH]; intros array c; [reflexivity|].
  cbn [app collect]. unfold bind.
  destruct (read n c) as [v c'|e]; [|reflexivity].
  apply IH.
Qed.

(** The parsers of a member element: one array pusher for the elements
    named [inner]. *)
Lemma parseChildren_inner (inner : string) (children : list Node) :
  forall (array : list E) (c : Context),
    parseChildren (gmlParsers [(inner, makeArrayPusher (stackless read))])
      children array c
    = collect read (filter (isGmlElement [inner]) children) array c.
Proof.
  induction children as [|n rest IH]; intros array c; [reflexivity|].
  cbn [parseChildren filter]. unfold bind at 1.
  rewrite applyParser_dispatched, dispatched_gml.
  unfold isGmlElement, JsString.includes. cbn [JsObject.get existsb].
  rewrite orb_false_r, (String.eqb_sym inner).
  destruct (optStringEqb (namespaceURI n) (Some GMLNS)); cbn [andb];
    [|apply IH].
  destruct (localName n =? inner); [|apply IH].
  cbn [collect]. unfold makeArrayPusher, stackless, bind, ret.
  destruct (read n c) as [[e|] c'|err]; cbn [fst snd]; try apply IH.
  reflexivity.
Qed.

(** The parsers of a collection: the two spellings of the member element
    parse their content into the array of the collection. *)
Lemma pushParseAndPop_members (m1 m2 inner : string) (node : Node)
  (c : Context) :
  let INNER := gmlParsers [(inner, makeArrayPusher (stackless read))] in
  let memberParser : ValueReader (list E) (option E) :=
    fun node top => bind (parseNode INNER node top)
                      (fun top' => ret (top', None)) in
  pushParseAndPop []
    (gmlParsers [(m1, makeArrayPusher memberParser);
                 (m2, makeArrayPusher memberParser)])
    node c
  = collect read (memberElements [m1; m2] inner node) [] c.
Proof.
  intros INNER memberParser.
  unfold pushParseAndPop, parseNode, memberElements.
  generalize (@nil E) as array. revert c.
  induction (elementChildren node) as [|n rest IH]; intros c array;
    [reflexivity|].
  cbn [parseChildren filter]. unfold bind at 1.
  rewrite applyParser_dispatched, dispatched_gml.
  unfold isGmlElement at 2. unfold JsString.includes.
  cbn [JsObject.get existsb].
  rewrite orb_false_r, (String.eqb_sym m1), (String.eqb_sym m2).
  assert (Hmember : forall top c0,
    makeArrayPusher memberParser n top c0
    = collect read (filter (isGmlElement [inner]) (elementChildren n))
        top c0).
  { intros top c0. unfold makeArrayPusher, memberParser, bind, ret, parseNode.
    subst INNER. rewrite parseChildren_inner.
    destruct (collect read _ top c0); reflexivity. }
  destruct (optStringEqb (namespaceURI n) (Some GMLNS)); cbn [andb];
    [|apply IH].
  destruct (localName n =? m1); cbn [orb flat_map].
  - rewrite Hmember, collect_app.
    destruct (collect read _ array c) as [array' c'|e]; [apply IH|reflexivity].
  - destruct (localName n =? m2); cbn [flat_map]; [|apply IH].
    rewrite Hmember, collect_app.
    destruct (collect read _ array c) as [array' c'|e]; [apply IH|reflexivity].
Qed.

Lemma collect_nothing (nodes : list Node) (array : list E) (c : Context) :
  (forall n, In n nodes -> read n c = Ok None c) ->
  collect read nodes array c = Ok array c.
Proof.
  revert array. induction nodes as [|n rest IH]; intros array H;
    [reflexivity|].
  cbn [collect]. unfold bind. rewrite (H n (or_introl eq_refl)).
  apply IH. intros m Hm. apply H. now right.
Qed.

Lemma collect_same (e : E) (nodes : list Node) (array : list E)
  (c : Context) :
  (forall n, In n nodes -> read n c = Ok (Some e) c) ->
  collect read nodes array c
  = Ok (array ++ repeat e (List.length nodes))%list c.
Proof.
  revert array. induction nodes as [|n rest IH]; intros array H.
  - cbn. now rewrite app_nil_r.
  - cbn [collect]. unfold bind. rewrite (H n (or_introl eq_refl)).
    rewrite IH by (intros m Hm; apply H; now right).
    cbn [List.length repeat]. now rewrite <- app_assoc.
Qed.

Lemma collect_grows (P : E -> Prop) (nodes : list Node) :
  (forall n c v c', read n c = Ok (Some v) c' -> P v) ->
  forall array c array' c',
    collect read nodes array c = Ok array' c' ->
    Forall P array ->
    Forall P array'
    /\ List.length array' <= List.length array + List.length nodes.
Proof.
  intros Hread. induction nodes as [|n rest IH]; intros array c array' c' H Ha.
  - cbn in H. injection H as <- _. split; [exact Ha | lia].
  - cbn [collect] in H. unfold bind in H.
    destruct (read n c) as [[v|] c1|e] eqn:Hn; [| |discriminate].
    + apply IH in H.
      * rewrite length_app in H. cbn [List.length] in *. split; [tauto | lia].
      * apply Forall_app. split; [exact Ha|].
        constructor; [eapply Hread, Hn | constructor].
    + apply IH in H; [|exact Ha]. cbn [List.length]. split; [tauto | lia].
Qed.

End Collect.

End ParseFacts.

(** ** Parts of the parse context that a decoder leaves alone *)

Module FrameFacts.

Import Xml GMLBase Dispatch ParseFacts.
Local Open Scope string_scope.

Section Keeps.

Variable X : Type.
Variable part : Context -> X.

Lemma keeps_ret (A : Type) (a : A) : keeps part (ret a).
Proof.
  intros c a' c' H. now injection H as _ <-.
Qed.

Lemma keeps_bind (A B : Type) (m : M A) (f : A -> M B) :
  keeps part m -> (forall a, keeps part (f a)) -> keeps part (bind m f).
Proof.
  intros Hm Hf c b c' H. unfold bind in H.
  destruct (m c) as [a c1|e] eqn:Hmc; [|discriminate].
  rewrite (Hf a _ _ _ H). exact (Hm _ _ _ Hmc).
Qed.

Lemma keeps_parseChildren (T : Type) (parsersNS : ParsersNS T) :
  tablesKeep part parsersNS ->
  forall children top, keeps part (parseChildren parsersNS children top).
Proof.
  intros Ht. induction children as [|n rest IH]; intros top;
    [apply keeps_ret|].
  cbn [parseChildren]. apply keeps_bind; [|intros top'; apply IH].
  intros c a c' H. rewrite applyParser_dispatched in H.
  destruct (dispatched parsersNS n) as [parser|] eqn:Hd.
  - exact (Ht n parser top Hd _ _ _ H).
  - now injection H as _ <-.
Qed.

Lemma keeps_pushParseAndPop (T : Type) (parsersNS : ParsersNS T) :
  tablesKeep part parsersNS ->
  forall object node, keeps part (pushParseAndPop object parsersNS node).
Proof.
  intros Ht object node. apply keeps_parseChildren, Ht.
Qed.

Lemma keeps_makeReplacer (A : Type) (read : Node -> M (JsOpt A)) :
  (forall n, keeps part (read n)) ->
  forall n top, keeps part (makeReplacer (stackless read) n top).
Proof.
  intros Hr n top. unfold makeReplacer, stackless.
  apply keeps_bind.
  - apply keeps_bind; [apply Hr | intros v; apply keeps_ret].
  - intros r. destruct (notUndefined (snd r)); apply keeps_ret.
Qed.

Lemma keeps_makeArrayPusher (E : Type) (reader : ValueReader (list E) (option E)) :
  (forall n top, keeps part (reader n top)) ->
  forall n top, keeps part (makeArrayPusher reader n top).
Proof.
  intros Hr n top. unfold makeArrayPusher.
  apply keeps_bind; [apply Hr|].
  intros r. destruct (snd r); apply keeps_ret.
Qed.

Lemma keeps_stackless (T V : Type) (read : Node -> M V) :
  (forall n, keeps part (read n)) ->
  forall n (top : T), keeps part (stackless read n top).
Proof.
  intros Hr n top. unfold stackless.
  apply keeps_bind; [apply Hr | intros v; apply keeps_ret].
Qed.

Lemma tablesKeep_gml (T : Type) (parsers : JsObject.t (Parser T)) :
  (forall k parser, JsObject.get parsers k = Some parser ->
     forall n top, keeps part (parser n top)) ->
  tablesKeep part (gmlParsers parsers).
Proof.
  intros H n parser top Hd. rewrite dispatched_gml in Hd.
  destruct (optStringEqb (namespaceURI n) (Some GMLNS)); [|discriminate].
  exact (H _ _ Hd n top).
Qed.

Section Decoders.

Variable number : Type.
Variable GEOMETRY_FLAT_COORDINATES_PARSERS_
  : ParsersNS (JsOpt (list number)).
Variable FLAT_LINEAR_RINGS_PARSERS_ : ParsersNS (FlatLinearRings number).

Hypothesis coordinates_keep :
  tablesKeep part GEOMETRY_FLAT_COORDINATES_PARSERS_.

Lemma keeps_readFlatCoordinates (node : Node) :
  keeps part
    (readFlatCoordinatesFromNode_ GEOMETRY_FLAT_COORDINATES_PARSERS_ node).
Proof.
  apply keeps_pushParseAndPop, coordinates_keep.
Qed.

Lemma keeps_readPoint (node : Node) :
  keeps part (readPoint GEOMETRY_FLAT_COORDINATES_PARSERS_ node).
Proof.
  apply keeps_bind; [apply keeps_readFlatCoordinates|].
  intros [| |flat]; apply keeps_ret.
Qed.

Lemma keeps_readLineString (node : Node) :
  keeps part (readLineString GEOMETRY_FLAT_COORDINATES_PARSERS_ node).
Proof.
  apply keeps_bind; [apply keeps_readFlatCoordinates|].
  intros [| |flat]; apply keeps_ret.
Qed.

Lemma keeps_readLinearRing (node : Node) :
  keeps part (readLinearRing GEOMETRY_FLAT_COORDINATES_PARSERS_ node).
Proof.
  apply keeps_bind; [apply keeps_readFlatCoordinates|].
  intros [| |flat]; apply keeps_ret.
Qed.

Lemma keeps_readFlatLinearRing (node : Node) :
  keeps part (readFlatLinearRing_ GEOMETRY_FLAT_COORDINATES_PARSERS_ node).
Proof.
  apply keeps_bind; [apply keeps_readFlatCoordinates|].
  intros [| |flat]; apply keeps_ret.
Qed.

Lemma keeps_ring_parsers :
  tablesKeep part (RING_PARSERS GEOMETRY_FLAT_COORDINATES_PARSERS_).
Proof.
  apply tablesKeep_gml. intros k parser Hget. cbn [JsObject.get] in Hget.
  destruct ("LinearRing" =? k); [|discriminate]. injection Hget as <-.
  apply keeps_makeReplacer. intros n.
  apply keeps_bind; [apply keeps_readFlatLinearRing|].
  intros ring. apply keeps_ret.
Qed.

Lemma keeps_readMultiPoint (node : Node) :
  keeps part (readMultiPoint GEOMETRY_FLAT_COORDINATES_PARSERS_ node).
Proof.
  apply keeps_bind; [|intros coordinates; apply keeps_ret].
  apply keeps_pushParseAndPop, tablesKeep_gml.
  assert (Hmember : forall n top,
            keeps part
              (makeArrayPusher
                 (pointMemberParser_ GEOMETRY_FLAT_COORDINATES_PARSERS_)
                 n top)).
  { apply keeps_makeArrayPusher. intros n top. unfold pointMemberParser_.
    apply keeps_bind; [|intros top'; apply keeps_ret].
    apply keeps_parseChildren, tablesKeep_gml.
    intros k parser Hget. cbn [JsObject.get] in Hget.
    destruct ("Point" =? k); [|discriminate]. injection Hget as <-.
    apply keeps_makeArrayPusher, keeps_stackless. intros m.
    apply keeps_bind; [apply keeps_readFlatCoordinates|].
    intros v. apply keeps_ret. }
  intros k parser Hget. cbn [JsObject.get] in Hget.
  destruct ("pointMember" =? k); [injection Hget as <-; exact Hmember|].
  destruct ("pointMembers" =? k); [|discriminate].
  injection Hget as <-. exact Hmember.
Qed.

Lemma keeps_readPolygon (node : Node) :
  tablesKeep part FLAT_LINEAR_RINGS_PARSERS_ ->
  keeps part (readPolygon FLAT_LINEAR_RINGS_PARSERS_ node).
Proof.
  intros Ht. apply keeps_bind; [|intros rings; apply keeps_ret].
  apply keeps_pushParseAndPop, Ht.
Qed.

End Decoders.

End Keeps.

(** The parsers of the example format write nothing into the parse
    context. *)
Section ExampleTables.

Variable X : Type.
Variable part : Context -> X.

Lemma example_coordinates_keep :
  tablesKeep part Example.GEOMETRY_FLAT_COORDINATES_PARSERS_.
Proof.
  apply tablesKeep_gml. intros k parser Hget. cbn [JsObject.get] in Hget.
  destruct ("pos" =? k);
    [|destruct ("posList" =? k); [|discriminate]];
    injection Hget as <-; apply keeps_makeReplacer;
    intros n; apply keeps_ret.
Qed.

Lemma example_rings_keep :
  tablesKeep part Example.FLAT_LINEAR_RINGS_PARSERS_.
Proof.
  assert (Hring : forall n, keeps part (Example.readRing n)).
  { intros n. apply keeps_pushParseAndPop, keeps_ring_parsers,
      example_coordinates_keep. }
  apply tablesKeep_gml. intros k parser Hget. cbn [JsObject.get] in Hget.
  destruct ("exterior" =? k);
    [|destruct ("interior" =? k); [|discriminate]];
    injection Hget as <-; intros n top;
    (apply keeps_bind; [apply Hring|]);
    intros [| |ring]; apply keeps_ret.
Qed.

Lemma example_geometry_keep : tablesKeep part Example.GEOMETRY_PARSERS_.
Proof.
  assert (Hreplacer : forall read : Node -> M (option (Geometry nat)),
            (forall n, keeps part (read n)) ->
            forall n top, keeps part (Example.geometryReplacer read n top)).
  { intros read Hr. apply keeps_makeReplacer. intros n.
    apply keeps_bind; [apply Hr | intros g; apply keeps_ret]. }
  apply tablesKeep_gml. intros k parser Hget. cbn [JsObject.get] in Hget.
  destruct ("Point" =? k).
  { injection Hget as <-. apply Hreplacer. intros n.
    apply keeps_readPoint, example_coordinates_keep. }
  destruct ("LineString" =? k).
  { injection Hget as <-. apply Hreplacer. intros n.
    apply keeps_readLineString, example_coordinates_keep. }
  destruct ("LinearRing" =? k).
  { injection Hget as <-. apply Hreplacer. intros n.
    apply keeps_readLinearRing, example_coordinates_keep. }
  destruct ("Polygon" =? k).
  { injection Hget as <-. apply Hreplacer. intros n.
    apply keeps_readPolygon, example_rings_keep. }
  destruct ("MultiPoint" =? k); [|discriminate].
  injection Hget as <-. apply Hreplacer. intros n.
  apply keeps_readMultiPoint, example_coordinates_keep.
Qed.

End ExampleTables.

End FrameFacts.

(** ** The coordinate decoders *)

Module CoordinateFacts.

Import Xml GMLBase Described Dispatch ParseFacts.
Local Open Scope string_scope.

Lemma get_named (V : Type) (v : V) (names : list string) (k : string) :
  JsObject.get (map (fun name => (name, v)) names) k
  = if JsString.includes k names then Some v else None.
Proof.
  unfold JsString.includes.
  induction names as [|name rest IH]; [reflexivity|].
  cbn [map JsObject.get existsb]. rewrite (String.eqb_sym k name).
  destruct (name =? k); [reflexivity | exact IH].
Qed.

(** Whitespace of every kind delimits, and delimits once. *)
Example tokens_of_a_line :
  Coordinates.tokens
    (String (ascii_of_nat 10) " 1,5  -2" ++ String (ascii_of_nat 9) "3 ")
  = ["1,5"; "-2"; "3"].
Proof. reflexivity. Qed.

Section ReadCoordinates.

Variable number : Type.
Variable parseFloat : string -> number.
Variable names : list string.
Variable GEOMETRY_FLAT_COORDINATES_PARSERS_
  : ParsersNS (JsOpt (list number)).

Local Notation "'PARSED'" :=
  (Coordinates.GEOMETRY_FLAT_COORDINATES_PARSERS_ parseFloat names).

(** The value on the stack when the last holder of coordinates met so far is
    [found]. *)
Local Notation "'valueOf'" :=
  (fun (found : option Node) (top : JsOpt (list number)) =>
     match found with
     | Some holder =>
         Defined (map parseFloat
                    (Coordinates.tokens (getAllTextContent holder)))
     | None => top
     end).

Lemma parseChildren_coordinates (children : list Node) :
  forall found top c,
    parseChildren PARSED children (valueOf found top) c
    = Ok (valueOf
            (fold_left
               (fun found n => if isGmlElement names n then Some n else found)
               children found)
            top) c.
Proof.
  induction children as [|n rest IH]; intros found top c; [reflexivity|].
  cbn [parseChildren fold_left]. unfold bind at 1.
  rewrite applyParser_dispatched.
  unfold Coordinates.GEOMETRY_FLAT_COORDINATES_PARSERS_ at 1.
  rewrite dispatched_gml, get_named. unfold isGmlElement.
  destruct (optStringEqb (namespaceURI n) (Some GMLNS)); cbn [andb];
    [|apply IH].
  destruct (JsString.includes (localName n) names); [|apply IH].
  exact (IH (Some n) top c).
Qed.

Lemma readFlatCoordinates_parsed (node : Node) (c : Context) :
  readFlatCoordinatesFromNode_ PARSED node c
  = Ok (valueOf (lastGmlElement names node) Null) c.
Proof.
  exact (parseChildren_coordinates (elementChildren node) None Null c).
Qed.

(** C7, amended.  The Point, LineString and LinearRing decoders parse
    whitespace-delimited coordinate tuples from text content into a flat
    coordinate sequence: with the coordinate parsers that the description
    gives, the flat coordinates are the numbers of the tokens of the text of
    the last element that holds coordinates.  They construct the geometry
    with the layout XYZ, whatever the dimensionality, and that for every
    table of coordinate parsers: what the parsers leave on the stack are the
    flat coordinates, and the layout is XYZ. *)
Theorem readers_use_layout_XYZ (node : Node) (c : Context) :
  match lastGmlElement names node with
  | Some holder =>
      let flatCoordinates :=
        map parseFloat (Coordinates.tokens (getAllTextContent holder)) in
      readPoint PARSED node c = Ok (Some (Point XYZ flatCoordinates)) c
      /\ readLineString PARSED node c
         = Ok (Some (LineString XYZ flatCoordinates)) c
      /\ readLinearRing PARSED node c
         = Ok (Some (LinearRing XYZ flatCoordinates)) c
  | None =>
      readPoint PARSED node c = Ok None c
      /\ readLineString PARSED node c = Ok None c
      /\ readLinearRing PARSED node c = Ok None c
  end
  /\ match readFlatCoordinatesFromNode_ GEOMETRY_FLAT_COORDINATES_PARSERS_
             node c with
     | Ok (Defined flatCoordinates) c' =>
         readPoint GEOMETRY_FLAT_COORDINATES_PARSERS_ node c
         = Ok (Some (Point XYZ flatCoordinates)) c'
         /\ readLineString GEOMETRY_FLAT_COORDINATES_PARSERS_ node c
            = Ok (Some (LineString XYZ flatCoordinates)) c'
         /\ readLinearRing GEOMETRY_FLAT_COORDINATES_PARSERS_ node c
            = Ok (Some (LinearRing XYZ flatCoordinates)) c'
     | Ok _ c' =>
         readPoint GEOMETRY_FLAT_COORDINATES_PARSERS_ node c = Ok None c'
         /\ readLineString GEOMETRY_FLAT_COORDINATES_PARSERS_ node c
            = Ok None c'
         /\ readLinearRing GEOMETRY_FLAT_COORDINATES_PARSERS_ node c
            = Ok None c'
     | Throw e =>
         readPoint GEOMETRY_FLAT_COORDINATES_PARSERS_ node c = Throw e
         /\ readLineString GEOMETRY_FLAT_COORDINATES_PARSERS_ node c = Throw e
         /\ readLinearRing GEOMETRY_FLAT_COORDINATES_PARSERS_ node c = Throw e
     end.
Proof.
  split.
  - unfold readPoint, readLineString, readLinearRing, bind.
    rewrite readFlatCoordinates_parsed.
    destruct (lastGmlElement names node) as [holder|]; repeat split.
  - unfold readPoint, readLineString, readLinearRing, bind.
    destruct (readFlatCoordinatesFromNode_ _ node c) as [[| |flat] c'|e];
      repeat split.
Qed.

End ReadCoordinates.

(** C7 as stated fails on a point of two dimensions: the dimensionality is
    captured in the context, and the layout is XYZ all the same, whatever
    flat coordinates the coordinate parser of the format leaves for the
    point; with the parsers of the description they are the two numbers of
    the text. *)
Lemma layout_ignores_dimension :
  (forall flat : list nat,
     exists c' : Context,
       readGeometryElement (Sample.pointParsers flat)
         Example.transformWithOptions
         (Example.el "app" "start" "http://example.org/app"
            [Example.point2D])
         Example.noContext
       = Ok (Some (Point XYZ flat)) c'
       /\ srsDimension c' = Some "2"
       /\ layoutOf (Point XYZ flat)
          <> Some (layoutForDimension (srsDimension c')))
  /\ readPoint
       (Coordinates.GEOMETRY_FLAT_COORDINATES_PARSERS_ (fun token => token)
          ["pos"; "posList"])
       Example.point2D Example.noContext
     = Ok (Some (Point XYZ ["1"; "2"])) Example.noContext.
Proof.
  split; [|reflexivity].
  intros flat. eexists. split; [reflexivity|].
  split; [reflexivity | discriminate].
Qed.

End CoordinateFacts.

(** ** The decoders of coordinates and of collections *)

Module CollectionFacts.

Import Xml GMLBase Dispatch ParseFacts.
Local Open Scope string_scope.

Section Readers.

Variable number : Type.
Variable GEOMETRY_FLAT_COORDINATES_PARSERS_
  : ParsersNS (JsOpt (list number)).
Variable FLAT_LINEAR_RINGS_PARSERS_ : ParsersNS (FlatLinearRings number).

Local Notation "'readCoordinates'" :=
  (readPointCoordinates GEOMETRY_FLAT_COORDINATES_PARSERS_).

Lemma coordinates_unmatched (node : Node) (c : Context) :
  unmatched GEOMETRY_FLAT_COORDINATES_PARSERS_ node ->
  readFlatCoordinatesFromNode_ GEOMETRY_FLAT_COORDINATES_PARSERS_ node c
  = Ok Null c.
Proof.
  intros H. unfold readFlatCoordinatesFromNode_.
  now apply pushParseAndPop_unmatched.
Qed.

Lemma lineString_unmatched (node : Node) (c : Context) :
  unmatched GEOMETRY_FLAT_COORDINATES_PARSERS_ node ->
  readLineString GEOMETRY_FLAT_COORDINATES_PARSERS_ node c = Ok None c.
Proof.
  intros H. unfold readLineString, bind.
  now rewrite coordinates_unmatched.
Qed.

Lemma polygon_unmatched (node : Node) (c : Context) :
  unmatched FLAT_LINEAR_RINGS_PARSERS_ node ->
  readPolygon FLAT_LINEAR_RINGS_PARSERS_ node c = Ok None c.
Proof.
  intros H. unfold readPolygon, bind.
  now rewrite (pushParseAndPop_unmatched _ c H).
Qed.

Lemma readMultiPoint_run (node : Node) (c : Context) :
  readMultiPoint GEOMETRY_FLAT_COORDINATES_PARSERS_ node c
  = match collect readCoordinates
            (memberElements ["pointMember"; "pointMembers"] "Point" node)
            [] c with
    | Ok coordinates c' => Ok (Some (MultiPoint coordinates)) c'
    | Throw e => Throw e
    end.
Proof.
  unfold readMultiPoint, bind.
  rewrite <- (pushParseAndPop_members readCoordinates
                "pointMember" "pointMembers" "Point" node c).
  reflexivity.
Qed.

Lemma readMultiLineString_run (node : Node) (c : Context) :
  readMultiLineString GEOMETRY_FLAT_COORDINATES_PARSERS_ node c
  = match collect (readLineString GEOMETRY_FLAT_COORDINATES_PARSERS_)
            (memberElements ["lineStringMember"; "lineStringMembers"]
               "LineString" node)
            [] c with
    | Ok lineStrings c' => Ok (Some (MultiLineString lineStrings)) c'
    | Throw e => Throw e
    end.
Proof.
  unfold readMultiLineString, bind.
  rewrite <- (pushParseAndPop_members
                (readLineString GEOMETRY_FLAT_COORDINATES_PARSERS_)
                "lineStringMember" "lineStringMembers" "LineString" node c).
  reflexivity.
Qed.

Lemma readMultiPolygon_run (node : Node) (c : Context) :
  readMultiPolygon FLAT_LINEAR_RINGS_PARSERS_ node c
  = match collect (readPolygon FLAT_LINEAR_RINGS_PARSERS_)
            (memberElements ["polygonMember"; "polygonMembers"]
               "Polygon" node)
            [] c with
    | Ok polygons c' => Ok (Some (MultiPolygon polygons)) c'
    | Throw e => Throw e
    end.
Proof.
  unfold readMultiPolygon, bind.
  rewrite <- (pushParseAndPop_members
                (readPolygon FLAT_LINEAR_RINGS_PARSERS_)
                "polygonMember" "polygonMembers" "Polygon" node c).
  reflexivity.
Qed.

(** X1.  An element none of whose element children is known to the
    coordinate parsers has no coordinates: the Point, LineString and
    LinearRing decoders and [readFlatLinearRing_] return [undefined], and
    [readFlatCoordinatesFromNode_] returns [null]; an element none of whose
    element children is known to the ring parsers is no polygon.  The parse
    context is left as it was. *)
Theorem decoders_without_content (node : Node) (c : Context) :
  (unmatched GEOMETRY_FLAT_COORDINATES_PARSERS_ node ->
   readFlatCoordinatesFromNode_ GEOMETRY_FLAT_COORDINATES_PARSERS_ node c
   = Ok Null c
   /\ readPoint GEOMETRY_FLAT_COORDINATES_PARSERS_ node c = Ok None c
   /\ readLineString GEOMETRY_FLAT_COORDINATES_PARSERS_ node c = Ok None c
   /\ readLinearRing GEOMETRY_FLAT_COORDINATES_PARSERS_ node c = Ok None c
   /\ readFlatLinearRing_ GEOMETRY_FLAT_COORDINATES_PARSERS_ node c
      = Ok None c)
  /\ (unmatched FLAT_LINEAR_RINGS_PARSERS_ node ->
      readPolygon FLAT_LINEAR_RINGS_PARSERS_ node c = Ok None c).
Proof.
  split; intros H; [|now apply polygon_unmatched].
  split; [now apply coordinates_unmatched|].
  split; [|split; [now apply lineString_unmatched|]].
  - unfold readPoint, bind. now rewrite coordinates_unmatched.
  - split.
    + unfold readLinearRing, bind. now rewrite coordinates_unmatched.
    + unfold readFlatLinearRing_, bind.
      fold (readFlatCoordinatesFromNode_ GEOMETRY_FLAT_COORDINATES_PARSERS_
              node).
      now rewrite coordinates_unmatched.
Qed.

(** X2.  [readMultiPoint] reads the Point elements inside the pointMember
    and pointMembers children of the GML namespace, in document order, and
    nothing else; the coordinates it hands to the MultiPoint constructor
    hold every result that is not [undefined], [null] included, and never
    more entries than there are such Points; it never returns [undefined]
    itself. *)
Theorem readMultiPoint_collects (node : Node) (c : Context) :
  readMultiPoint GEOMETRY_FLAT_COORDINATES_PARSERS_ node c
  = match collect readCoordinates
            (memberElements ["pointMember"; "pointMembers"] "Point" node)
            [] c with
    | Ok coordinates c' => Ok (Some (MultiPoint coordinates)) c'
    | Throw e => Throw e
    end
  /\ readMultiPoint GEOMETRY_FLAT_COORDINATES_PARSERS_ node c
     <> Ok None c
  /\ (forall coordinates c',
        readMultiPoint GEOMETRY_FLAT_COORDINATES_PARSERS_ node c
        = Ok (Some (MultiPoint coordinates)) c' ->
        Forall (fun v => v <> Undefined) coordinates
        /\ List.length coordinates
           <= List.length
                (memberElements ["pointMember"; "pointMembers"] "Point"
                   node)).
Proof.
  split; [apply readMultiPoint_run|]. rewrite readMultiPoint_run.
  destruct (collect readCoordinates _ [] c) as [coordinates c1|e] eqn:Hc.
  - split; [discriminate|]. intros coords c' H. injection H as <- _.
    refine (@collect_grows _ _ (fun v => v <> Undefined) _ _ _ _ _ _ Hc
              (Forall_nil _)).
    intros n c0 v c0' Hn. unfold readPointCoordinates, bind, ret in Hn.
    destruct (readFlatCoordinatesFromNode_ _ n c0) as [[| |flat] c2|e];
      cbn in Hn; try discriminate;
      injection Hn as <- _; discriminate.
  - split; discriminate.
Qed.

(** X3.  [readMultiLineString] and [readMultiPolygon] read the LineString
    and Polygon elements inside their member children of the GML namespace,
    under both spellings of the member element, in document order; they
    skip the members that decode to [undefined] and never return
    [undefined] themselves. *)
Theorem readMultiLineString_and_Polygon_collect (node : Node) (c : Context) :
  readMultiLineString GEOMETRY_FLAT_COORDINATES_PARSERS_ node c
  = match collect (readLineString GEOMETRY_FLAT_COORDINATES_PARSERS_)
            (memberElements ["lineStringMember"; "lineStringMembers"]
               "LineString" node)
            [] c with
    | Ok lineStrings c' => Ok (Some (MultiLineString lineStrings)) c'
    | Throw e => Throw e
    end
  /\ readMultiPolygon FLAT_LINEAR_RINGS_PARSERS_ node c
     = match collect (readPolygon FLAT_LINEAR_RINGS_PARSERS_)
             (memberElements ["polygonMember"; "polygonMembers"]
                "Polygon" node)
             [] c with
       | Ok polygons c' => Ok (Some (MultiPolygon polygons)) c'
       | Throw e => Throw e
       end.
Proof.
  split; [apply readMultiLineString_run | apply readMultiPolygon_run].
Qed.

(** X4.  The collections never hold more members than there are member
    geometries in the element, and what a MultiLineString holds are
    LineStrings of layout XYZ. *)
Theorem collections_are_bounded (node : Node) (c c' : Context)
  (members : list (Geometry number)) :
  (readMultiLineString GEOMETRY_FLAT_COORDINATES_PARSERS_ node c
   = Ok (Some (MultiLineString members)) c' ->
   Forall (fun g => exists flat, g = LineString XYZ flat) members
   /\ List.length members
      <= List.length
           (memberElements ["lineStringMember"; "lineStringMembers"]
              "LineString" node))
  /\ (readMultiPolygon FLAT_LINEAR_RINGS_PARSERS_ node c
      = Ok (Some (MultiPolygon members)) c' ->
      Forall (fun g => exists flat ends, g = Polygon XYZ flat ends) members
      /\ List.length members
         <= List.length
              (memberElements ["polygonMember"; "polygonMembers"]
                 "Polygon" node)).
Proof.
  split; intros H.
  - rewrite readMultiLineString_run in H.
    destruct (collect _ _ [] c) as [ls c1|e] eqn:Hc; [|discriminate].
    injection H as <- _.
    refine (@collect_grows _ _
              (fun g => exists flat, g = LineString XYZ flat)
              _ _ _ _ _ _ Hc (Forall_nil _)).
    intros n c0 v c0' Hn. unfold readLineString, bind, ret in Hn.
    destruct (readFlatCoordinatesFromNode_ _ n c0) as [[| |flat] c2|e];
      try discriminate.
    injection Hn as <- _. now exists flat.
  - rewrite readMultiPolygon_run in H.
    destruct (collect _ _ [] c) as [ps c1|e] eqn:Hc; [|discriminate].
    injection H as <- _.
    refine (@collect_grows _ _
              (fun g => exists flat ends, g = Polygon XYZ flat ends)
              _ _ _ _ _ _ Hc (Forall_nil _)).
    intros n c0 v c0' Hn. unfold readPolygon, bind, ret in Hn.
    destruct (pushParseAndPop _ _ n c0) as [[s0 rest] c2|e];
      [|discriminate].
    injection Hn as Hn _. unfold polygonOfRings in Hn. cbn [slot0] in Hn.
    destruct s0 as [| |ext]; try discriminate.
    destruct (extendRings _ _ _) as [flat ends]. injection Hn as <-.
    now exists flat, ends.
Qed.

(** X5.  Members without coordinates: a Point without coordinates leaves a
    [null] entry in the coordinates handed to the MultiPoint constructor,
    one per Point, because the coordinate reader returns [null] and the
    array pusher only skips [undefined]; a LineString without coordinates
    and a Polygon without rings leave nothing. *)
Theorem members_without_content (node : Node) (c : Context) :
  ((forall p,
      In p (memberElements ["pointMember"; "pointMembers"] "Point" node) ->
      unmatched GEOMETRY_FLAT_COORDINATES_PARSERS_ p) ->
   readMultiPoint GEOMETRY_FLAT_COORDINATES_PARSERS_ node c
   = Ok (Some (MultiPoint
                 (repeat Null
                    (List.length
                       (memberElements ["pointMember"; "pointMembers"]
                          "Point" node)))))
       c)
  /\ ((forall p,
         In p (memberElements ["lineStringMember"; "lineStringMembers"]
                 "LineString" node) ->
         unmatched GEOMETRY_FLAT_COORDINATES_PARSERS_ p) ->
      readMultiLineString GEOMETRY_FLAT_COORDINATES_PARSERS_ node c
      = Ok (Some (MultiLineString [])) c)
  /\ ((forall p,
         In p (memberElements ["polygonMember"; "polygonMembers"]
                 "Polygon" node) ->
         unmatched FLAT_LINEAR_RINGS_PARSERS_ p) ->
      readMultiPolygon FLAT_LINEAR_RINGS_PARSERS_ node c
      = Ok (Some (MultiPolygon [])) c).
Proof.
  repeat split; intros H.
  - rewrite readMultiPoint_run.
    rewrite (@collect_same _ readCoordinates Null); [reflexivity|].
    intros p Hp. unfold readPointCoordinates, bind.
    rewrite (coordinates_unmatched c (H p Hp)). reflexivity.
  - rewrite readMultiLineString_run.
    rewrite collect_nothing; [reflexivity|].
    intros p Hp. apply lineString_unmatched, H, Hp.
  - rewrite readMultiPolygon_run.
    rewrite collect_nothing; [reflexivity|].
    intros p Hp. apply polygon_unmatched, H, Hp.
Qed.

End Readers.

Lemma decoders_without_content_witness :
  readPoint Example.GEOMETRY_FLAT_COORDINATES_PARSERS_ Sample.emptyPoint
    Example.noContext = Ok None Example.noContext
  /\ readPolygon Example.FLAT_LINEAR_RINGS_PARSERS_ Sample.emptyPoint
       Example.noContext = Ok None Example.noContext.
Proof.
  destruct (@decoders_without_content nat
              Example.GEOMETRY_FLAT_COORDINATES_PARSERS_
              Example.FLAT_LINEAR_RINGS_PARSERS_
              Sample.emptyPoint Example.noContext) as [H1 H2].
  split.
  - apply H1. intros n [].
  - apply H2. intros n [].
Defined.

Lemma readMultiPoint_collects_witness :
  Forall (fun v : JsOpt (list nat) => v <> Undefined)
    [Defined [1; 2]; Null; Defined [3; 4]]
  /\ 3 <= 3.
Proof.
  refine (proj2 (proj2 (@readMultiPoint_collects nat
                          Example.GEOMETRY_FLAT_COORDINATES_PARSERS_
                          Sample.multiPoint Example.noContext))
            _ Example.noContext _).
  vm_compute. reflexivity.
Defined.

Lemma collections_are_bounded_witness :
  (Forall (fun g => exists flat, g = LineString XYZ flat)
     [LineString XYZ [0; 0; 1; 1]; LineString XYZ [2; 2; 3; 3]]
   /\ 2 <= 3)
  /\ (Forall (fun g => exists flat ends, g = Polygon XYZ flat ends)
        [Polygon XYZ [0; 0; 9; 0; 9; 9; 0; 9; 0; 0; 1; 1; 2; 1; 2; 2; 1; 1]
           [10; 18]]
      /\ 1 <= 1).
Proof.
  split.
  - refine (proj1 (@collections_are_bounded nat
                     Example.GEOMETRY_FLAT_COORDINATES_PARSERS_
                     Example.FLAT_LINEAR_RINGS_PARSERS_
                     Sample.multiLineString Example.noContext
                     Example.noContext _) _).
    vm_compute. reflexivity.
  - refine (proj2 (@collections_are_bounded nat
                     Example.GEOMETRY_FLAT_COORDINATES_PARSERS_
                     Example.FLAT_LINEAR_RINGS_PARSERS_
                     Sample.multiPolygon Example.noContext
                     Example.noContext _) _).
    vm_compute. reflexivity.
Defined.

Lemma members_without_content_witness :
  readMultiPoint Example.GEOMETRY_FLAT_COORDINATES_PARSERS_
    Sample.emptyMultiPoint Example.noContext
  = Ok (Some (MultiPoint [Null; Null; Null])) Example.noContext
  /\ readMultiLineString Example.GEOMETRY_FLAT_COORDINATES_PARSERS_
       (Example.gml "MultiLineString" []
          [Example.gml "lineStringMember" []
             [Example.gml "LineString" [] []]])
       Example.noContext
     = Ok (Some (MultiLineString [])) Example.noContext
  /\ readMultiPolygon Example.FLAT_LINEAR_RINGS_PARSERS_
       (Example.gml "MultiPolygon" []
          [Example.gml "polygonMember" [] [Example.gml "Polygon" [] []]])
       Example.noContext
     = Ok (Some (MultiPolygon [])) Example.noContext.
Proof.
  split; [|split].
  - refine (proj1 (@members_without_content nat
                     Example.GEOMETRY_FLAT_COORDINATES_PARSERS_
                     Example.FLAT_LINEAR_RINGS_PARSERS_
                     Sample.emptyMultiPoint Example.noContext) _).
    intros p Hp n Hn. vm_compute in Hp.
    destruct Hp as [<-|[<-|[<-|[]]]]; destruct Hn.
  - refine (proj1 (proj2 (@members_without_content nat
                            Example.GEOMETRY_FLAT_COORDINATES_PARSERS_
                            Example.FLAT_LINEAR_RINGS_PARSERS_
                            _ Example.noContext)) _).
    intros p Hp n Hn. vm_compute in Hp.
    destruct Hp as [<-|[]]; destruct Hn.
  - refine (proj2 (proj2 (@members_without_content nat
                            Example.GEOMETRY_FLAT_COORDINATES_PARSERS_
                            Example.FLAT_LINEAR_RINGS_PARSERS_
                            _ Example.noContext)) _).
    intros p Hp n Hn. vm_compute in Hp.
    destruct Hp as [<-|[]]; destruct Hn.
Defined.

End CollectionFacts.

(** ** The rings of a decoded polygon *)

Module RingFacts.

Import Xml GMLBase Described Dispatch.

Section Rings.

Variable number : Type.

Lemma skipn_length_app (A : Type) (pre rest : list A) :
  skipn (List.length pre) (pre ++ rest) = rest.
Proof.
  induction pre as [|x pre IH]; [reflexivity | exact IH].
Qed.

Lemma firstn_length_app (A : Type) (ring rest : list A) :
  firstn (List.length ring) (ring ++ rest) = ring.
Proof.
  induction ring as [|x ring IH]; [reflexivity|].
  cbn. now rewrite IH.
Qed.

Lemma ringsOf_ringEnds (rings : list (list number)) :
  forall pre,
    ringsOf (pre ++ List.concat rings) (List.length pre)
      (ringEnds (List.length pre) rings)
    = rings.
Proof.
  induction rings as [|ring rest IH]; intros pre; [reflexivity|].
  cbn [ringEnds ringsOf List.concat].
  replace (List.length pre + List.length ring - List.length pre)
    with (List.length ring) by lia.
  rewrite skipn_length_app, firstn_length_app. f_equal.
  rewrite app_assoc, <- length_app. apply IH.
Qed.

Variable FLAT_LINEAR_RINGS_PARSERS_ : ParsersNS (FlatLinearRings number).

(** X6.  The polygon that [readPolygon] returns keeps every ring: cutting
    its flat coordinates at its ends gives back the decoded rings, the
    exterior ring first and the interior rings in the order of the frame,
    and nothing of the flat coordinates lies outside the rings. *)
Theorem readPolygon_keeps_the_rings (node : Node) (c c' : Context)
  (layout : GeometryLayout) (flatCoordinates : list number)
  (ends : list nat) :
  readPolygon FLAT_LINEAR_RINGS_PARSERS_ node c
  = Ok (Some (Polygon layout flatCoordinates ends)) c' ->
  exists exterior interiors,
    pushParseAndPop (mkFlatLinearRings Null []) FLAT_LINEAR_RINGS_PARSERS_
      node c
    = Ok (mkFlatLinearRings (Defined exterior) interiors) c'
    /\ ringsOf flatCoordinates 0 ends = exterior :: interiors
    /\ List.concat (ringsOf flatCoordinates 0 ends) = flatCoordinates.
Proof.
  rewrite PolygonFacts.readPolygon_run.
  destruct (pushParseAndPop _ _ node c) as [[s0 interiors] c1|e];
    [|discriminate].
  destruct s0 as [| |exterior]; try discriminate.
  rewrite PolygonFacts.polygonOfRings_defined.
  intros H. injection H as _ <- <- <-.
  exists exterior, interiors.
  assert (Hr : ringsOf (List.concat (exterior :: interiors)) 0
                 (ringEnds 0 (exterior :: interiors))
               = exterior :: interiors)
    by exact (ringsOf_ringEnds (exterior :: interiors) []).
  split; [reflexivity|]. split; [exact Hr|].
  change (List.concat (ringsOf (List.concat (exterior :: interiors)) 0
                         (ringEnds 0 (exterior :: interiors)))
          = List.concat (exterior :: interiors)).
  now rewrite Hr.
Qed.

End Rings.

Lemma readPolygon_keeps_the_rings_witness :
  ringsOf [0; 0; 9; 0; 9; 9; 0; 9; 0; 0; 1; 1; 2; 1; 2; 2; 1; 1] 0 [10; 18]
  = [[0; 0; 9; 0; 9; 9; 0; 9; 0; 0]; [1; 1; 2; 1; 2; 2; 1; 1]].
Proof.
  destruct (@readPolygon_keeps_the_rings nat
              Example.FLAT_LINEAR_RINGS_PARSERS_ Example.polygonWithHole
              Example.noContext Example.noContext XYZ
              [0; 0; 9; 0; 9; 9; 0; 9; 0; 0; 1; 1; 2; 1; 2; 2; 1; 1]
              [10; 18])
    as (exterior & interiors & Hparse & Hrings & _).
  - vm_compute. reflexivity.
  - vm_compute in Hparse. injection Hparse as <- <-. exact Hrings.
Defined.

End RingFacts.

(** ** Geometry properties and feature elements *)

Module ElementFacts.

Import Xml GMLBase Described Dispatch ParseFacts ObjectFacts FeatureFacts.
Local Open Scope string_scope.

Section Elements.

Variable number : Type.
Variable GEOMETRY_PARSERS_ : ParsersNS (JsOpt (Geometry number)).
Variable transformWithOptions :
  Geometry number -> Context -> Geometry number.

Local Notation "'readChildren'" :=
  (readFeatureChildren GEOMETRY_PARSERS_ transformWithOptions).
Local Notation "'readGeometry'" :=
  (readGeometryElement GEOMETRY_PARSERS_ transformWithOptions).
Local Notation "'readFeature'" :=
  (readFeatureElement GEOMETRY_PARSERS_ transformWithOptions).

Lemma readGeometryElement_unmatched (node first : Node) (c : Context) :
  firstElementChild node = Some first ->
  unmatched GEOMETRY_PARSERS_ node ->
  readGeometry node c
  = Ok None (setSrs c (getAttribute first "srsName")
               (getAttribute first "srsDimension")).
Proof.
  intros Hfirst Hu. unfold readGeometryElement. rewrite Hfirst.
  unfold bind, getContext, putContext.
  now rewrite (pushParseAndPop_unmatched Null _ Hu).
Qed.

Lemma readGeometryElement_run (node first : Node) (c : Context) :
  firstElementChild node = Some first ->
  readGeometry node c
  = match pushParseAndPop Null GEOMETRY_PARSERS_ node
            (setSrs c (getAttribute first "srsName")
               (getAttribute first "srsDimension")) with
    | Ok (Defined geometry) c' =>
        Ok (Some (transformWithOptions geometry c')) c'
    | Ok _ c' => Ok None c'
    | Throw e => Throw e
    end.
Proof.
  intros Hfirst. unfold readGeometryElement. rewrite Hfirst.
  unfold bind, getContext, putContext.
  destruct (pushParseAndPop Null GEOMETRY_PARSERS_ node _)
    as [[| |geometry] c'|e]; reflexivity.
Qed.

(** X8.  [readGeometryElement] captures the reference system of the element
    it is given.  For an element whose first element child is [first], what
    the context held as srsName and srsDimension before is overwritten, so
    that the result does not depend on it; the geometry parsers run, and the
    decoded geometry is transformed, with a context that holds the srsName
    and srsDimension attributes of [first], [null] where [first] has none;
    and when the parsers of the versioned format do not write the two, the
    context holds them when [readGeometryElement] returns, with a geometry
    or without one.  For an element none of whose element children is a
    known geometry it returns [undefined], and [readGeometryFromNode]
    returns [null].  For an element without element children both throw a
    TypeError. *)
Theorem readGeometryElement_captures_srs (node : Node) (c : Context) :
  (forall first,
     firstElementChild node = Some first ->
     let name := getAttribute first "srsName" in
     let dimension := getAttribute first "srsDimension" in
     (forall s d, readGeometry node (setSrs c s d) = readGeometry node c)
     /\ (forall g c',
           readGeometry node c = Ok g c' ->
           exists popped,
             pushParseAndPop Null GEOMETRY_PARSERS_ node
               (setSrs c name dimension) = Ok popped c'
             /\ g = match popped with
                    | Defined geometry =>
                        Some (transformWithOptions geometry c')
                    | _ => None
                    end)
     /\ (tablesKeep srsOf GEOMETRY_PARSERS_ ->
         forall g c',
           readGeometry node c = Ok g c' ->
           srsName c' = name /\ srsDimension c' = dimension)
     /\ (unmatched GEOMETRY_PARSERS_ node ->
         readGeometry node c = Ok None (setSrs c name dimension)
         /\ readGeometryFromNode GEOMETRY_PARSERS_ transformWithOptions node
            = Ok Null
                (setSrs (initialContext FTUndefined NSUndefined)
                   name dimension)))
  /\ (firstElementChild node = None ->
      readGeometry node c = Throw TypeError
      /\ readGeometryFromNode GEOMETRY_PARSERS_ transformWithOptions node
         = Throw TypeError).
Proof.
  split.
  - intros first Hfirst name dimension. split; [|split; [|split]].
    + intros s d.
      now rewrite (@readGeometryElement_run node first (setSrs c s d) Hfirst),
        (@readGeometryElement_run node first c Hfirst).
    + intros g c' H. rewrite (@readGeometryElement_run node first c Hfirst) in H.
      fold name dimension in H.
      destruct (pushParseAndPop Null GEOMETRY_PARSERS_ node _)
        as [popped c1|e]; [|discriminate].
      exists popped.
      destruct popped; injection H as <- <-; split; reflexivity.
    + intros Ht g c' H. rewrite (@readGeometryElement_run node first c Hfirst) in H.
      fold name dimension in H.
      destruct (pushParseAndPop Null GEOMETRY_PARSERS_ node _)
        as [popped c1|e] eqn:Hp; [|discriminate].
      apply (FrameFacts.keeps_pushParseAndPop Ht Null node) in Hp.
      assert (Hc : c1 = c') by (destruct popped; now injection H).
      subst c1. unfold srsOf in Hp. cbn in Hp.
      now injection Hp.
    + intros Hu. split; [now apply readGeometryElement_unmatched|].
      unfold readGeometryFromNode.
      now rewrite (readGeometryElement_unmatched _ Hfirst Hu).
  - intros Hnone. unfold readGeometryFromNode, readGeometryElement.
    rewrite Hnone. split; reflexivity.
Qed.

Lemma readFeatureChildren_throws (children : list Node) :
  Exists lacksElement children ->
  forall values name c,
    exists e, readChildren children values name c = Throw e.
Proof.
  induction children as [|n rest IH]; intros H values name c;
    [inversion H|].
  cbn [readFeatureChildren].
  destruct (isAttributeElement n) eqn:Ha.
  - apply IH. inversion H as [? ? [Hn _]|]; subst; [congruence | assumption].
  - unfold bind. destruct (readGeometry n c) as [g c1|e] eqn:Hg;
      [|now exists e].
    apply IH. inversion H as [? ? [_ Hn]|]; subst; [|assumption].
    unfold readGeometryElement in Hg. rewrite Hn in Hg. discriminate.
Qed.

(** X9.  [readFeatureElement] returns no feature when a child that is taken
    for a geometry has no element child: an exception aborts it, whatever the
    parsers of the versioned format do and wherever the child stands among
    the children.  When the children before that child are decoded without
    an exception, the exception is the TypeError of reading an attribute of
    the first element child, which is [null]. *)
Theorem readFeatureElement_exceptions (node : Node) (c : Context) :
  (Exists lacksElement (elementChildren node) ->
   exists e, readFeature node c = Throw e)
  /\ (forall before n after r c1,
        elementChildren node = (before ++ n :: after)%list ->
        lacksElement n ->
        readChildren before [] None c = Ok r c1 ->
        readFeature node c = Throw TypeError).
Proof.
  split.
  - intros H. unfold readFeatureElement, bind.
    destruct (readFeatureChildren_throws H [] None c) as (e & ->).
    now exists e.
  - intros before n after [values name] c1 Hsplit [Ha Hnone] Hbefore.
    unfold readFeatureElement, bind.
    rewrite Hsplit, readFeatureChildren_app, Hbefore.
    cbn [readFeatureChildren]. rewrite Ha. unfold bind, readGeometryElement.
    now rewrite Hnone.
Qed.

Lemma readFeatureChildren_text (children : list Node) :
  Forall (fun n => isAttributeElement n = true) children ->
  forall values name c,
    readChildren children values name c
    = Ok (fold_left
            (fun o n => JsObject.set o (localName n) (textValue number n))
            children values,
          name) c.
Proof.
  induction 1 as [|n rest Hn _ IH]; intros values name c; [reflexivity|].
  cbn [readFeatureChildren fold_left]. rewrite Hn. apply IH.
Qed.

(** X10.  A feature element whose children are all text properties, none
    of them named geometry, is decoded without the geometry parsers and
    without the parse context: the values are handed to the Feature
    constructor for every context, the context is left as it was, no
    geometry name is set, and the same comes out under any other tables and
    context.  (ol/Feature is not among the sources; its constructor takes a
    property named geometry for the geometry of the feature, so that name is
    left out here.) *)
Theorem readFeatureElement_of_text (node : Node) (c : Context) :
  Forall (fun n => isAttributeElement n = true) (elementChildren node) ->
  Forall (fun n => localName n <> "geometry") (elementChildren node) ->
  exists feature,
    readFeature node c = Ok feature c
    /\ featureGeometryName feature = None
    /\ featureValues feature
       = fold_left
           (fun o n => JsObject.set o (localName n) (textValue number n))
           (elementChildren node) []
    /\ (forall parsers transform c2,
          readFeatureElement parsers transform node c2 = Ok feature c2).
Proof.
  intros H _. unfold readFeatureElement, bind.
  rewrite (readFeatureChildren_text H). eexists.
  split; [reflexivity|]. split; [reflexivity|]. split; [reflexivity|].
  intros parsers transform c2.
  clear c. revert H. generalize (elementChildren node).
  intros children H.
  assert (Hloop : forall values name,
    readFeatureChildren parsers transform children values name c2
    = Ok (fold_left
            (fun o n => JsObject.set o (localName n) (textValue number n))
            children values,
          name) c2).
  { induction H as [|n rest Hn _ IH]; intros values name; [reflexivity|].
    cbn [readFeatureChildren fold_left]. rewrite Hn. apply IH. }
  now rewrite Hloop.
Qed.

Lemma readFeatureChildren_keys_exact (children : list Node) :
  forall values name c values' name' c' seen,
    readChildren children values name c = Ok (values', name') c' ->
    (forall k, JsString.includes k seen
               = JsString.includes k (JsObject.keys values)) ->
    JsObject.keys values'
    = (JsObject.keys values ++ firstNames seen (map localName children))%list.
Proof.
  induction children as [|n rest IH];
    intros values name c values' name' c' seen H Hseen.
  - cbn in H. injection H as <- _ _. cbn. now rewrite app_nil_r.
  - assert (Hstep : forall v values1,
      values1 = JsObject.set values (localName n) v ->
      forall name1 c1,
        readChildren rest values1 name1 c1 = Ok (values', name') c' ->
        JsObject.keys values'
        = (JsObject.keys values
           ++ firstNames seen (map localName (n :: rest)))%list).
    { intros v values1 -> name1 c1 Hrest.
      cbn [map firstNames]. rewrite Hseen.
      pose proof (keys_set values (localName n) v) as Hk.
      destruct (JsString.includes (localName n) (JsObject.keys values))
        eqn:Hin.
      - rewrite (IH _ _ _ _ _ _ seen Hrest), Hk; [reflexivity|].
        intros k. now rewrite Hk.
      - rewrite (IH _ _ _ _ _ _ (localName n :: seen) Hrest), Hk.
        + now rewrite <- app_assoc.
        + intros k. rewrite Hk. unfold JsString.includes in *.
          rewrite existsb_app. cbn [existsb].
          rewrite Hseen, orb_false_r. apply orb_comm. }
    cbn [readFeatureChildren] in H.
    destruct (isAttributeElement n).
    + eapply Hstep; [reflexivity | exact H].
    + unfold bind in H.
      destruct (readGeometry n c) as [g c1|e]; [|discriminate].
      eapply Hstep; [reflexivity | exact H].
Qed.

Lemma firstNames_fresh (names : list string) :
  forall seen,
    NoDup (firstNames seen names)
    /\ (forall k, In k (firstNames seen names) ->
          JsString.includes k seen = false).
Proof.
  induction names as [|k rest IH]; intros seen; cbn [firstNames].
  - split; [constructor | intros ? []].
  - destruct (JsString.includes k seen) eqn:Hk; [apply IH|].
    destruct (IH (k :: seen)) as [Hnd Hfresh]. split.
    + constructor; [|exact Hnd].
      intros Hin. apply Hfresh in Hin. unfold JsString.includes in Hin.
      cbn [existsb] in Hin. now rewrite String.eqb_refl in Hin.
    + intros k' [<-|Hin]; [exact Hk|].
      apply Hfresh in Hin. unfold JsString.includes in *.
      cbn [existsb] in Hin. now apply orb_false_elim in Hin.
Qed.

(** X11.  The properties of a decoded feature are keyed by the local names
    of the element children of the feature element: each name once, in the
    order in which the names are first met. *)
Theorem readFeatureElement_keys (node : Node) (c c' : Context)
  (feature : Feature number) :
  readFeature node c = Ok feature c' ->
  JsObject.keys (featureValues feature)
  = firstNames [] (map localName (elementChildren node))
  /\ NoDup (JsObject.keys (featureValues feature)).
Proof.
  unfold readFeatureElement, bind. intros H.
  destruct (readChildren (elementChildren node) [] None c)
    as [[values name] c1|e] eqn:Hloop; [|discriminate].
  injection H as <- _. cbn [featureValues].
  rewrite (readFeatureChildren_keys_exact _ _ _ _ [] Hloop (fun k => eq_refl)).
  split; [reflexivity|]. apply firstNames_fresh.
Qed.

(** X12.  A text property is found under its local name: when no later
    child of the feature element has the same local name, the value is the
    text of the child, or [undefined] when the text is blank.  A later
    child of the same name overwrites the value. *)
Theorem readFeatureElement_text_value (node : Node) (c c' : Context)
  (feature : Feature number) (before after : list Node) (n : Node) :
  readFeature node c = Ok feature c' ->
  elementChildren node = (before ++ n :: after)%list ->
  isAttributeElement n = true ->
  Forall (fun m => localName m <> localName n) after ->
  JsObject.get (featureValues feature) (localName n)
  = Some (textValue number n).
Proof.
  unfold readFeatureElement, bind. intros H Hsplit Hn Hafter.
  rewrite Hsplit, readFeatureChildren_app in H.
  destruct (readChildren before [] None c) as [[v1 n1] c1|e];
    [|discriminate].
  cbn [readFeatureChildren] in H. rewrite Hn in H.
  destruct (readChildren after _ n1 c1) as [[values name] c2|e] eqn:Hloop;
    [|discriminate].
  injection H as <- _. cbn [featureValues].
  rewrite (@readFeatureChildren_get_other _ _ _ _ _ Hafter _ _ _ _ _ _ Hloop).
  apply get_set_same.
Qed.

(** X13.  The identifier of a decoded feature is the fid attribute when it
    is present and not empty, and else the id attribute of the GML
    namespace when that is not empty; a feature never has the empty string
    as its identifier. *)
Theorem readFeatureElement_id (node : Node) (c c' : Context)
  (feature : Feature number) :
  readFeature node c = Ok feature c' ->
  featureId feature <> Some EmptyString
  /\ (forall fid, getAttribute node "fid" = Some fid -> fid <> EmptyString ->
        featureId feature = Some fid)
  /\ (getAttribute node "fid" = None
      \/ getAttribute node "fid" = Some EmptyString ->
      featureId feature
      = if JsString.nonEmpty (getAttributeNS node GMLNS "id")
        then Some (getAttributeNS node GMLNS "id") else None).
Proof.
  unfold readFeatureElement, bind. intros H.
  destruct (readChildren (elementChildren node) [] None c)
    as [[values name] c1|e]; [|discriminate].
  injection H as <- _. cbn [featureId]. split; [|split].
  - destruct (truthyString (getAttribute node "fid")) as [fid|];
      cbn [truthyString].
    + destruct fid; cbn; discriminate.
    + destruct (getAttributeNS node GMLNS "id"); cbn; discriminate.
  - intros fid -> Hne. cbn [truthyString].
    destruct fid; [congruence | reflexivity].
  - intros [->| ->]; reflexivity.
Qed.

End Elements.

Lemma readGeometryElement_captures_srs_witness :
  (exists c',
     readGeometryElement Example.GEOMETRY_PARSERS_
       Example.transformWithOptions
       (Example.el "app" "start" "http://example.org/app" [Example.point2D])
       (mkContext FTUndefined NSUndefined (Some "EPSG:3857") (Some "3"))
     = Ok (Some (Point XYZ [1; 2])) c'
     /\ srsName c' = None /\ srsDimension c' = Some "2")
  /\ readGeometryElement Example.GEOMETRY_PARSERS_
       Example.transformWithOptions Sample.unknownGeometry
       (mkContext FTUndefined NSUndefined (Some "EPSG:3857") (Some "3"))
     = Ok None (mkContext FTUndefined NSUndefined (Some "EPSG:4326") None)
  /\ readGeometryElement Example.GEOMETRY_PARSERS_
       Example.transformWithOptions Sample.emptyPoint Example.noContext
     = Throw TypeError.
Proof.
  split; [|split].
  - destruct (readGeometryElement Example.GEOMETRY_PARSERS_
                Example.transformWithOptions
                (Example.el "app" "start" "http://example.org/app"
                   [Example.point2D])
                (mkContext FTUndefined NSUndefined (Some "EPSG:3857")
                   (Some "3"))) as [g c'|e] eqn:H;
      [|vm_compute in H; discriminate].
    destruct (readGeometryElement_captures_srs Example.GEOMETRY_PARSERS_
                Example.transformWithOptions
                (Example.el "app" "start" "http://example.org/app"
                   [Example.point2D])
                (mkContext FTUndefined NSUndefined (Some "EPSG:3857")
                   (Some "3"))) as [Hsome _].
    destruct (Hsome Example.point2D eq_refl) as (_ & _ & Hkept & _).
    destruct (Hkept (@FrameFacts.example_geometry_keep _ srsOf) g c' H)
      as [Hname Hdimension].
    exists c'. split; [|split; [exact Hname | exact Hdimension]].
    vm_compute in H. injection H as <- _. reflexivity.
  - destruct (readGeometryElement_captures_srs Example.GEOMETRY_PARSERS_
                Example.transformWithOptions Sample.unknownGeometry
                (mkContext FTUndefined NSUndefined (Some "EPSG:3857")
                   (Some "3"))) as [H _].
    refine (proj1 (proj2 (proj2 (proj2 (H _ eq_refl))) _)).
    intros n [<-|[]]. reflexivity.
  - destruct (readGeometryElement_captures_srs Example.GEOMETRY_PARSERS_
                Example.transformWithOptions Sample.emptyPoint
                Example.noContext) as [_ H'].
    exact (proj1 (H' eq_refl)).
Defined.

Lemma readFeatureElement_exceptions_witness :
  (exists e,
     Example.decodeFeatureElement
       (Example.el "app" "road" "http://example.org/app"
          [Example.el "app" "start" "http://example.org/app"
             [Example.point2D];
           Example.el "app" "name" "http://example.org/app"
             [Comment "unnamed"]])
       Example.noContext = Throw e)
  /\ Example.decodeFeatureElement Example.featureWithComment Example.noContext
     = Throw TypeError.
Proof.
  split.
  - apply (proj1 (readFeatureElement_exceptions Example.GEOMETRY_PARSERS_
                    Example.transformWithOptions _ Example.noContext)).
    apply Exists_cons_tl, Exists_cons_hd. split; reflexivity.
  - refine (proj2 (readFeatureElement_exceptions Example.GEOMETRY_PARSERS_
                     Example.transformWithOptions Example.featureWithComment
                     Example.noContext)
              [] _ [] ([], None) Example.noContext eq_refl _ eq_refl).
    split; reflexivity.
Defined.

Lemma readFeatureElement_of_text_witness :
  exists feature : Feature nat,
    Example.decodeFeatureElement Sample.featureOfText Example.noContext
    = Ok feature Example.noContext
    /\ featureGeometryName feature = None
    /\ featureValues feature
       = [("name", PText "A1 north"); ("lanes", PText "2");
          ("note", PUndefined)].
Proof.
  destruct (@readFeatureElement_of_text nat Example.GEOMETRY_PARSERS_
              Example.transformWithOptions Sample.featureOfText
              Example.noContext) as (feature & H1 & H2 & H3 & _).
  - cbn. repeat constructor.
  - cbn. repeat constructor; discriminate.
  - exists feature. split; [exact H1|]. split; [exact H2 | exact H3].
Defined.

Lemma readFeatureElement_keys_witness :
  exists feature : Feature nat,
    Example.decodeFeatureElement Sample.featureOfText Example.noContext
    = Ok feature Example.noContext
    /\ JsObject.keys (featureValues feature) = ["name"; "lanes"; "note"].
Proof.
  eexists. split; [vm_compute; reflexivity|].
  refine (proj1 (@readFeatureElement_keys nat Example.GEOMETRY_PARSERS_
                   Example.transformWithOptions Sample.featureOfText
                   Example.noContext Example.noContext _ _)).
  vm_compute. reflexivity.
Defined.

Lemma readFeatureElement_text_value_witness :
  exists feature : Feature nat,
    Example.decodeFeatureElement Sample.featureOfText Example.noContext
    = Ok feature Example.noContext
    /\ JsObject.get (featureValues feature) "name" = Some (PText "A1 north")
    /\ JsObject.get (featureValues feature) "note" = Some PUndefined.
Proof.
  eexists. split; [vm_compute; reflexivity|]. split.
  - refine (@readFeatureElement_text_value nat Example.GEOMETRY_PARSERS_
              Example.transformWithOptions Sample.featureOfText
              Example.noContext Example.noContext _
              [Example.el "app" "name" "http://example.org/app" [Text "A1"];
               Example.el "app" "lanes" "http://example.org/app" [Text "2"];
               Example.el "app" "note" "http://example.org/app" [Text "  "]]
              []
              (Example.el "app" "name" "http://example.org/app"
                 [CDATASection "A1 north"])
              _ eq_refl eq_refl (Forall_nil _)).
    vm_compute. reflexivity.
  - refine (@readFeatureElement_text_value nat Example.GEOMETRY_PARSERS_
              Example.transformWithOptions Sample.featureOfText
              Example.noContext Example.noContext _
              [Example.el "app" "name" "http://example.org/app" [Text "A1"];
               Example.el "app" "lanes" "http://example.org/app" [Text "2"]]
              [Example.el "app" "name" "http://example.org/app"
                 [CDATASection "A1 north"]]
              (Example.el "app" "note" "http://example.org/app" [Text "  "])
              _ eq_refl eq_refl _).
    + vm_compute. reflexivity.
    + repeat constructor. discriminate.
Defined.

Lemma readFeatureElement_id_witness :
  exists feature : Feature nat,
    Example.decodeFeatureElement Sample.featureOfText Example.noContext
    = Ok feature Example.noContext
    /\ featureId feature = Some "r1".
Proof.
  eexists. split; [vm_compute; reflexivity|].
  refine (proj2 (proj2 (@readFeatureElement_id nat Example.GEOMETRY_PARSERS_
                          Example.transformWithOptions Sample.featureOfText
                          Example.noContext Example.noContext _ _))
            (or_intror eq_refl)).
  vm_compute. reflexivity.
Defined.

End ElementFacts.

(** ** The parsers built from the feature types *)

Module DispatchFacts.

Import Xml GMLBase Described Dispatch ParseFacts ObjectFacts.
Local Open Scope string_scope.

Section Built.

Variable T : Type.
Variable parser : Parser T.

Lemma get_parsersFor_from (p k : string) (types : list string) :
  forall parsers,
    JsObject.get
      (fold_left
         (fun parsers ft =>
            if typePrefix ft =? p
            then JsObject.set parsers (typeName ft) parser
            else parsers)
         types parsers) k
    = if declares types p k then Some parser else JsObject.get parsers k.
Proof.
  induction types as [|ft rest IH]; intros parsers; [reflexivity|].
  cbn [fold_left]. rewrite IH. unfold declares. cbn [existsb].
  fold (declares rest p k).
  destruct (declares rest p k); [now rewrite orb_true_r|].
  rewrite orb_false_r.
  destruct (typePrefix ft =? p); cbn [andb]; [|reflexivity].
  destruct (typeName ft =? k) eqn:E.
  - apply String.eqb_eq in E. subst k. apply get_set_same.
  - apply String.eqb_neq in E. apply get_set_other. congruence.
Qed.

Lemma get_parsersFor (p k : string) (types : list string) :
  JsObject.get (parsersFor parser p types) k
  = if declares types p k then Some parser else None.
Proof.
  exact (get_parsersFor_from p k types []).
Qed.

Lemma get_buildParsersNS_from (types : list string) (key : string)
  (featureNS : JsObject.t (option string)) :
  forall parsersNS,
    JsObject.get
      (fold_left
         (fun parsersNS entry =>
            JsObject.set parsersNS (keyOf (snd entry))
              (parsersFor parser (fst entry) types))
         featureNS parsersNS) key
    = match prefixOfKey featureNS key with
      | Some p => Some (parsersFor parser p types)
      | None => JsObject.get parsersNS key
      end.
Proof.
  induction featureNS as [|[p u] rest IH]; intros parsersNS; [reflexivity|].
  cbn [fold_left prefixOfKey fst snd]. rewrite IH.
  destruct (prefixOfKey rest key); [reflexivity|].
  destruct (keyOf u =? key) eqn:E.
  - apply String.eqb_eq in E. subst key. apply get_set_same.
  - apply String.eqb_neq in E. apply get_set_other. congruence.
Qed.

Lemma dispatched_built (featureNS : JsObject.t (option string))
  (types : list string) (n : Node) :
  dispatched (buildParsersNS parser featureNS types) n
  = match prefixOfKey featureNS (keyOf (namespaceURI n)) with
    | Some p =>
        if declares types p (localName n) then Some parser else None
    | None => None
    end.
Proof.
  unfold dispatched, buildParsersNS. rewrite get_buildParsersNS_from.
  destruct (prefixOfKey featureNS (keyOf (namespaceURI n))) as [p|];
    [|reflexivity].
  apply get_parsersFor.
Qed.

(** X14.  Which children of a container are features: a child is given the
    feature parser exactly when its namespace URI, read as a key, is the
    URI of a prefix of the namespaces object and the feature types declare
    its local name under that prefix, where an unprefixed type counts for
    the prefix p0.  When several prefixes have that URI, only the types of
    the last one count. *)
Theorem dispatch_of_feature_types (featureNS : JsObject.t (option string))
  (types : list string) (n : Node) (top : T) (c : Context) :
  dispatched (buildParsersNS parser featureNS types) n
  = match prefixOfKey featureNS (keyOf (namespaceURI n)) with
    | Some p =>
        if declares types p (localName n) then Some parser else None
    | None => None
    end
  /\ applyParser (buildParsersNS parser featureNS types) n top c
     = match prefixOfKey featureNS (keyOf (namespaceURI n)) with
       | Some p =>
           if declares types p (localName n) then parser n top c
           else Ok top c
       | None => Ok top c
       end.
Proof.
  split; [apply dispatched_built|].
  rewrite applyParser_dispatched, dispatched_built.
  destruct (prefixOfKey featureNS (keyOf (namespaceURI n))) as [p|];
    [|reflexivity].
  destruct (declares types p (localName n)); reflexivity.
Qed.

End Built.

End DispatchFacts.

(** ** Containers of features *)

Module MemberFacts.

Import Xml GMLBase Described Dispatch ParseFacts ObjectFacts FrameFacts.
Local Open Scope string_scope.

Lemma split_plain (sep : ascii) (s : string) :
  JsString.contains sep s = false -> JsString.split sep s = [s].
Proof.
  induction s as [|a s IH]; [reflexivity|].
  cbn. intros H. apply orb_false_elim in H as [Ha Hs].
  rewrite Ha, (IH Hs). reflexivity.
Qed.

Lemma split_qualified (sep : ascii) (a b : string) :
  JsString.contains sep a = false ->
  JsString.split sep (a ++ String sep b) = a :: JsString.split sep b.
Proof.
  induction a as [|x a IH]; cbn.
  - intros _. now rewrite Ascii.eqb_refl.
  - intros H. apply orb_false_elim in H as [Hx Ha].
    rewrite Hx, (IH Ha). reflexivity.
Qed.

Lemma decimal_no_colon (d : Decimal.uint) :
  JsString.contains JsString.colon (NilEmpty.string_of_uint d) = false.
Proof.
  induction d; cbn; auto.
Qed.

Lemma syntheticPrefix_no_colon (i : nat) :
  JsString.contains JsString.colon (syntheticPrefix i) = false.
Proof.
  unfold syntheticPrefix, JsString.ofNat. cbn. apply decimal_no_colon.
Qed.

Lemma typeName_no_colon (s : string) :
  JsString.contains JsString.colon (typeName s) = false.
Proof.
  apply DiscoveryFacts.pop_no_colon.
Qed.

Lemma qualifiedName_parts (p : string) (child : Node) :
  JsString.contains JsString.colon p = false ->
  typePrefix (qualifiedName p child) = p
  /\ typeName (qualifiedName p child) = typeName (nodeName child).
Proof.
  intros Hp. unfold typePrefix, typeName, qualifiedName.
  rewrite DiscoveryFacts.qualified_has_colon. cbn [negb].
  change (p ++ ":" ++ JsString.pop
                        (JsString.split JsString.colon (nodeName child)))
    with (p ++ String JsString.colon
                 (JsString.pop
                    (JsString.split JsString.colon (nodeName child)))).
  rewrite (@split_qualified _ _ _ Hp).
  rewrite (@split_plain _ _ (DiscoveryFacts.pop_no_colon (nodeName child))).
  split; reflexivity.
Qed.

Lemma prefixOfKey_none (ns : JsObject.t (option string)) (key : string) :
  ~ In key (map (fun e => keyOf (snd e)) ns) -> prefixOfKey ns key = None.
Proof.
  induction ns as [|[p u] rest IH]; cbn; intros H; [reflexivity|].
  rewrite IH by tauto.
  destruct (keyOf u =? key) eqn:E; [|reflexivity].
  apply String.eqb_eq in E. tauto.
Qed.

Lemma prefixOfKey_unique (ns : JsObject.t (option string)) (q : string)
  (u : option string) :
  NoDup (map (fun e => keyOf (snd e)) ns) ->
  In (q, u) ns -> prefixOfKey ns (keyOf u) = Some q.
Proof.
  induction ns as [|[p u0] rest IH]; cbn; intros Hnd Hin; [contradiction|].
  inversion Hnd as [|? ? Hfresh Hrest]; subst.
  destruct Hin as [E|Hin].
  - injection E as -> ->. rewrite (@prefixOfKey_none _ _ Hfresh).
    now rewrite String.eqb_refl.
  - now rewrite (IH Hrest Hin).
Qed.

Lemma Forall2_partner (A B : Type) (R : A -> B -> Prop) (l : list A)
  (l' : list B) :
  Forall2 R l l' -> forall x, In x l -> exists y, In y l' /\ R x y.
Proof.
  induction 1 as [|a b l l' Hab _ IH]; intros x Hx; [contradiction|].
  destruct Hx as [<-|Hx].
  - exists b. split; [now left | exact Hab].
  - destruct (IH x Hx) as (y & Hy & Hr). exists y. split; [now right|exact Hr].
Qed.

Lemma firstEncounters_fresh (uris : list (option string)) :
  forall seen,
    NoDup (firstEncounters seen uris)
    /\ (forall u, In u (firstEncounters seen uris) ->
          In u uris
          /\ existsb (fun v => optStringEqb v u) seen = false).
Proof.
  induction uris as [|u rest IH]; intros seen; cbn [firstEncounters].
  - split; [constructor | intros ? []].
  - destruct (existsb (fun v => optStringEqb v u) seen) eqn:Hu.
    + destruct (IH seen) as [Hnd Hin]. split; [exact Hnd|].
      intros v Hv. destruct (Hin v Hv). split; [now right | assumption].
    + destruct (IH (u :: seen)) as [Hnd Hin]. split.
      * constructor; [|exact Hnd]. intros Hu'. apply Hin in Hu'.
        destruct Hu' as [_ Hu']. cbn [existsb] in Hu'.
        apply orb_false_elim in Hu' as [Hu' _].
        destruct u as [s|]; cbn in Hu'; [|discriminate].
        now rewrite String.eqb_refl in Hu'.
      * intros v [<-|Hv]; [split; [now left | exact Hu]|].
        destruct (Hin v Hv) as [Hv1 Hv2]. split; [now right|].
        cbn [existsb] in Hv2. now apply orb_false_elim in Hv2.
Qed.

Lemma combine_fst (A B : Type) (a : list A) (b : list B) :
  List.length a = List.length b -> map fst (combine a b) = a.
Proof.
  revert b. induction a as [|x a IH]; intros [|y b] H; cbn in *;
    try discriminate; [reflexivity|].
  now rewrite IH by lia.
Qed.

Lemma combine_snd (A B : Type) (a : list A) (b : list B) :
  List.length a = List.length b -> map snd (combine a b) = b.
Proof.
  revert b. induction a as [|x a IH]; intros [|y b] H; cbn in *;
    try discriminate; [reflexivity|].
  now rewrite IH by lia.
Qed.

Lemma syntheticPrefixes_length (n : nat) :
  List.length (syntheticPrefixes n) = n.
Proof.
  unfold syntheticPrefixes. now rewrite length_map, length_seq.
Qed.

Lemma NoDup_map_on (A B : Type) (f : A -> B) (l : list A) :
  (forall x y, In x l -> In y l -> f x = f y -> x = y) ->
  NoDup l -> NoDup (map f l).
Proof.
  intros Hinj. induction 1 as [|x l Hx _ IH]; cbn; constructor.
  - intros Hin. apply in_map_iff in Hin. destruct Hin as (y & Hy & Hyl).
    assert (y = x) by (apply Hinj; [now right | now left | exact Hy]).
    subst. contradiction.
  - apply IH. intros a b Ha Hb. apply Hinj; now right.
Qed.

Lemma keyOf_inj (u v : option string) :
  u <> Some "null" -> v <> Some "null" -> keyOf u = keyOf v -> u = v.
Proof.
  destruct u as [s|], v as [t|]; cbn; intros Hu Hv E; subst;
    congruence.
Qed.

Lemma discovered_dispatch (T : Type) (parser : Parser T)
  (children : list Node) :
  Forall wellNamed (filter isElement children) ->
  forall n, In n (filter isElement children) ->
    dispatched
      (buildParsersNS parser (snd (discover children))
         (fst (discover children))) n
    = Some parser.
Proof.
  intros Hwn n Hn.
  destruct (DiscoveryFacts.discover_spec children) as (types & Hd & Hall).
  rewrite Hd. cbn [fst snd] in *.
  set (F := firstEncounters [] (map namespaceURI (filter isElement children)))
    in *.
  set (ns := combine (syntheticPrefixes (List.length F)) F) in *.
  assert (Hlen : List.length (syntheticPrefixes (List.length F))
                 = List.length F) by apply syntheticPrefixes_length.
  assert (HF : forall u, In u F -> u <> Some "null").
  { intros u Hu. apply (firstEncounters_fresh _ []) in Hu.
    destruct Hu as [Hu _]. apply in_map_iff in Hu.
    destruct Hu as (m & <- & Hm).
    rewrite Forall_forall in Hwn. apply (Hwn m Hm). }
  assert (Hnd : NoDup (map (fun e => keyOf (snd e)) ns)).
  { rewrite <- (map_map snd keyOf). unfold ns. rewrite (combine_snd _ _ Hlen).
    apply NoDup_map_on; [|apply firstEncounters_fresh].
    intros u v Hu Hv. apply keyOf_inj; auto. }
  rewrite DispatchFacts.dispatched_built.
  destruct (Forall2_partner Hall n Hn) as (t & Ht & q & Hq & ->).
  rewrite (@prefixOfKey_unique ns q _ Hnd Hq).
  assert (Hcolon : JsString.contains JsString.colon q = false).
  { assert (Hk : In q (map fst ns)) by (apply in_map_iff; now exists (q, namespaceURI n)).
    unfold ns in Hk. rewrite (combine_fst _ _ Hlen) in Hk.
    apply in_map_iff in Hk. destruct Hk as (j & <- & _).
    apply syntheticPrefix_no_colon. }
  destruct (@qualifiedName_parts q n Hcolon) as [Hp Hname].
  assert (Hdecl : declares types q (localName n) = true).
  { unfold declares. apply existsb_exists. exists (qualifiedName q n).
    split; [exact Ht|]. rewrite Hp, Hname, String.eqb_refl.
    rewrite Forall_forall in Hwn. destruct (Hwn n Hn) as [-> _].
    now rewrite String.eqb_refl. }
  now rewrite Hdecl.
Qed.

Section Members.

Variable number : Type.
Variable GEOMETRY_PARSERS_ : ParsersNS (JsOpt (Geometry number)).
Variable transformWithOptions :
  Geometry number -> Context -> Geometry number.

Local Notation "'readFeature'" :=
  (readFeatureElement GEOMETRY_PARSERS_ transformWithOptions).
Local Notation "'readInternal'" :=
  (readFeaturesInternal GEOMETRY_PARSERS_ transformWithOptions).
Local Notation "'readFromNode'" :=
  (readFeaturesFromNode GEOMETRY_PARSERS_ transformWithOptions).
Local Notation "'pusher'" :=
  (makeArrayPusher
     (stackless (fun n => bind (readFeature n) (fun f => ret (Some f))))).
Local Notation "'replacer'" :=
  (makeReplacer
     (stackless (fun n => bind (readFeature n) (fun f => ret (Defined f))))).

Lemma readFeaturesInternal_members (node : Node) (c : Context) :
  localName node = "featureMembers" \/ localName node = "featureMember" ->
  readInternal node c
  = match readMembers GEOMETRY_PARSERS_ transformWithOptions node c with
    | Ok r c' => Ok (nullToEmpty r) c'
    | Throw e => Throw e
    end.
Proof.
  intros H. unfold readFeaturesInternal, readFeaturesInternalWith, bind.
  destruct H as [-> | ->]; cbn [String.eqb Ascii.eqb Bool.eqb orb];
    destruct (readMembers _ _ node c); reflexivity.
Qed.

(** The branch of a container, from the feature types and namespaces that
    it works with. *)
Lemma readMembers_resolved (node : Node) (c c0 : Context)
  (types : FeatureType) (namespaces : FeatureNS) :
  resolveFeatureTypes node c = Ok (types, namespaces) c0 ->
  readMembers GEOMETRY_PARSERS_ transformWithOptions node c
  = if localName node =? "featureMember" then
      match pushParseAndPop Undefined
              (buildParsersNS replacer (namespaceObject namespaces)
                 (featureTypesArray types))
              node c0 with
      | Ok (Defined f) c' => Ok (Defined (SingleFeature f)) c'
      | Ok Null c' => Ok Null c'
      | Ok Undefined c' => Ok Undefined c'
      | Throw e => Throw e
      end
    else
      match pushParseAndPop []
              (buildParsersNS pusher (namespaceObject namespaces)
                 (featureTypesArray types))
              node c0 with
      | Ok features c' => Ok (Defined (FeatureArray features)) c'
      | Throw e => Throw e
      end.
Proof.
  intros H. unfold readMembers. unfold bind at 1. rewrite H.
  destruct (localName node =? "featureMember"); unfold bind.
  - destruct (pushParseAndPop Undefined _ node c0) as [[| |f] c'|e];
      reflexivity.
  - destruct (pushParseAndPop [] _ node c0) as [features c'|e]; reflexivity.
Qed.

Lemma pushed_all (parsersNS : ParsersNS (list (Feature number)))
  (children : list Node) :
  (forall n, In n children -> dispatched parsersNS n = Some pusher) ->
  forall top c features c',
    parseChildren parsersNS children top c = Ok features c' ->
    List.length features = List.length top + List.length children.
Proof.
  induction children as [|n rest IH]; intros Hd top c features c' H.
  - cbn in H. injection H as <- _. cbn. lia.
  - cbn [parseChildren] in H. unfold bind at 1 in H.
    rewrite applyParser_dispatched, (Hd n (or_introl eq_refl)) in H.
    unfold makeArrayPusher, stackless, bind, ret in H.
    destruct (readFeature n c) as [f c1|e]; [|discriminate].
    cbn [fst snd] in H.
    apply IH in H; [|intros m Hm; apply Hd; now right].
    rewrite length_app in H. cbn [List.length] in *. lia.
Qed.

Lemma replaced_all (parsersNS : ParsersNS (JsOpt (Feature number)))
  (children : list Node) :
  (forall n, In n children -> dispatched parsersNS n = Some replacer) ->
  forall top c r c',
    parseChildren parsersNS children top c = Ok r c' ->
    (children = [] /\ r = top)
    \/ (children <> [] /\ exists f, r = Defined f).
Proof.
  induction children as [|n rest IH]; intros Hd top c r c' H.
  - cbn in H. injection H as <- _. now left.
  - right. split; [discriminate|].
    cbn [parseChildren] in H. unfold bind at 1 in H.
    rewrite applyParser_dispatched, (Hd n (or_introl eq_refl)) in H.
    unfold makeReplacer, stackless, bind, ret in H.
    destruct (readFeature n c) as [f c1|e]; [|discriminate].
    cbn [fst snd notUndefined] in H.
    apply IH in H; [|intros m Hm; apply Hd; now right].
    destruct H as [[_ ->]|[_ H]]; [now exists f | exact H].
Qed.

(** X15.  With auto-discovery no element child of a container is skipped:
    when the context holds no feature type and the element children are
    named as a parser names them, [readFeaturesInternal] returns for a
    'featureMembers' container an array with one feature per element
    child, and for a 'featureMember' container with element children a
    single feature; for a 'featureMember' without element children it
    returns [undefined]. *)
Theorem discovered_children_are_features (node : Node) (c c' : Context)
  (r : JsOpt (Features number)) :
  featureTypeFalsy (featureType c) = true ->
  Forall wellNamed (elementChildren node) ->
  readInternal node c = Ok r c' ->
  (localName node = "featureMembers" ->
   exists features,
     r = Defined (FeatureArray features)
     /\ List.length features = List.length (elementChildren node))
  /\ (localName node = "featureMember" ->
      (elementChildren node = [] /\ r = Undefined)
      \/ (elementChildren node <> [] /\
           exists f, r = Defined (SingleFeature f))).
Proof.
  intros Hfalsy Hwn H. split; intros Hname.
  - rewrite readFeaturesInternal_members in H by now left.
    unfold readMembers, bind in H.
    rewrite (DiscoveryFacts.resolveFeatureTypes_falsy node c Hfalsy) in H.
    rewrite Hname in H.
    cbn [String.eqb Ascii.eqb Bool.eqb namespaceObject featureTypesArray] in H.
    unfold pushParseAndPop, parseNode in H.
    destruct (parseChildren _ (elementChildren node) [] _)
      as [features c1|e] eqn:Hp; [|discriminate].
    injection H as <- _. exists features. split; [reflexivity|].
    apply pushed_all in Hp; [exact Hp|].
    intros n Hn. now apply discovered_dispatch.
  - rewrite readFeaturesInternal_members in H by now right.
    unfold readMembers, bind in H.
    rewrite (DiscoveryFacts.resolveFeatureTypes_falsy node c Hfalsy) in H.
    rewrite Hname in H.
    cbn [String.eqb Ascii.eqb Bool.eqb namespaceObject featureTypesArray] in H.
    unfold pushParseAndPop, parseNode in H.
    destruct (parseChildren _ (elementChildren node) Undefined _)
      as [top c1|e] eqn:Hp; [|discriminate].
    apply replaced_all in Hp;
      [|intros n Hn; now apply discovered_dispatch].
    destruct Hp as [[Hnil ->]|[Hne (f & ->)]].
    + left. injection H as <- _. split; [exact Hnil | reflexivity].
    + right. injection H as <- _. split; [exact Hne|]. now exists f.
Qed.

Lemma parse_without_parsers (T : Type) (object : T) (node : Node)
  (c : Context) :
  pushParseAndPop object [] node c = Ok object c.
Proof.
  apply pushParseAndPop_unmatched. intros n _. reflexivity.
Qed.

Lemma resolveFeatureTypes_truthy (node : Node) (c : Context) :
  featureTypeFalsy (featureType c) = false ->
  resolveFeatureTypes node c = Ok (featureType c, featureNS c) c.
Proof.
  intros H. unfold resolveFeatureTypes, bind, getContext. now rewrite H.
Qed.

(** X16.  Feature types alone decode nothing: when the context holds a
    feature type and no featureNS, [readFeaturesInternal] decodes no child of
    a 'featureMembers' or 'featureMember' container, whatever its children
    are: it returns the empty array, or [undefined] for 'featureMember', and
    leaves the context as it was.  So [readFeaturesFromNode], called without
    read options by a format that was given a feature type and no
    featureNS, returns the empty array for every such container. *)
Theorem types_need_namespaces (c : Context) (node : Node) :
  featureTypeFalsy (featureType c) = false ->
  featureNS c = NSUndefined ->
  localName node = "featureMembers" \/ localName node = "featureMember" ->
  readInternal node c = Ok (noFeature number node) c
  /\ readFromNode (featureType c) NSUndefined node
     = Ok (FeatureArray []) (initialContext (featureType c) NSUndefined).
Proof.
  intros Hft Hns Hname.
  assert (Hread : forall c0,
            featureType c0 = featureType c -> featureNS c0 = NSUndefined ->
            readInternal node c0 = Ok (noFeature number node) c0).
  { intros c0 Hft0 Hns0.
    rewrite (readFeaturesInternal_members _ _ Hname).
    rewrite (@readMembers_resolved node c0 c0 (featureType c0)
               (featureNS c0))
      by (apply resolveFeatureTypes_truthy; now rewrite Hft0).
    rewrite Hns0. cbn [namespaceObject buildParsersNS fold_left].
    unfold noFeature.
    destruct (localName node =? "featureMember");
      rewrite parse_without_parsers; reflexivity. }
  split; [now apply Hread|].
  unfold readFeaturesFromNode. rewrite Hread by reflexivity.
  unfold noFeature. destruct (localName node =? "featureMember"); reflexivity.
Qed.

Lemma collection_parsers_dispatch (n : Node) :
  dispatched (FEATURE_COLLECTION_PARSERS GEOMETRY_PARSERS_
                transformWithOptions) n
  = if isGmlElement ["featureMember"; "featureMembers"] n
    then Some (makeReplacer
                 (stackless
                    (readFeaturesInternalOfMember GEOMETRY_PARSERS_
                       transformWithOptions)))
    else None.
Proof.
  unfold FEATURE_COLLECTION_PARSERS. rewrite dispatched_gml.
  unfold isGmlElement, JsString.includes. cbn [JsObject.get existsb].
  rewrite orb_false_r, (String.eqb_sym "featureMember"),
    (String.eqb_sym "featureMembers").
  destruct (optStringEqb (namespaceURI n) (Some GMLNS)); [|reflexivity].
  destruct (localName n =? "featureMember"); [reflexivity|].
  destruct (localName n =? "featureMembers"); reflexivity.
Qed.

(** X17.  An element that is no container gives the empty array:
    [readFeaturesInternal] returns the empty array and leaves the context as
    it was for every node that is named neither FeatureCollection nor
    featureMembers nor featureMember, and for every FeatureCollection, of
    the WFS namespace or not, none of whose element children is a
    featureMember or featureMembers element of the GML namespace; and so
    does [readFeaturesFromNode], called without read options. *)
Theorem no_container_no_features (c : Context) (node : Node) :
  (localName node <> "FeatureCollection"
   /\ localName node <> "featureMembers"
   /\ localName node <> "featureMember"
   \/ localName node = "FeatureCollection"
      /\ (forall n, In n (elementChildren node) ->
            isGmlElement ["featureMember"; "featureMembers"] n = false)) ->
  readInternal node c = Ok (Defined (FeatureArray [])) c
  /\ readFromNode (featureType c) (featureNS c) node
     = Ok (FeatureArray []) (initialContext (featureType c) (featureNS c)).
Proof.
  intros H.
  assert (Hread : forall c0,
            readInternal node c0 = Ok (Defined (FeatureArray [])) c0).
  { intros c0. unfold readFeaturesInternal, readFeaturesInternalWith, bind.
    destruct H as [(H1 & H2 & H3)|[Hname Hnone]].
    - apply String.eqb_neq in H1, H2, H3. rewrite H1, H2, H3. reflexivity.
    - assert (Hu : unmatched (FEATURE_COLLECTION_PARSERS GEOMETRY_PARSERS_
                                transformWithOptions) node).
      { intros n Hn. rewrite collection_parsers_dispatch.
        now rewrite (Hnone n Hn). }
      rewrite Hname. cbn [String.eqb Ascii.eqb Bool.eqb].
      destruct (optStringEqb (namespaceURI node)
                  (Some "http://www.opengis.net/wfs"));
        rewrite (pushParseAndPop_unmatched _ _ Hu); reflexivity. }
  split; [apply Hread|].
  unfold readFeaturesFromNode. now rewrite Hread.
Qed.

Lemma member_call (m : Node) (c : Context) :
  isGmlElement ["featureMember"; "featureMembers"] m = true ->
  readFeaturesInternalOfMember GEOMETRY_PARSERS_ transformWithOptions m c
  = readInternal m c.
Proof.
  unfold isGmlElement, JsString.includes. cbn [existsb].
  rewrite orb_false_r. intros H. apply andb_prop in H as [_ H].
  unfold readFeaturesInternalOfMember, readFeaturesInternal,
    readFeaturesInternalWith.
  apply orb_prop in H as [H|H]; apply String.eqb_eq in H; rewrite H;
    reflexivity.
Qed.

Lemma readFeaturesInternal_not_null (node : Node) (c c' : Context) :
  readInternal node c <> Ok Null c'.
Proof.
  unfold readFeaturesInternal, readFeaturesInternalWith, bind.
  match goal with
  | |- match ?m with _ => _ end <> _ =>
      destruct m as [[| |features] c1|e]; discriminate
  end.
Qed.

(** X18.  In a FeatureCollection the last container that gives something
    wins: what [readFeaturesInternal] returns for the collection with one
    more container is what it returns for that container, read in the
    context that the containers before it have left, unless that is
    [undefined]; then it is what the collection returns without the
    container.  So the features of the containers before a 'featureMembers'
    container, and before a 'featureMember' with a feature, are not in the
    result. *)
Theorem last_container_wins (q : string) (u : option string)
  (attrs : list Attr) (before : list Node) (m : Node)
  (c c1 c2 : Context) (r1 r2 : JsOpt (Features number)) :
  isGmlElement ["featureMember"; "featureMembers"] m = true ->
  isElement m = true ->
  readInternal (Element q "FeatureCollection" u attrs before) c
  = Ok r1 c1 ->
  readInternal m c1 = Ok r2 c2 ->
  readInternal (Element q "FeatureCollection" u attrs (before ++ [m])) c
  = Ok (if notUndefined r2 then r2 else r1) c2.
Proof.
  intros Hm He Hbefore Hlast.
  assert (Hnn : r2 <> Null)
    by (intros ->; exact (readFeaturesInternal_not_null _ _ Hlast)).
  unfold readFeaturesInternal, readFeaturesInternalWith, bind in Hbefore |- *.
  cbn [localName namespaceURI String.eqb Ascii.eqb Bool.eqb]
    in Hbefore |- *.
  fold (readFeaturesInternal GEOMETRY_PARSERS_ transformWithOptions)
    in Hlast.
  assert (Hstep : forall seed top1,
    pushParseAndPop seed
      (FEATURE_COLLECTION_PARSERS GEOMETRY_PARSERS_ transformWithOptions)
      (Element q "FeatureCollection" u attrs before) c = Ok top1 c1 ->
    pushParseAndPop seed
      (FEATURE_COLLECTION_PARSERS GEOMETRY_PARSERS_ transformWithOptions)
      (Element q "FeatureCollection" u attrs (before ++ [m])) c
    = Ok (if notUndefined r2 then r2 else top1) c2).
  { intros seed top1 H. unfold pushParseAndPop, parseNode in H |- *.
    unfold elementChildren in H |- *. cbn [childNodes] in H |- *.
    rewrite filter_app, parseChildren_app, H. cbn [filter].
    rewrite He. cbn [parseChildren]. unfold bind.
    rewrite applyParser_dispatched, collection_parsers_dispatch, Hm.
    unfold makeReplacer, stackless, bind, ret.
    rewrite (@member_call m c1 Hm), Hlast. cbn [fst snd].
    destruct (notUndefined r2); reflexivity. }
  destruct (optStringEqb u (Some "http://www.opengis.net/wfs")).
  - destruct (pushParseAndPop (Defined (FeatureArray [])) _ _ c)
      as [top1 c1'|e] eqn:Hp in Hbefore; [|discriminate].
    injection Hbefore as <- <-. rewrite (Hstep _ _ Hp).
    destruct r2; [reflexivity | congruence | reflexivity].
  - destruct (pushParseAndPop Null _ _ c)
      as [top1 c1'|e] eqn:Hp in Hbefore; [|discriminate].
    injection Hbefore as <- <-. rewrite (Hstep _ _ Hp).
    destruct r2; [reflexivity | congruence | reflexivity].
Qed.

(** *** What a container stores in the parse context *)

Lemma keeps_readGeometryElement :
  tablesKeep typesOf GEOMETRY_PARSERS_ ->
  forall node,
    keeps typesOf
      (readGeometryElement GEOMETRY_PARSERS_ transformWithOptions node).
Proof.
  intros Ht node c g c' H. unfold readGeometryElement in H.
  destruct (firstElementChild node) as [first|]; [|discriminate].
  unfold bind, getContext, putContext in H.
  destruct (pushParseAndPop Null GEOMETRY_PARSERS_ node _)
    as [popped c1|e] eqn:Hp; [|discriminate].
  apply (keeps_pushParseAndPop Ht Null node) in Hp.
  destruct popped; injection H as _ <-; exact Hp.
Qed.

Lemma keeps_readFeatureChildren :
  tablesKeep typesOf GEOMETRY_PARSERS_ ->
  forall children values name,
    keeps typesOf
      (readFeatureChildren GEOMETRY_PARSERS_ transformWithOptions children
         values name).
Proof.
  intros Ht. induction children as [|n rest IH]; intros values name;
    [apply keeps_ret|].
  cbn [readFeatureChildren]. destruct (isAttributeElement n); [apply IH|].
  apply keeps_bind; [now apply keeps_readGeometryElement|].
  intros g. apply IH.
Qed.

Lemma keeps_readFeatureElement :
  tablesKeep typesOf GEOMETRY_PARSERS_ ->
  forall node, keeps typesOf (readFeature node).
Proof.
  intros Ht node. unfold readFeatureElement.
  apply keeps_bind; [now apply keeps_readFeatureChildren|].
  intros [values name]. apply keeps_ret.
Qed.

Lemma built_tables_keep (T : Type) (parser : Parser T)
  (featureNS : JsObject.t (option string)) (types : list string) :
  (forall n top, keeps typesOf (parser n top)) ->
  tablesKeep typesOf (buildParsersNS parser featureNS types).
Proof.
  intros H n p top Hd. rewrite DispatchFacts.dispatched_built in Hd.
  destruct (prefixOfKey featureNS (keyOf (namespaceURI n))) as [q|];
    [|discriminate].
  destruct (declares types q (localName n)); [|discriminate].
  injection Hd as <-. apply H.
Qed.

Lemma built_tables_unmatched (T : Type) (parser : Parser T)
  (featureNS : JsObject.t (option string)) (types : list string)
  (node : Node) :
  Forall (fun n => declared featureNS types n = false)
    (elementChildren node) ->
  unmatched (buildParsersNS parser featureNS types) node.
Proof.
  intros H n Hn. rewrite Forall_forall in H. specialize (H n Hn).
  rewrite DispatchFacts.dispatched_built. unfold declared in H.
  destruct (prefixOfKey featureNS (keyOf (namespaceURI n))) as [q|];
    [|reflexivity].
  now rewrite H.
Qed.

Lemma readMembers_keeps (node : Node) (c c0 c' : Context)
  (types : FeatureType) (namespaces : FeatureNS)
  (r : JsOpt (Features number)) :
  tablesKeep typesOf GEOMETRY_PARSERS_ ->
  resolveFeatureTypes node c = Ok (types, namespaces) c0 ->
  readMembers GEOMETRY_PARSERS_ transformWithOptions node c = Ok r c' ->
  typesOf c' = typesOf c0.
Proof.
  intros Ht Hr H. rewrite (@readMembers_resolved _ _ _ _ _ Hr) in H.
  assert (Hfeature : forall (A : Type) (wrap : Feature number -> A) n,
            keeps typesOf (bind (readFeature n) (fun f => ret (wrap f)))).
  { intros A wrap n. apply keeps_bind; [now apply keeps_readFeatureElement|].
    intros f. apply keeps_ret. }
  destruct (localName node =? "featureMember").
  - destruct (pushParseAndPop Undefined _ node c0) as [top c1|e] eqn:Hp;
      [|discriminate].
    revert Hp. match goal with
    | |- pushParseAndPop ?o ?t ?n _ = _ -> _ =>
        assert (Hk : keeps typesOf (pushParseAndPop o t n))
    end.
    { apply keeps_pushParseAndPop, built_tables_keep, keeps_makeReplacer.
      intros n. apply Hfeature. }
    intros Hp. apply Hk in Hp.
    destruct top; injection H as _ <-; exact Hp.
  - destruct (pushParseAndPop [] _ node c0) as [features c1|e] eqn:Hp;
      [|discriminate].
    revert Hp. match goal with
    | |- pushParseAndPop ?o ?t ?n _ = _ -> _ =>
        assert (Hk : keeps typesOf (pushParseAndPop o t n))
    end.
    { apply keeps_pushParseAndPop, built_tables_keep, keeps_makeArrayPusher,
        keeps_stackless.
      intros n. apply Hfeature. }
    intros Hp. apply Hk in Hp.
    injection H as _ <-. exact Hp.
Qed.

(** With a feature type in the context nothing is discovered: the children
    that the stored types do not declare are skipped. *)
Lemma undeclared_children_are_skipped (node : Node) (c : Context)
  (types : list string) (namespaces : JsObject.t (option string)) :
  featureType c = FTArray types ->
  featureNS c = NSObject namespaces ->
  localName node = "featureMembers" \/ localName node = "featureMember" ->
  Forall (fun n => declared namespaces types n = false)
    (elementChildren node) ->
  readInternal node c = Ok (noFeature number node) c.
Proof.
  intros Hft Hns Hname Hnone.
  rewrite (readFeaturesInternal_members _ _ Hname).
  rewrite (@readMembers_resolved node c c (featureType c) (featureNS c))
    by (apply resolveFeatureTypes_truthy; now rewrite Hft).
  rewrite Hft, Hns. cbn [namespaceObject featureTypesArray].
  unfold noFeature.
  destruct (localName node =? "featureMember");
    rewrite (pushParseAndPop_unmatched _ _
               (built_tables_unmatched _ _ _ _ Hnone));
    reflexivity.
Qed.

(** With auto-discovery every element child of a container is decoded. *)
Lemma discovered_children_are_decoded (node : Node) (c c' : Context)
  (r : JsOpt (Features number)) :
  featureTypeFalsy (featureType c) = true ->
  localName node = "featureMembers" \/ localName node = "featureMember" ->
  Forall wellNamed (elementChildren node) ->
  readInternal node c = Ok r c' ->
  oneFeaturePerChild node r.
Proof.
  intros Hfalsy Hname Hwn H.
  rewrite (readFeaturesInternal_members _ _ Hname) in H.
  rewrite (@readMembers_resolved _ _ _ _ _
             (DiscoveryFacts.resolveFeatureTypes_falsy node c Hfalsy)) in H.
  cbn [namespaceObject featureTypesArray] in H.
  unfold oneFeaturePerChild. unfold pushParseAndPop, parseNode in H.
  destruct (localName node =? "featureMember").
  - destruct (parseChildren _ (elementChildren node) Undefined _)
      as [top c1|e] eqn:Hp; [|discriminate].
    apply replaced_all in Hp;
      [|intros n Hn; now apply discovered_dispatch].
    destruct Hp as [[-> ->]|[Hne (f & ->)]].
    + now injection H as <- _.
    + injection H as <- _.
      destruct (elementChildren node); [congruence | now exists f].
  - destruct (parseChildren _ (elementChildren node) [] _)
      as [features c1|e] eqn:Hp; [|discriminate].
    injection H as <- _. exists features. split; [reflexivity|].
    apply pushed_all in Hp; [exact Hp|].
    intros n Hn. now apply discovered_dispatch.
Qed.

(** Reading a 'featureMembers' container without feature types is reading
    it with the discovered types and namespaces as options. *)
Lemma discovered_as_options (node : Node) (c : Context) :
  featureTypeFalsy (featureType c) = true ->
  localName node = "featureMembers" ->
  readInternal node c
  = readInternal node
      (setFeatureTypes c (FTArray (fst (discover (childNodes node))))
         (NSObject (snd (discover (childNodes node))))).
Proof.
  intros Hfalsy Hname.
  rewrite !(readFeaturesInternal_members _ _ (or_introl Hname)).
  rewrite (@readMembers_resolved _ _ _ _ _
             (DiscoveryFacts.resolveFeatureTypes_falsy node c Hfalsy)).
  rewrite (@readMembers_resolved node
             (setFeatureTypes c
                (FTArray (fst (discover (childNodes node))))
                (NSObject (snd (discover (childNodes node)))))
             _ _ _
             (resolveFeatureTypes_truthy node
                (setFeatureTypes c
                   (FTArray (fst (discover (childNodes node))))
                   (NSObject (snd (discover (childNodes node)))))
                eq_refl)).
  rewrite Hname. reflexivity.
Qed.

Lemma stored_after_featureMembers (node : Node) (c c' : Context)
  (r : JsOpt (Features number)) :
  featureTypeFalsy (featureType c) = true ->
  tablesKeep typesOf GEOMETRY_PARSERS_ ->
  localName node = "featureMembers" \/ localName node = "featureMember" ->
  readInternal node c = Ok r c' ->
  typesOf c'
  = if localName node =? "featureMember" then typesOf c
    else (FTArray (fst (discover (childNodes node))),
          NSObject (snd (discover (childNodes node)))).
Proof.
  intros Hfalsy Ht Hname H.
  rewrite (readFeaturesInternal_members _ _ Hname) in H.
  destruct (readMembers _ _ node c) as [r0 c1|e] eqn:Hm; [|discriminate].
  injection H as _ <-.
  rewrite (@readMembers_keeps _ _ _ _ _ _ _ Ht
             (DiscoveryFacts.resolveFeatureTypes_falsy node c Hfalsy) Hm).
  destruct (localName node =? "featureMember"); reflexivity.
Qed.

(** C3.  When the context holds no feature type, [readFeaturesInternal]
    discovers the feature types and namespaces from the element children of
    the container: the namespaces pair the synthetic prefixes p0, p1, ...
    with the distinct namespace URIs in order of first encounter, and every
    element child is recorded under the prefix of its URI; with two element
    children of different namespaces the prefixes are p0 and p1 in that
    order.  The decoder works with them: every element child is decoded as
    a feature, and a 'featureMembers' container is read as it is read with
    the discovered types and namespaces given as options, and leaves them
    in the parse context when the parsers of the versioned format do not
    write there. *)
Theorem discovery_assigns_prefixes (node : Node) (c : Context) :
  featureTypeFalsy (featureType c) = true ->
  localName node = "featureMembers" \/ localName node = "featureMember" ->
  let uris := firstEncounters [] (map namespaceURI (elementChildren node)) in
  let namespaces := combine (syntheticPrefixes (List.length uris)) uris in
  exists types,
    Forall2 (qualifiedBy namespaces) (elementChildren node) types
    /\ (forall first second,
          elementChildren node = [first; second] ->
          namespaceURI first <> namespaceURI second ->
          namespaces
          = [("p0", namespaceURI first); ("p1", namespaceURI second)]
          /\ types = [qualifiedName "p0" first; qualifiedName "p1" second])
    /\ (forall r c',
          readInternal node c = Ok r c' ->
          Forall wellNamed (elementChildren node) ->
          oneFeaturePerChild node r)
    /\ (localName node = "featureMembers" ->
        readInternal node c
        = readInternal node
            (setFeatureTypes c (FTArray types) (NSObject namespaces))
        /\ (forall r c',
              readInternal node c = Ok r c' ->
              tablesKeep typesOf GEOMETRY_PARSERS_ ->
              featureType c' = FTArray types
              /\ featureNS c' = NSObject namespaces)).
Proof.
  intros Hfalsy Hname uris namespaces.
  destruct (DiscoveryFacts.discover_spec (childNodes node))
    as (types & Hd & Hall).
  fold (elementChildren node) in Hd, Hall. fold uris in Hd, Hall.
  fold namespaces in Hd, Hall.
  exists types. split; [exact Hall|]. split; [|split].
  - intros first second Hchildren Hneq.
    assert (Hns : namespaces
                  = [("p0", namespaceURI first);
                     ("p1", namespaceURI second)]).
    { unfold namespaces, uris. rewrite Hchildren. cbn.
      rewrite (@DiscoveryFacts.optStringEqb_neq _ _ Hneq). reflexivity. }
    split; [exact Hns|].
    rewrite Hchildren, Hns in Hall.
    inversion Hall as [|? t1 ? l1 (k1 & Hk1 & ->) Hrest]; subst.
    inversion Hrest as [|? t2 ? l2 (k2 & Hk2 & ->) Hnil]; subst.
    inversion Hnil; subst.
    destruct Hk1 as [E|[E|[]]]; destruct Hk2 as [E'|[E'|[]]];
      inversion E; inversion E'; subst; try reflexivity; congruence.
  - intros r c' H Hwn.
    exact (@discovered_children_are_decoded _ _ _ _ Hfalsy Hname Hwn H).
  - intros Hmembers. split.
    + rewrite (@discovered_as_options _ _ Hfalsy Hmembers), Hd. reflexivity.
    + intros r c' H Ht.
      pose proof (@stored_after_featureMembers _ _ _ _ Hfalsy Ht Hname H) as Hstored.
      rewrite Hmembers, Hd in Hstored. cbn in Hstored.
      now injection Hstored as -> ->.
Qed.

(** C2.  When the context holds no feature type, what the auto-discovery
    finds is stored into the parse context by a 'featureMembers' container
    and by no 'featureMember' container.  After a 'featureMembers'
    container the context holds the discovered types and namespaces, and
    the discovery does not run again: a later container is read with the
    stored types, so that it gives nothing when none of its element
    children is of a stored type.  After a 'featureMember' container the
    context holds what it held before, no feature type, and the discovery
    runs again for the next container, each of whose element children is
    decoded whatever its type is, as are the element children of the
    'featureMember' container itself.  The parsers of the versioned format
    are not among the sources; the hypothesis on them is that they do not
    write the feature types and namespaces of the context. *)
Theorem discovery_is_stored_for_featureMembers_only (node : Node)
  (c c' : Context) (r : JsOpt (Features number)) :
  featureTypeFalsy (featureType c) = true ->
  tablesKeep typesOf GEOMETRY_PARSERS_ ->
  readInternal node c = Ok r c' ->
  (localName node = "featureMembers" ->
   featureType c' = FTArray (fst (discover (childNodes node)))
   /\ featureNS c' = NSObject (snd (discover (childNodes node)))
   /\ featureTypeFalsy (featureType c') = false
   /\ (forall later,
         localName later = "featureMembers"
         \/ localName later = "featureMember" ->
         Forall
           (fun n =>
              declared (snd (discover (childNodes node)))
                (fst (discover (childNodes node))) n = false)
           (elementChildren later) ->
         readInternal later c' = Ok (noFeature number later) c'))
  /\ (localName node = "featureMember" ->
      featureType c' = featureType c
      /\ featureNS c' = featureNS c
      /\ featureTypeFalsy (featureType c') = true
      /\ (Forall wellNamed (elementChildren node) ->
          oneFeaturePerChild node r)
      /\ (forall later r2 c2,
            localName later = "featureMembers"
            \/ localName later = "featureMember" ->
            Forall wellNamed (elementChildren later) ->
            readInternal later c' = Ok r2 c2 ->
            oneFeaturePerChild later r2)).
Proof.
  intros Hfalsy Ht H. split; intros Hname.
  - pose proof (@stored_after_featureMembers _ _ _ _ Hfalsy Ht
                  (or_introl Hname) H) as Hstored.
    rewrite Hname in Hstored. cbn in Hstored.
    injection Hstored as Hft Hns.
    split; [exact Hft|]. split; [exact Hns|].
    split; [now rewrite Hft|].
    intros later Hlater Hnone.
    exact (@undeclared_children_are_skipped _ _ _ _ Hft Hns Hlater Hnone).
  - pose proof (@stored_after_featureMembers _ _ _ _ Hfalsy Ht
                  (or_intror Hname) H) as Hstored.
    rewrite Hname in Hstored. cbn in Hstored.
    injection Hstored as Hft Hns.
    split; [exact Hft|]. split; [exact Hns|].
    split; [now rewrite Hft|]. split.
    + intros Hwn.
      exact (@discovered_children_are_decoded _ _ _ _ Hfalsy (or_intror Hname)
               Hwn H).
    + intros later r2 c2 Hlater Hwn Hread.
      refine (@discovered_children_are_decoded _ _ _ _ _ Hlater Hwn Hread).
      now rewrite Hft.
Qed.

End Members.

Lemma discovery_assigns_prefixes_witness :
  Example.decodeFeaturesInternal (Example.twoNamespaces "featureMembers")
    Example.noContext
  = Example.decodeFeaturesInternal (Example.twoNamespaces "featureMembers")
      (mkContext (FTArray ["p0:road"; "p1:river"])
         (NSObject [("p0", Some "http://example.org/a");
                    ("p1", Some "http://example.org/b")])
         None None)
  /\ Example.decodeFeaturesInternal (Example.twoNamespaces "featureMembers")
       Example.noContext
     = Ok (Defined (FeatureArray [mkFeature [] None None;
                                  mkFeature [] None None]))
         (mkContext (FTArray ["p0:road"; "p1:river"])
            (NSObject [("p0", Some "http://example.org/a");
                       ("p1", Some "http://example.org/b")])
            None None).
Proof.
  destruct (@discovery_assigns_prefixes nat Example.GEOMETRY_PARSERS_
              Example.transformWithOptions
              (Example.twoNamespaces "featureMembers") Example.noContext
              eq_refl (or_introl eq_refl))
    as (types & _ & Htwo & _ & Hmembers).
  destruct (Htwo _ _ eq_refl) as [_ Ht]; [discriminate|].
  destruct (Hmembers eq_refl) as [Heq _].
  split.
  - rewrite Ht in Heq. exact Heq.
  - vm_compute. reflexivity.
Defined.

Lemma discovery_is_stored_for_featureMembers_only_witness :
  (exists r c',
     Example.decodeFeaturesInternal (Example.twoNamespaces "featureMembers")
       Example.noContext = Ok r c'
     /\ featureType c' = FTArray ["p0:road"; "p1:river"]
     /\ featureNS c'
        = NSObject [("p0", Some "http://example.org/a");
                    ("p1", Some "http://example.org/b")]
     /\ Example.decodeFeaturesInternal Example.oneMember c'
        = Ok Undefined c')
  /\ (exists r c',
        Example.decodeFeaturesInternal (Example.twoNamespaces "featureMember")
          Example.noContext = Ok r c'
        /\ featureType c' = FTUndefined
        /\ featureNS c' = NSUndefined
        /\ exists f, r = Defined (SingleFeature f)).
Proof.
  split.
  - destruct (Example.decodeFeaturesInternal
                (Example.twoNamespaces "featureMembers") Example.noContext)
      as [r c'|e] eqn:H; [|vm_compute in H; discriminate].
    destruct (@discovery_is_stored_for_featureMembers_only nat
                Example.GEOMETRY_PARSERS_ Example.transformWithOptions
                (Example.twoNamespaces "featureMembers") Example.noContext
                c' r eq_refl
                (@FrameFacts.example_geometry_keep _ typesOf) H)
      as [Hmembers _].
    destruct (Hmembers eq_refl) as (Hft & Hns & _ & Hlater).
    exists r, c'. split; [reflexivity|].
    split; [exact Hft|]. split; [exact Hns|].
    apply (Hlater Example.oneMember (or_intror eq_refl)).
    constructor; [reflexivity | constructor].
  - destruct (Example.decodeFeaturesInternal
                (Example.twoNamespaces "featureMember") Example.noContext)
      as [r c'|e] eqn:H; [|vm_compute in H; discriminate].
    destruct (@discovery_is_stored_for_featureMembers_only nat
                Example.GEOMETRY_PARSERS_ Example.transformWithOptions
                (Example.twoNamespaces "featureMember") Example.noContext
                c' r eq_refl
                (@FrameFacts.example_geometry_keep _ typesOf) H)
      as [_ Hmember].
    destruct (Hmember eq_refl) as (Hft & Hns & _ & Hdecoded & _).
    exists r, c'. split; [reflexivity|].
    split; [exact Hft|]. split; [exact Hns|].
    apply Hdecoded. cbn. repeat constructor; discriminate.
Defined.

Lemma discovered_children_are_features_witness :
  exists features : list (Feature nat),
    Example.decodeFeaturesInternal (Example.twoNamespaces "featureMembers")
      Example.noContext
    = Ok (Defined (FeatureArray features))
        (mkContext (FTArray ["p0:road"; "p1:river"])
           (NSObject [("p0", Some "http://example.org/a");
                      ("p1", Some "http://example.org/b")])
           None None)
    /\ List.length features = 2.
Proof.
  destruct (Example.decodeFeaturesInternal
              (Example.twoNamespaces "featureMembers") Example.noContext)
    as [r c'|e] eqn:H; [|vm_compute in H; discriminate].
  destruct (@discovered_children_are_features nat Example.GEOMETRY_PARSERS_
              Example.transformWithOptions
              (Example.twoNamespaces "featureMembers") Example.noContext
              c' r eq_refl) as [Hmembers _].
  - cbn. repeat constructor; discriminate.
  - exact H.
  - destruct (Hmembers eq_refl) as (features & -> & Hlen).
    exists features. vm_compute in H. injection H as _ <-.
    split; [reflexivity | exact Hlen].
Defined.

Lemma types_need_namespaces_witness :
  Example.decodeFeaturesInternal (Example.twoNamespaces "featureMember")
    (initialContext (FTString "road") NSUndefined)
  = Ok Undefined (initialContext (FTString "road") NSUndefined)
  /\ GMLBase.readFeaturesFromNode Example.GEOMETRY_PARSERS_
       Example.transformWithOptions (FTString "road") NSUndefined
       (Example.twoNamespaces "featureMembers")
     = Ok (FeatureArray []) (initialContext (FTString "road") NSUndefined).
Proof.
  split.
  - apply (@types_need_namespaces nat Example.GEOMETRY_PARSERS_
             Example.transformWithOptions
             (initialContext (FTString "road") NSUndefined)
             (Example.twoNamespaces "featureMember") eq_refl eq_refl).
    right. reflexivity.
  - apply (@types_need_namespaces nat Example.GEOMETRY_PARSERS_
             Example.transformWithOptions
             (initialContext (FTString "road") NSUndefined)
             (Example.twoNamespaces "featureMembers") eq_refl eq_refl).
    left. reflexivity.
Defined.

Lemma no_container_no_features_witness :
  GMLBase.readFeaturesFromNode Example.GEOMETRY_PARSERS_
    Example.transformWithOptions FTUndefined NSUndefined
    Example.featureWithBoundsOnly
  = Ok (FeatureArray []) Example.noContext
  /\ Example.decodeFeaturesInternal Sample.noContainers Example.noContext
     = Ok (Defined (FeatureArray [])) Example.noContext.
Proof.
  split.
  - apply (@no_container_no_features nat Example.GEOMETRY_PARSERS_
             Example.transformWithOptions Example.noContext
             Example.featureWithBoundsOnly).
    left. repeat split; discriminate.
  - apply (@no_container_no_features nat Example.GEOMETRY_PARSERS_
             Example.transformWithOptions Example.noContext
             Sample.noContainers).
    right. split; [reflexivity|].
    intros n [<-|[<-|[]]]; reflexivity.
Defined.

Lemma last_container_wins_witness :
  (exists c',
     Example.decodeFeaturesInternal Sample.twoContainers Example.noContext
     = Ok (Defined (FeatureArray [mkFeature [] None None])) c')
  /\ (exists c',
        Example.decodeFeaturesInternal Sample.emptyLastContainer
          Example.noContext
        = Ok (Defined (FeatureArray [mkFeature [] None None;
                                     mkFeature [] None None])) c').
Proof.
  split.
  - eexists.
    refine (@last_container_wins nat Example.GEOMETRY_PARSERS_
              Example.transformWithOptions "gml:FeatureCollection"
              (Some GMLNS) []
              [Example.gml "featureMembers" []
                 [Example.el "a" "road" "http://example.org/a" [];
                  Example.el "a" "road" "http://example.org/a" []]]
              (Example.gml "featureMembers" []
                 [Example.el "a" "road" "http://example.org/a" []])
              Example.noContext _ _ _
              (Defined (FeatureArray [mkFeature [] None None]))
              eq_refl eq_refl _ _).
    + vm_compute. reflexivity.
    + vm_compute. reflexivity.
  - eexists.
    refine (@last_container_wins nat Example.GEOMETRY_PARSERS_
              Example.transformWithOptions "gml:FeatureCollection"
              (Some GMLNS) []
              [Example.gml "featureMembers" []
                 [Example.el "a" "road" "http://example.org/a" [];
                  Example.el "a" "road" "http://example.org/a" []]]
              (Example.gml "featureMember" [] [])
              Example.noContext _ _ _ Undefined
              eq_refl eq_refl _ _).
    + vm_compute. reflexivity.
    + vm_compute. reflexivity.
Defined.

Lemma syntheticPrefixes_NoDup (n : nat) : NoDup (syntheticPrefixes n).
Proof.
  unfold syntheticPrefixes. apply NoDup_map_on; [|apply seq_NoDup].
  intros i j _ _. apply DiscoveryFacts.syntheticPrefix_inj.
Qed.

Lemma Forall2_length_eq (A B : Type) (R : A -> B -> Prop) (l : list A)
  (l' : list B) :
  Forall2 R l l' -> List.length l' = List.length l.
Proof.
  induction 1; cbn; congruence.
Qed.

(** X19.  What the discovery records: one feature type for every element
    child of the container, also when a name is repeated, each of them a
    prefix of the namespaces object, a colon and a name; and in the
    namespaces object every prefix once and every namespace URI once. *)
Theorem discovery_records_every_child (children : list Node) :
  List.length (fst (discover children))
  = List.length (filter isElement children)
  /\ Forall2
       (fun child ft =>
          typeName ft = typeName (nodeName child)
          /\ In (typePrefix ft, namespaceURI child) (snd (discover children)))
       (filter isElement children) (fst (discover children))
  /\ NoDup (JsObject.keys (snd (discover children)))
  /\ NoDup (map snd (snd (discover children))).
Proof.
  destruct (DiscoveryFacts.discover_spec children) as (types & Hd & Hall).
  rewrite Hd. cbn [fst snd].
  set (F := firstEncounters [] (map namespaceURI (filter isElement children)))
    in *.
  assert (Hlen : List.length (syntheticPrefixes (List.length F))
                 = List.length F) by apply syntheticPrefixes_length.
  split; [exact (Forall2_length_eq Hall)|].
  split; [|split].
  - eapply Forall2_impl; [|exact Hall].
    intros child ft (q & Hq & ->).
    assert (Hcolon : JsString.contains JsString.colon q = false).
    { assert (Hk : In q (map fst (combine (syntheticPrefixes (List.length F))
                                    F)))
        by (apply in_map_iff; now exists (q, namespaceURI child)).
      rewrite (combine_fst _ _ Hlen) in Hk.
      apply in_map_iff in Hk. destruct Hk as (j & <- & _).
      apply syntheticPrefix_no_colon. }
    destruct (@qualifiedName_parts q child Hcolon) as [-> ->].
    split; [reflexivity | exact Hq].
  - unfold JsObject.keys. rewrite (combine_fst _ _ Hlen).
    apply syntheticPrefixes_NoDup.
  - rewrite (combine_snd _ _ Hlen). apply firstEncounters_fresh.
Qed.

End MemberFacts.
